(** * Firewall Builder: rule validation, script compilation and rule-set codec

    A shallow embedding of the engine of the Firewall Builder application
    ([utils.ts]: [validateIP], [validatePort], [validateRule],
    [exportToIptables], [exportToJSON]; [App.tsx]: [handleImport]) and the
    properties its specification states about it.

    JavaScript strings are modelled by [string]: a character is a code unit
    in the range 0..255 (Latin-1).  A JavaScript number that holds the result
    of [parseInt] is modelled by [option Z], [None] being NaN. *)

From Stdlib Require Import Bool Arith ZArith NArith Lia List.
From Stdlib Require Import Ascii String DecimalString.
From Stdlib Require Import Sorting.Sorted Sorting.Permutation.
Import ListNotations.

Open Scope string_scope.
Open Scope Z_scope.

(** ** Characters and the string primitives of the platform *)

Definition code (c : ascii) : Z := Z.of_N (N_of_ascii c).

Definition in_range (lo hi : Z) (c : ascii) : bool :=
  (lo <=? code c) && (code c <=? hi).

(** [\d] of a regular expression without the unicode flag: [0-9]. *)
Definition is_digit (c : ascii) : bool := in_range 48 57 c.

(** WhiteSpace and LineTerminator code units below 256: TAB, LF, VT, FF, CR,
    SP and NBSP. *)
Definition isWhiteSpace (c : ascii) : bool :=
  in_range 9 13 c || (code c =? 32) || (code c =? 160).

(** Lower-casing of one Latin-1 code unit: [A-Z] and the accented capitals
    U+00C0..U+00DE (except the multiplication sign U+00D7) move up by 32. *)
Definition lower_char (c : ascii) : ascii :=
  if in_range 65 90 c || (in_range 192 222 c && negb (code c =? 215))
  then ascii_of_N (N_of_ascii c + 32)
  else c.

Fixpoint toLowerCase (s : string) : string :=
  match s with
  | EmptyString => EmptyString
  | String c s' => String (lower_char c) (toLowerCase s')
  end.

Fixpoint trimStart (s : string) : string :=
  match s with
  | EmptyString => EmptyString
  | String c s' => if isWhiteSpace c then trimStart s' else s
  end.

Fixpoint trimEnd (s : string) : string :=
  match s with
  | EmptyString => EmptyString
  | String c s' =>
      match trimEnd s' with
      | EmptyString => if isWhiteSpace c then EmptyString else String c EmptyString
      | t => String c t
      end
  end.

Definition trim (s : string) : string := trimEnd (trimStart s).

(** [s.includes(c)] for a one-character needle. *)
Fixpoint includes (s : string) (c : ascii) : bool :=
  match s with
  | EmptyString => false
  | String d s' => Ascii.eqb d c || includes s' c
  end.

(** [s.split(sep)] for a one-character separator; the result is never
    empty. *)
Fixpoint split (sep : ascii) (s : string) : list string :=
  match s with
  | EmptyString => [EmptyString]
  | String c s' =>
      if Ascii.eqb c sep then EmptyString :: split sep s'
      else match split sep s' with
           | h :: t => String c h :: t
           | [] => [String c EmptyString]
           end
  end.

(** ** Numbers and [parseInt] *)

(** The Number a [parseInt] call returns: [None] is NaN, [Some z] the
    integer read.  The callers only compare such a number with 0, 1, 32, 255
    and 65535, or two numbers both already known to be at most 65535, so the
    rounding of huge values to a double does not change any comparison. *)
Definition number := option Z.

Definition isNaN (x : number) : bool :=
  match x with None => true | Some _ => false end.

(** [x >= k] and [x <= k] with a NaN operand are false. *)
Definition num_ge (x : number) (k : Z) : bool :=
  match x with Some v => k <=? v | None => false end.

Definition num_le (x : number) (k : Z) : bool :=
  match x with Some v => v <=? k | None => false end.

Definition num_le2 (x y : number) : bool :=
  match x, y with Some v, Some w => v <=? w | _, _ => false end.

(** The value of a code unit as a digit of the radix, if it is one. *)
Definition digitValue (radix : Z) (c : ascii) : option Z :=
  let v :=
    if in_range 48 57 c then Some (code c - 48)
    else if in_range 97 122 c then Some (code c - 87)
    else if in_range 65 90 c then Some (code c - 55)
    else None in
  match v with
  | Some d => if d <? radix then Some d else None
  | None => None
  end.

(** The longest prefix of radix digits, read as an integer; NaN when that
    prefix is empty. *)
Fixpoint parseDigits (radix : Z) (seen : bool) (acc : Z) (s : string) : number :=
  match s with
  | EmptyString => if seen then Some acc else None
  | String c s' =>
      match digitValue radix c with
      | Some d => parseDigits radix true (acc * radix + d) s'
      | None => if seen then Some acc else None
      end
  end.

(** [parseInt(s)] without a radix argument (ECMA-262, 19.2.5): leading white
    space is skipped, a sign is read, a [0x]/[0X] prefix selects radix 16,
    and whatever follows the digits is ignored. *)
Definition parseInt (s : string) : number :=
  let S0 := trimStart s in
  let '(sign, S1) :=
    match S0 with
    | String c r =>
        if Ascii.eqb c "-" then (-1, r)
        else if Ascii.eqb c "+" then (1, r)
        else (1, S0)
    | EmptyString => (1, S0)
    end in
  let '(R, S2) :=
    match S1 with
    | String c (String x r) =>
        if Ascii.eqb c "0" && (Ascii.eqb x "x" || Ascii.eqb x "X") then (16, r)
        else (10, S1)
    | _ => (10, S1)
    end in
  option_map (Z.mul sign) (parseDigits R false 0 S2).

(** ** Regular expressions

    The three patterns of [validateIP] use character classes, literals,
    concatenation and bounded repetition, all anchored at both ends, so
    [test] is membership of the whole string in the pattern's language,
    decided here with Brzozowski derivatives. *)

Inductive regex : Type :=
| Void : regex
| Eps : regex
| Class : (ascii -> bool) -> regex
| Seq : regex -> regex -> regex
| Alt : regex -> regex -> regex.

Fixpoint nullable (r : regex) : bool :=
  match r with
  | Void => false
  | Eps => true
  | Class _ => false
  | Seq r1 r2 => nullable r1 && nullable r2
  | Alt r1 r2 => nullable r1 || nullable r2
  end.

Fixpoint deriv (c : ascii) (r : regex) : regex :=
  match r with
  | Void => Void
  | Eps => Void
  | Class p => if p c then Eps else Void
  | Seq r1 r2 =>
      if nullable r1 then Alt (Seq (deriv c r1) r2) (deriv c r2)
      else Seq (deriv c r1) r2
  | Alt r1 r2 => Alt (deriv c r1) (deriv c r2)
  end.

(** [/^r$/.test(s)] *)
Fixpoint test (r : regex) (s : string) : bool :=
  match s with
  | EmptyString => nullable r
  | String c s' => test (deriv c r) s'
  end.

(** [r{n}] *)
Fixpoint power (n : nat) (r : regex) : regex :=
  match n with
  | O => Eps
  | S n' => Seq r (power n' r)
  end.

(** [r{0,n}] *)
Fixpoint upto (n : nat) (r : regex) : regex :=
  match n with
  | O => Eps
  | S n' => Alt Eps (Seq r (upto n' r))
  end.

(** [r{lo,hi}] *)
Definition quant (lo hi : nat) (r : regex) : regex :=
  Seq (power lo r) (upto (hi - lo) r).

Definition lit (c : ascii) : regex := Class (Ascii.eqb c).

(** [\d{1,3}] *)
Definition octetRegex : regex := quant 1 3 (Class is_digit).

(** [/^(\d{1,3}\.){3}\d{1,3}$/] *)
Definition ipv4Regex : regex :=
  Seq (quant 3 3 (Seq octetRegex (lit "."))) octetRegex.

(** [/^(\d{1,3}\.){3}\d{1,3}\/\d{1,2}$/] *)
Definition cidrRegex : regex :=
  Seq ipv4Regex (Seq (lit "/") (quant 1 2 (Class is_digit))).

(** [/^(\d{1,3}\.){3}\d{1,3}-(\d{1,3}\.){3}\d{1,3}$/] *)
Definition rangeRegex : regex :=
  Seq ipv4Regex (Seq (lit "-") ipv4Regex).

(** ** [validateIP] and [validatePort] *)

(** The wildcard test both validators start with:
    [s === '*' || s === 'ANY' || s.toLowerCase() === 'any']. *)
Definition isWildcard (s : string) : bool :=
  (s =? "*")%string || (s =? "ANY")%string || (toLowerCase s =? "any")%string.

(** The octet test of the IPv4 branch:
    [num = parseInt(part); num >= 0 && num <= 255]. *)
Definition octetInRange (part : string) : bool :=
  let num := parseInt part in
  num_ge num 0 && num_le num 255.

(** The body of [validateIP], the function it calls on the operands of a
    CIDR block or a range being its first argument.  A string that matches
    [cidrRegex] has one slash and one that matches [rangeRegex] one dash, so
    the destructuring always finds its two parts. *)
Definition validateIP_body (validateIP : string -> bool) (ip : string) : bool :=
  if isWildcard ip then true
  else if test ipv4Regex ip then
    forallb octetInRange (split "." ip)
  else if test cidrRegex ip then
    match split "/" ip with
    | ipPart :: cidr :: _ =>
        let cidrNum := parseInt cidr in
        validateIP ipPart && num_ge cidrNum 0 && num_le cidrNum 32
    | _ => false
    end
  else if test rangeRegex ip then
    match split "-" ip with
    | start :: end_ :: _ => validateIP start && validateIP end_
    | _ => false
    end
  else false.

(** The recursion of [validateIP] unfolded [fuel] times. *)
Fixpoint validateIP_fuel (fuel : nat) (ip : string) : bool :=
  match fuel with
  | O => false
  | S fuel' => validateIP_body (validateIP_fuel fuel') ip
  end.

(** [validateIP]; [validateIP_unfold] shows that the fuel is enough for the
    equation of the source, [validateIP ip = validateIP_body validateIP ip]. *)
Definition validateIP (ip : string) : bool :=
  validateIP_fuel (S (String.length ip)) ip.

(** The range branch of [validatePort]:
    [[start, end] = port.split('-').map(p => parseInt(p.trim()))]. *)
Definition portRangeOk (port : string) : bool :=
  match map (fun p => parseInt (trim p)) (split "-" port) with
  | start :: end_ :: _ =>
      negb (isNaN start) && negb (isNaN end_) &&
      num_ge start 1 && num_le start 65535 &&
      num_ge end_ 1 && num_le end_ 65535 && num_le2 start end_
  | _ => false
  end.

(** The last branch of [validatePort]: a single port number. *)
Definition portNumberOk (port : string) : bool :=
  let portNum := parseInt port in
  negb (isNaN portNum) && num_ge portNum 1 && num_le portNum 65535.

(** The body of [validatePort], the function it calls on the tokens of a
    comma-separated list being its first argument; [protocol] is the name of
    the protocol. *)
Definition validatePort_body (validatePort : string -> string -> bool)
                             (port protocol : string) : bool :=
  if isWildcard port then true
  else if (protocol =? "ICMP")%string then true
  else if includes port "," then
    forallb (fun p => validatePort (trim p) protocol) (split "," port)
  else if includes port "-" then portRangeOk port
  else portNumberOk port.

Fixpoint validatePort_fuel (fuel : nat) (port protocol : string) : bool :=
  match fuel with
  | O => false
  | S fuel' => validatePort_body (validatePort_fuel fuel') port protocol
  end.

(** [validatePort]; [validatePort_unfold] shows that the fuel is enough for
    the equation of the source. *)
Definition validatePort (port protocol : string) : bool :=
  validatePort_fuel (S (String.length port)) port protocol.

(** ** The data model ([types.ts]) *)

Inductive Action : Type := ALLOW | DENY.

Inductive Protocol : Type := TCP | UDP | ICMP | ALL.

(** The string a tag is at run time. *)
Definition actionName (a : Action) : string :=
  match a with ALLOW => "ALLOW" | DENY => "DENY" end.

Definition protocolName (p : Protocol) : string :=
  match p with TCP => "TCP" | UDP => "UDP" | ICMP => "ICMP" | ALL => "ALL" end.

(** A [Date] is its time value, milliseconds since the epoch; [None] is the
    Invalid Date (time value NaN). *)
Definition Date := option Z.

Record FirewallRule : Type := {
  id : string;
  name : string;
  action : Action;
  protocol : Protocol;
  sourceIp : string;
  sourcePort : string;
  destinationIp : string;
  destinationPort : string;
  priority : Z;
  enabled : bool;
  description : option string;
  createdAt : Date;
  updatedAt : Date
}.

Module Form.
Record RuleFormData : Type := {
  name : string;
  action : Action;
  protocol : Protocol;
  sourceIp : string;
  sourcePort : string;
  destinationIp : string;
  destinationPort : string;
  description : string
}.
End Form.

Record ValidationError : Type := {
  field : string;
  message : string
}.

(** ** [validateRule] *)

(** Truthiness of a string: every string but the empty one. *)
Definition nonEmpty (s : string) : bool := negb (s =? "")%string.

(** [errors.push(e)] *)
Definition push {A : Type} (errors : list A) (e : A) : list A := errors ++ [e].

Definition validateRule (rule : Form.RuleFormData) : list ValidationError :=
  let errors : list ValidationError := [] in
  let errors :=
    if negb (nonEmpty (trim (Form.name rule))) then
      push errors {| field := "name"; message := "Rule name is required" |}
    else errors in
  let errors :=
    if negb (nonEmpty (trim (Form.sourceIp rule))) then
      push errors {| field := "sourceIp"; message := "Source IP is required" |}
    else if negb (validateIP (Form.sourceIp rule)) then
      push errors {| field := "sourceIp"; message := "Invalid IP address format" |}
    else errors in
  let errors :=
    if negb (nonEmpty (trim (Form.destinationIp rule))) then
      push errors {| field := "destinationIp";
                     message := "Destination IP is required" |}
    else if negb (validateIP (Form.destinationIp rule)) then
      push errors {| field := "destinationIp";
                     message := "Invalid IP address format" |}
    else errors in
  let errors :=
    if nonEmpty (Form.sourcePort rule)
       && negb (validatePort (Form.sourcePort rule)
                             (protocolName (Form.protocol rule))) then
      push errors {| field := "sourcePort"; message := "Invalid port format" |}
    else errors in
  let errors :=
    if nonEmpty (Form.destinationPort rule)
       && negb (validatePort (Form.destinationPort rule)
                             (protocolName (Form.protocol rule))) then
      push errors {| field := "destinationPort"; message := "Invalid port format" |}
    else errors in
  errors.

(** ** [Array.prototype.sort] with a comparator

    The platform's sort is stable and, for a consistent comparator, leaves
    the elements in non-decreasing order; as that fixes the result, it is
    modelled by a stable insertion sort. *)

Section Sort.
Context {A : Type}.
Variable cmp : A -> A -> Z.

Fixpoint insert (x : A) (l : list A) : list A :=
  match l with
  | [] => [x]
  | y :: l' => if cmp x y <=? 0 then x :: l else y :: insert x l'
  end.

Definition sort (l : list A) : list A := fold_right insert [] l.
End Sort.

(** [l.forEach((x, index) => ...)] threading the variable the callback
    assigns to. *)
Fixpoint forEach {A S : Type} (f : S -> A -> nat -> S) (l : list A)
                 (index : nat) (s : S) : S :=
  match l with
  | [] => s
  | x :: l' => forEach f l' (Datatypes.S index) (f s x index)
  end.

(** A non-negative integer in a template literal. *)
Definition showNat (n : nat) : string := NilEmpty.string_of_uint (Nat.to_uint n).

(** The line feed of the ["\n"] escapes. *)
Definition nl : string := String (ascii_of_nat 10) EmptyString.

(** ** Time values and [toISOString] *)

(** Time values and their calendar fields (ECMA-262, 21.4.1). *)
Definition msPerDay : Z := 86400000.
Definition Day (t : Z) : Z := t / msPerDay.
Definition TimeWithinDay (t : Z) : Z := t mod msPerDay.

(** Year of the era (a 400-year cycle that starts on a 1 March), month
    and day of the month of a day of the era. *)
Definition civilOfDoe (doe : Z) : Z * Z * Z :=
  let yoe := (doe - doe / 1460 + doe / 36524 - doe / 146096) / 365 in
  let doy := doe - (365 * yoe + yoe / 4 - yoe / 100) in
  let mp := (5 * doy + 2) / 153 in
  let d := doy - (153 * mp + 2) / 5 + 1 in
  let m := if mp <? 10 then mp + 3 else mp - 9 in
  (yoe, m, d).

Definition doeOfCivil (yoe m d : Z) : Z :=
  let doy := (153 * (if 2 <? m then m - 3 else m + 9) + 2) / 5 + d - 1 in
  yoe * 365 + yoe / 4 - yoe / 100 + doy.

(** [YearFromTime], [MonthFromTime] + 1 and [DateFromTime] of a day number. *)
Definition civilFromDays (z : Z) : Z * Z * Z :=
  let z' := z + 719468 in
  let era := z' / 146097 in
  let doe := z' mod 146097 in
  let '(yoe, m, d) := civilOfDoe doe in
  (yoe + era * 400 + (if m <=? 2 then 1 else 0), m, d).

(** [MakeDay(y, m - 1, d)] *)
Definition daysFromCivil (y m d : Z) : Z :=
  let y' := y - (if m <=? 2 then 1 else 0) in
  let era := y' / 400 in
  let yoe := y' mod 400 in
  era * 146097 + doeOfCivil yoe m d - 719468.

(** The check that [doeOfCivil] undoes [civilOfDoe] on a day of the era,
    and that the fields are in their ranges. *)
Definition doeOk (doe : Z) : bool :=
  let '(yoe, m, d) := civilOfDoe doe in
  (doeOfCivil yoe m d =? doe) && (0 <=? yoe) && (yoe <? 400) &&
  (1 <=? m) && (m <=? 12) && (1 <=? d) && (d <=? 31).

(** [f] holds of every integer from 0 up to [n], [n] excluded. *)
Definition allBelow (f : Z -> bool) (n : N) : bool :=
  snd (N.iter n (fun p => (fst p + 1, snd p && f (fst p))) (0, true)).

(** [MakeTime(h, mi, s, ms)] *)
Definition MakeTime (h mi s ms : Z) : Z :=
  h * 3600000 + mi * 60000 + s * 1000 + ms.

(** [TimeClip]: a time value farther than 8.64e15 ms from the epoch is
    NaN. *)
Definition TimeClip (t : Z) : Date :=
  if Z.abs t <=? 8640000000000000 then Some t else None.

Definition digitChar (d : Z) : ascii := ascii_of_N (Z.to_N (48 + d)).

(** The last [width] decimal digits of [n], zero-padded. *)
Fixpoint pad (width : nat) (n : Z) : string :=
  match width with
  | O => EmptyString
  | S w => pad w (n / 10) ++ String (digitChar (n mod 10)) EmptyString
  end.

(** The year of an ISO string: four digits for 0..9999, else a sign and six
    digits. *)
Definition yearString (y : Z) : string :=
  if (0 <=? y) && (y <=? 9999) then pad 4 y
  else (if 0 <=? y then "+" else "-") ++ pad 6 (Z.abs y).

(** The text [toISOString] gives for the time value [t]:
    [YYYY-MM-DDTHH:mm:ss.sssZ]. *)
Definition isoString (t : Z) : string :=
  let '(y, m, d) := civilFromDays (Day t) in
  let tm := TimeWithinDay t in
  yearString y ++ "-" ++ pad 2 m ++ "-" ++ pad 2 d ++ "T" ++
  pad 2 (tm / 3600000) ++ ":" ++ pad 2 (tm / 60000 mod 60) ++ ":" ++
  pad 2 (tm / 1000 mod 60) ++ "." ++ pad 3 (tm mod 1000) ++ "Z".

(** ** [exportToIptables] *)

(** The fixed head of the script; [now] is the time value of [new Date()]
    and [count] is [enabledRules.length]. *)
Definition preamble (now : Z) (count : nat) : string :=
  let output := "#!/bin/bash" ++ nl in
  let output := output ++ "# Generated Firewall Rules" ++ nl in
  let output := output ++ "# Generated on: " ++ isoString now ++ nl in
  let output := output ++ "# Total rules: " ++ showNat count ++ nl ++ nl in
  let output := output ++ "# Flush existing rules" ++ nl in
  let output := output ++ "iptables -F" ++ nl in
  let output := output ++ "iptables -X" ++ nl in
  let output := output ++ "iptables -t nat -F" ++ nl in
  let output := output ++ "iptables -t nat -X" ++ nl ++ nl in
  let output := output ++ "# Set default policies" ++ nl in
  let output := output ++ "iptables -P INPUT DROP" ++ nl in
  let output := output ++ "iptables -P FORWARD DROP" ++ nl in
  let output := output ++ "iptables -P OUTPUT ACCEPT" ++ nl ++ nl in
  let output := output ++ "# Allow loopback traffic" ++ nl in
  let output := output ++ "iptables -A INPUT -i lo -j ACCEPT" ++ nl in
  let output := output ++ "iptables -A OUTPUT -o lo -j ACCEPT" ++ nl ++ nl in
  let output := output ++ "# Allow established and related connections" ++ nl in
  let output :=
    output ++ "iptables -A INPUT -m state --state ESTABLISHED,RELATED -j ACCEPT"
           ++ nl ++ nl in
  output.

Definition isALL (p : Protocol) : bool :=
  match p with ALL => true | _ => false end.

Definition isICMP (p : Protocol) : bool :=
  match p with ICMP => true | _ => false end.

(** [s !== '*' && s !== 'ANY'] *)
Definition notStarOrANY (s : string) : bool :=
  negb (s =? "*")%string && negb (s =? "ANY")%string.

(** The directive line of one rule, the [command] of the loop body. *)
Definition ruleCommand (rule : FirewallRule) : string :=
  let command := "iptables -A INPUT" in
  let command :=
    if negb (isALL (protocol rule)) then
      command ++ " -p " ++ toLowerCase (protocolName (protocol rule))
    else command in
  let command :=
    if notStarOrANY (sourceIp rule) then command ++ " -s " ++ sourceIp rule
    else command in
  let command :=
    if notStarOrANY (destinationIp rule) then
      command ++ " -d " ++ destinationIp rule
    else command in
  let command :=
    if negb (isICMP (protocol rule)) && negb (isALL (protocol rule)) then
      let command :=
        if nonEmpty (sourcePort rule) && notStarOrANY (sourcePort rule) then
          command ++ " --sport " ++ sourcePort rule
        else command in
      let command :=
        if nonEmpty (destinationPort rule) && notStarOrANY (destinationPort rule)
        then command ++ " --dport " ++ destinationPort rule
        else command in
      command
    else command in
  command ++ match action rule with ALLOW => " -j ACCEPT" | DENY => " -j DROP" end.

(** What one turn of the loop appends to [output]. *)
Definition ruleBlock (rule : FirewallRule) (index : nat) : string :=
  let output := "# Rule " ++ showNat (index + 1) ++ ": " ++ name rule ++ nl in
  let output :=
    match description rule with
    | Some d => if nonEmpty d then output ++ "# Description: " ++ d ++ nl
                else output
    | None => output
    end in
  output ++ ruleCommand rule ++ nl ++ nl.

Definition trailer : string :=
  "# Log dropped packets (optional)" ++ nl ++
  "# iptables -A INPUT -j LOG --log-prefix " ++
  String (ascii_of_nat 34) "DROPPED: " ++ String (ascii_of_nat 34) "" ++ nl ++ nl.

(** [rules.filter(rule => rule.enabled).sort((a, b) => a.priority - b.priority)] *)
Definition enabledRules (rules : list FirewallRule) : list FirewallRule :=
  sort (fun a b => priority a - priority b) (filter enabled rules).

Definition exportToIptables (now : Z) (rules : list FirewallRule) : string :=
  let enabledRules := enabledRules rules in
  let output := preamble now (List.length enabledRules) in
  let output :=
    forEach (fun output rule index => output ++ ruleBlock rule index)
            enabledRules 0%nat output in
  let output := output ++ trailer in
  output.

(** ** Exceptions

    [Throws] is an exception leaving the function; the one [try] block of
    the program catches every kind the same way, so the kinds are not told
    apart. *)

Inductive result (A : Type) : Type :=
| Return : A -> result A
| Throws : result A.

Arguments Return {A} _.
Arguments Throws {A}.

Definition bind {A B : Type} (m : result A) (k : A -> result B) : result B :=
  match m with
  | Return a => k a
  | Throws => Throws
  end.

Notation "x <- m ;; k" := (bind m (fun x => k))
  (at level 61, m at next level, right associativity).

Fixpoint mapM {A B : Type} (f : A -> result B) (l : list A) : result (list B) :=
  match l with
  | [] => Return []
  | x :: l' => y <- f x ;; ys <- mapM f l' ;; Return (y :: ys)
  end.

Fixpoint filterM {A : Type} (f : A -> result bool) (l : list A) : result (list A) :=
  match l with
  | [] => Return []
  | x :: l' =>
      keep <- f x ;; rest <- filterM f l' ;;
      Return (if keep then x :: rest else rest)
  end.

(** ** JSON values and objects *)

(** What [JSON.parse] returns.  A number is an integer here; fractions and
    exponents are outside the model. *)
#[warnings="-register-all"]
Inductive json : Type :=
| JNull : json
| JBool : bool -> json
| JNum : Z -> json
| JStr : string -> json
| JArr : list json -> json
| JObj : list (string * json) -> json.

(** A property value of a rule object: a JSON value or a [Date]. *)
Inductive jsval : Type :=
| J : json -> jsval
| D : Date -> jsval.

(** An object: its properties in insertion order. *)
Definition object := list (string * jsval).

(** [obj[k]]; [None] is [undefined]. *)
Fixpoint lookup {V : Type} (k : string) (props : list (string * V)) : option V :=
  match props with
  | [] => None
  | (k', v) :: rest => if (k' =? k)%string then Some v else lookup k rest
  end.

(** [{...obj, k: v}]: an existing key keeps its place, a new one goes last. *)
Fixpoint setProp {V : Type} (k : string) (v : V) (props : list (string * V))
  : list (string * V) :=
  match props with
  | [] => [(k, v)]
  | (k', v') :: rest =>
      if (k' =? k)%string then (k, v) :: rest else (k', v') :: setProp k v rest
  end.

(** [v.k] for the keys the program reads ([rules], [id], [name], [action],
    [createdAt], [updatedAt]): a TypeError on [null], [undefined] on
    every value that is not an object. *)
Definition getProp (v : json) (k : string) : result (option json) :=
  match v with
  | JNull => Throws
  | JObj props => Return (lookup k props)
  | _ => Return None
  end.

(** Truthiness; [None] is [undefined]. *)
Definition truthy (v : option json) : bool :=
  match v with
  | None => false
  | Some JNull => false
  | Some (JBool b) => b
  | Some (JNum n) => negb (n =? 0)
  | Some (JStr s) => nonEmpty s
  | Some (JArr _) => true
  | Some (JObj _) => true
  end.

Definition showZ (n : Z) : string := NilEmpty.string_of_int (Z.to_int n).

Fixpoint join (sep : string) (l : list string) : string :=
  match l with
  | [] => EmptyString
  | [x] => x
  | x :: l' => x ++ sep ++ join sep l'
  end.

(** [String(v)] *)
Fixpoint toString (v : json) : string :=
  match v with
  | JNull => "null"
  | JBool true => "true"
  | JBool false => "false"
  | JNum n => showZ n
  | JStr s => s
  | JArr l =>
      join "," (map (fun x => match x with JNull => EmptyString | _ => toString x end) l)
  | JObj _ => "[object Object]"
  end.

(** ** Reading a date *)

Definition digitOf (c : ascii) : option Z :=
  if is_digit c then Some (code c - 48) else None.

Definition obind {A B : Type} (m : option A) (k : A -> option B) : option B :=
  match m with
  | Some a => k a
  | None => None
  end.

Notation "x <-? m ;; k" := (obind m (fun x => k))
  (at level 61, m at next level, right associativity).

(** Exactly [n] decimal digits, then the rest. *)
Fixpoint readDigits (n : nat) (acc : Z) (s : string) : option (Z * string) :=
  match n with
  | O => Some (acc, s)
  | S n' =>
      match s with
      | EmptyString => None
      | String c s' => d <-? digitOf c ;; readDigits n' (acc * 10 + d) s'
      end
  end.

Definition expect (c : ascii) (s : string) : option string :=
  match s with
  | String c' s' => if Ascii.eqb c' c then Some s' else None
  | EmptyString => None
  end.

(** A four-digit year, or a sign and six digits, [-000000] excluded. *)
Definition readYear (s : string) : option (Z * string) :=
  match s with
  | String c s' =>
      if Ascii.eqb c "+" then readDigits 6 0 s'
      else if Ascii.eqb c "-" then
        p <-? readDigits 6 0 s' ;;
        if fst p =? 0 then None else Some (- fst p, snd p)
      else readDigits 4 0 s
  | EmptyString => None
  end.

(** [Date.parse] on the form [toISOString] writes,
    [YYYY-MM-DDTHH:mm:ss.sssZ] with a four-digit or an expanded year.  A
    field out of its range (month 1..12, day 1..31, hour below 24, minute
    and second below 60) makes the text unparsable; a day past the end of its
    month counts on into the next month.  The shorter forms of the
    date-time format and what engines accept beyond it are not modelled and
    read as NaN. *)
Definition Date_parse (s : string) : Date :=
  p <-? readYear s ;; let '(y, s) := p in
  s <-? expect "-" s ;;
  p <-? readDigits 2 0 s ;; let '(mo, s) := p in
  s <-? expect "-" s ;;
  p <-? readDigits 2 0 s ;; let '(d, s) := p in
  s <-? expect "T" s ;;
  p <-? readDigits 2 0 s ;; let '(h, s) := p in
  s <-? expect ":" s ;;
  p <-? readDigits 2 0 s ;; let '(mi, s) := p in
  s <-? expect ":" s ;;
  p <-? readDigits 2 0 s ;; let '(sec, s) := p in
  s <-? expect "." s ;;
  p <-? readDigits 3 0 s ;; let '(ms, s) := p in
  s <-? expect "Z" s ;;
  match s with
  | EmptyString =>
      if (1 <=? mo) && (mo <=? 12) && (1 <=? d) && (d <=? 31) &&
         (h <=? 23) && (mi <=? 59) && (sec <=? 59)
      then TimeClip (daysFromCivil y mo d * msPerDay + MakeTime h mi sec ms)
      else None
  | _ => None
  end.

(** [new Date(v)] for a value out of a parsed document ([None] being
    [undefined]): a string is parsed, a number is the time value, [null] and
    booleans are converted to numbers, arrays and objects to strings. *)
Definition newDate (v : option json) : Date :=
  match v with
  | None => None
  | Some JNull => TimeClip 0
  | Some (JBool b) => TimeClip (if b then 1 else 0)
  | Some (JNum n) => TimeClip n
  | Some (JStr s) => Date_parse s
  | Some w => Date_parse (toString w)
  end.

(** [d.toISOString()]: a RangeError on the Invalid Date. *)
Definition toISOString (d : Date) : result string :=
  match d with
  | Some t => Return (isoString t)
  | None => Throws
  end.

(** ** [exportToJSON] *)

(** The text of an exchange document, up to what [JSON.parse] makes of it:
    [JSON.stringify] and [JSON.parse] are the platform's, and the text that
    [JSON.stringify] writes for a value is identified with that value;
    [NotJSON] is a text on which [JSON.parse] raises a SyntaxError. *)
Inductive document : Type :=
| Doc : json -> document
| NotJSON : string -> document.

Definition JSON_parse (content : document) : result json :=
  match content with
  | Doc v => Return v
  | NotJSON _ => Throws
  end.

(** How [JSON.stringify] serialises a property value: a [Date] through its
    [toJSON], the ISO string, or [null] for the Invalid Date. *)
Definition toJSON (v : jsval) : json :=
  match v with
  | J j => j
  | D (Some t) => JStr (isoString t)
  | D None => JNull
  end.

Definition JSON_stringify (props : object) : document :=
  Doc (JObj (map (fun kv => (fst kv, toJSON (snd kv))) props)).

(** A rule as the object it is at run time; an absent [description] is an
    absent property. *)
Definition ruleObject (rule : FirewallRule) : object :=
  ([ ("id", J (JStr (id rule)));
    ("name", J (JStr (name rule)));
    ("action", J (JStr (actionName (action rule))));
    ("protocol", J (JStr (protocolName (protocol rule))));
    ("sourceIp", J (JStr (sourceIp rule)));
    ("sourcePort", J (JStr (sourcePort rule)));
    ("destinationIp", J (JStr (destinationIp rule)));
    ("destinationPort", J (JStr (destinationPort rule)));
    ("priority", J (JNum (priority rule)));
    ("enabled", J (JBool (enabled rule))) ]
  ++ match description rule with
     | Some d => [("description", J (JStr d))]
     | None => []
     end
  ++ [ ("createdAt", D (createdAt rule));
       ("updatedAt", D (updatedAt rule)) ])%list.

(** The callback of [rules.map] in [exportToJSON]:
    [{...rule, createdAt: ..., updatedAt: ...}] *)
Definition exportRecord (rule : FirewallRule) : result json :=
  c <- toISOString (createdAt rule) ;;
  u <- toISOString (updatedAt rule) ;;
  Return (JObj (map (fun kv => (fst kv, toJSON (snd kv)))
                    (setProp "updatedAt" (J (JStr u))
                       (setProp "createdAt" (J (JStr c)) (ruleObject rule))))).

Definition exportToJSON (now : Z) (rules : list FirewallRule) : result document :=
  records <- mapM exportRecord rules ;;
  let exportData : object :=
    [ ("version", J (JStr "1.0"));
      ("exportDate", J (JStr (isoString now)));
      ("totalRules", J (JNum (Z.of_nat (List.length rules))));
      ("rules", J (JArr records)) ] in
  Return (JSON_stringify exportData).

(** ** [handleImport] *)

(** [parsed.rules || parsed] *)
Definition importedRules (parsed : json) : result (option json) :=
  rules <- getProp parsed "rules" ;;
  Return (if truthy rules then rules else Some parsed).

(** The callback of the filter: [rule.id && rule.name && rule.action] *)
Definition hasRequired (rule : json) : result bool :=
  i <- getProp rule "id" ;;
  if truthy i then
    n <- getProp rule "name" ;;
    if truthy n then
      a <- getProp rule "action" ;; Return (truthy a)
    else Return false
  else Return false.

(** [{...rule}] of a parsed record. Only an object passes the filter
    ([hasRequired_object]), so the spread of the other values is not
    described. *)
Definition spread (rule : json) : object :=
  match rule with
  | JObj props => map (fun kv => (fst kv, J (snd kv))) props
  | _ => []
  end.

(** The callback of the map; [newId] is what [generateId()] returns. *)
Definition importRecord (newId : string) (rule : json) : result object :=
  c <- getProp rule "createdAt" ;;
  u <- getProp rule "updatedAt" ;;
  Return (setProp "updatedAt" (D (newDate u))
            (setProp "createdAt" (D (newDate c))
               (setProp "id" (J (JStr newId)) (spread rule)))).

(** The map over the accepted records; the [k]-th call of [generateId]
    during the import returns [ids k]. *)
Fixpoint importRecords (ids : nat -> string) (k : nat) (l : list json)
  : result (list object) :=
  match l with
  | [] => Return []
  | rule :: l' =>
      r <- importRecord (ids k) rule ;;
      rs <- importRecords ids (S k) l' ;;
      Return (r :: rs)
  end.

(** The body of the [try] block up to [validRules]. *)
Definition decodeRules (ids : nat -> string) (content : document)
  : result (list object) :=
  parsed <- JSON_parse content ;;
  imported <- importedRules parsed ;;
  match imported with
  | Some (JArr records) =>
      valid <- filterM hasRequired records ;;
      importRecords ids 0 valid
  | _ => Throws
  end.

(** The [onload] handler of [handleImport]: the new value of the [rules]
    state and the text of the alert. *)
Definition handleImport (ids : nat -> string) (content : document)
                        (prev : list object) : list object * string :=
  match decodeRules ids content with
  | Return validRules =>
      if (List.length validRules =? 0)%nat then
        (prev, "No valid rules found in the imported file")
      else
        ((prev ++ validRules)%list,
         "Successfully imported " ++ showNat (List.length validRules) ++ " rule(s)")
  | Throws =>
      (prev, "Invalid JSON file format. Please check your file and try again.")
  end.

(** ** The grammars of the specification

    The address and port grammars as the specification words them, to be
    compared with [validateIP] and [validatePort]. *)

Fixpoint allDigits (s : string) : bool :=
  match s with
  | EmptyString => true
  | String c s' => is_digit c && allDigits s'
  end.

(** The number a string of decimal digits denotes. *)
Fixpoint decimalValue (acc : Z) (s : string) : Z :=
  match s with
  | EmptyString => acc
  | String c s' => decimalValue (acc * 10 + (code c - 48)) s'
  end.

(** A decimal numeral of [lo] to [hi] digits. *)
Definition numeral (lo hi : nat) (s : string) : Prop :=
  allDigits s = true /\ (lo <= String.length s <= hi)%nat.

(** The wildcard tokens: the asterisk, and [ANY] in any mix of cases. *)
Definition wildcardTokens : list string :=
  ["*"; "ANY"; "ANy"; "AnY"; "Any"; "aNY"; "aNy"; "anY"; "any"].

Definition spec_wildcard (s : string) : Prop := In s wildcardTokens.

(** A decimal octet: one to three digits whose value is in [0,255]. *)
Definition spec_octet (s : string) : Prop :=
  numeral 1 3 s /\ 0 <= decimalValue 0 s <= 255.

(** A single IPv4 address: four octets separated by dots, nothing before
    or after. *)
Definition spec_ipv4 (s : string) : Prop :=
  exists o1 o2 o3 o4,
    s = o1 ++ "." ++ o2 ++ "." ++ o3 ++ "." ++ o4 /\
    spec_octet o1 /\ spec_octet o2 /\ spec_octet o3 /\ spec_octet o4.

(** A prefix length: one or two digits whose value is in [0,32]. *)
Definition spec_prefix (s : string) : Prop :=
  numeral 1 2 s /\ 0 <= decimalValue 0 s <= 32.

Definition spec_cidr (s : string) : Prop :=
  exists a p, s = a ++ "/" ++ p /\ spec_ipv4 a /\ spec_prefix p.

Definition spec_range (s : string) : Prop :=
  exists a b, s = a ++ "-" ++ b /\ spec_ipv4 a /\ spec_ipv4 b.

Definition spec_isValidAddress (s : string) : Prop :=
  spec_wildcard s \/ spec_ipv4 s \/ spec_cidr s \/ spec_range s.

Definition spec_wildcardb (s : string) : bool :=
  existsb (String.eqb s) wildcardTokens.

(** A port number: a non-empty string of digits (leading zeros allowed)
    whose value is in [1,65535]. *)
Definition spec_portNumber (s : string) : option Z :=
  if allDigits s && nonEmpty s then
    let v := decimalValue 0 s in
    if (1 <=? v) && (v <=? 65535) then Some v else None
  else None.

(** Rules 1, 4 and 5 of the port grammar, on a spec without a comma. *)
Definition spec_portToken (s : string) : bool :=
  if spec_wildcardb s then true
  else match split "-" s with
       | [a; b] =>
           match spec_portNumber a, spec_portNumber b with
           | Some x, Some y => x <=? y
           | _, _ => false
           end
       | [a] => match spec_portNumber a with Some _ => true | None => false end
       | _ => false
       end.

(** The port grammar, rules 1 to 5 in their order. *)
Definition spec_isValidPort (s protocol : string) : bool :=
  if spec_wildcardb s then true
  else if (protocol =? "ICMP")%string then true
  else if includes s "," then
    forallb (fun t => spec_portToken (trim t)) (split "," s)
  else spec_portToken s.

(** The language of a pattern. *)
Fixpoint lang (r : regex) (s : string) : Prop :=
  match r with
  | Void => False
  | Eps => s = EmptyString
  | Class p => exists c, s = String c EmptyString /\ p c = true
  | Seq r1 r2 => exists s1 s2, s = s1 ++ s2 /\ lang r1 s1 /\ lang r2 s2
  | Alt r1 r2 => lang r1 s \/ lang r2 s
  end.

(** What [ipv4Regex] matches: four groups of one to three digits. *)
Definition dottedQuad (s : string) : Prop :=
  exists o1 o2 o3 o4,
    s = o1 ++ "." ++ o2 ++ "." ++ o3 ++ "." ++ o4 /\
    numeral 1 3 o1 /\ numeral 1 3 o2 /\ numeral 1 3 o3 /\ numeral 1 3 o4.

(** ** The checks of [validateRule], one by one *)

(** A required field is missing: nothing is left of it after trimming. *)
Definition blank (s : string) : bool := negb (nonEmpty (trim s)).

(** A port field fails: it is filled in and [validatePort] rejects it. *)
Definition badPort (port : string) (p : Protocol) : bool :=
  nonEmpty port && negb (validatePort port (protocolName p)).

(** A form that passes every check. *)
Definition validForm (rule : Form.RuleFormData) : Prop :=
  blank (Form.name rule) = false /\
  validateIP (Form.sourceIp rule) = true /\
  validateIP (Form.destinationIp rule) = true /\
  badPort (Form.sourcePort rule) (Form.protocol rule) = false /\
  badPort (Form.destinationPort rule) (Form.protocol rule) = false.

(** ** The parts of a compiled script *)

(** The comment-and-directive blocks of the rules of [l], numbered from
    [index + 1]. *)
Fixpoint blocks (l : list FirewallRule) (index : nat) : string :=
  match l with
  | [] => EmptyString
  | rule :: l' => ruleBlock rule index ++ blocks l' (S index)
  end.

(** Lines of text, each closed by a line feed. *)
Fixpoint unlines (l : list string) : string :=
  match l with
  | [] => EmptyString
  | line :: l' => line ++ nl ++ unlines l'
  end.

(** The script of a rule set none of whose rules is enabled. *)
Definition emptyScript (now : Z) : string :=
  unlines
    [ "#!/bin/bash";
      "# Generated Firewall Rules";
      "# Generated on: " ++ isoString now;
      "# Total rules: 0";
      "";
      "# Flush existing rules";
      "iptables -F";
      "iptables -X";
      "iptables -t nat -F";
      "iptables -t nat -X";
      "";
      "# Set default policies";
      "iptables -P INPUT DROP";
      "iptables -P FORWARD DROP";
      "iptables -P OUTPUT ACCEPT";
      "";
      "# Allow loopback traffic";
      "iptables -A INPUT -i lo -j ACCEPT";
      "iptables -A OUTPUT -o lo -j ACCEPT";
      "";
      "# Allow established and related connections";
      "iptables -A INPUT -m state --state ESTABLISHED,RELATED -j ACCEPT";
      "";
      "# Log dropped packets (optional)";
      "# iptables -A INPUT -j LOG --log-prefix "
        ++ String (ascii_of_nat 34) "DROPPED: " ++ String (ascii_of_nat 34) "";
      "" ].

(** ** Notions the codec properties are stated with *)

(** A [Date] that holds a time value. *)
Definition validDate (d : Date) : bool :=
  match d with
  | Some t => Z.abs t <=? 8640000000000000
  | None => false
  end.

(** A rule as the application makes them: an identifier and a name that are
    not empty, and two valid timestamps. *)
Definition wellFormed (rule : FirewallRule) : bool :=
  nonEmpty (id rule) && nonEmpty (name rule) &&
  validDate (createdAt rule) && validDate (updatedAt rule).

(** [rule] under another identifier. *)
Definition withId (newId : string) (rule : FirewallRule) : FirewallRule :=
  {| id := newId;
     name := name rule;
     action := action rule;
     protocol := protocol rule;
     sourceIp := sourceIp rule;
     sourcePort := sourcePort rule;
     destinationIp := destinationIp rule;
     destinationPort := destinationPort rule;
     priority := priority rule;
     enabled := enabled rule;
     description := description rule;
     createdAt := createdAt rule;
     updatedAt := updatedAt rule |}.

(** The rules of [rules] with the identifiers [ids k], [ids (k + 1)], ... *)
Fixpoint withIds (ids : nat -> string) (k : nat) (rules : list FirewallRule)
  : list FirewallRule :=
  match rules with
  | [] => []
  | rule :: rules' => withId (ids k) rule :: withIds ids (S k) rules'
  end.

(** Two rules that agree on every field but the identifier. *)
Definition sameButId (r r' : FirewallRule) : Prop :=
  name r' = name r /\ action r' = action r /\ protocol r' = protocol r /\
  sourceIp r' = sourceIp r /\ destinationIp r' = destinationIp r /\
  sourcePort r' = sourcePort r /\ destinationPort r' = destinationPort r /\
  priority r' = priority r /\ enabled r' = enabled r /\
  description r' = description r /\
  createdAt r' = createdAt r /\ updatedAt r' = updatedAt r.

Definition isObject (v : json) : bool :=
  match v with JObj _ => true | _ => false end.

Definition isNull (v : json) : bool :=
  match v with JNull => true | _ => false end.

Definition isArray (v : option json) : bool :=
  match v with Some (JArr _) => true | _ => false end.

(** A record that has its [id], [name] and [action]: each is present and
    truthy. *)
Definition hasIdNameAction (rule : json) : bool :=
  match rule with
  | JObj props =>
      truthy (lookup "id" props) && truthy (lookup "name" props) &&
      truthy (lookup "action" props)
  | _ => false
  end.

(** The three alerts of [handleImport]. *)
Definition alertInvalid : string :=
  "Invalid JSON file format. Please check your file and try again.".

Definition alertNoValidRules : string :=
  "No valid rules found in the imported file".

Definition alertImported (count : nat) : string :=
  "Successfully imported " ++ showNat count ++ " rule(s)".

(** The record [JSON.stringify] writes for a rule whose timestamps are
    valid. *)
Definition recordOf (rule : FirewallRule) : json :=
  JObj (map (fun kv => (fst kv, toJSON (snd kv))) (ruleObject rule)).

(** ** Example documents *)

(** An identifier supply: [id0], [id1], ... *)
Definition exampleIds (k : nat) : string := "id" ++ showNat k.

Definition completeRecord : json :=
  JObj [ ("id", JStr "lq3x9k2a1"); ("name", JStr "Allow SSH Access");
         ("action", JStr "ALLOW"); ("protocol", JStr "TCP");
         ("sourceIp", JStr "*"); ("sourcePort", JStr "*");
         ("destinationIp", JStr "*"); ("destinationPort", JStr "22");
         ("priority", JNum 1); ("enabled", JBool true);
         ("createdAt", JStr "2024-01-15T10:30:00.000Z");
         ("updatedAt", JStr "2024-01-15T10:30:00.000Z") ].

Definition recordWithoutAction : json :=
  JObj [ ("id", JStr "lq3x9k2b7"); ("name", JStr "Allow Web Traffic");
         ("protocol", JStr "TCP");
         ("sourceIp", JStr "*"); ("sourcePort", JStr "*");
         ("destinationIp", JStr "*"); ("destinationPort", JStr "80,443");
         ("priority", JNum 2); ("enabled", JBool true);
         ("createdAt", JStr "2024-01-15T11:00:00.000Z");
         ("updatedAt", JStr "2024-01-15T11:00:00.000Z") ].

Definition recordWithBadDates : json :=
  JObj [ ("id", JStr "lq3x9k2c4"); ("name", JStr "Block P2P Traffic");
         ("action", JStr "DENY"); ("protocol", JStr "TCP");
         ("sourceIp", JStr "*"); ("sourcePort", JStr "*");
         ("destinationIp", JStr "*"); ("destinationPort", JStr "6881-6889");
         ("priority", JNum 5); ("enabled", JBool false);
         ("createdAt", JStr "not a date");
         ("updatedAt", JStr "not a date") ].

(** A wrapped document of [records]. *)
Definition wrapped (records : list json) : document :=
  Doc (JObj [ ("version", JStr "1.0");
              ("exportDate", JStr "2024-01-20T08:00:00.000Z");
              ("totalRules", JNum (Z.of_nat (List.length records)));
              ("rules", JArr records) ]).

(** The rule [recordWithBadDates] is imported as. *)
Definition ruleWithBadDates : FirewallRule :=
  {| id := exampleIds 0; name := "Block P2P Traffic"; action := DENY;
     protocol := TCP; sourceIp := "*"; sourcePort := "*";
     destinationIp := "*"; destinationPort := "6881-6889";
     priority := 5; enabled := false; description := None;
     createdAt := None; updatedAt := None |}.

(** Two rules of the sample data. *)
Definition sampleRules : list FirewallRule :=
  [ {| id := "lq3x9k2a1"; name := "Allow SSH Access"; action := ALLOW;
       protocol := TCP; sourceIp := "*"; sourcePort := "*";
       destinationIp := "*"; destinationPort := "22";
       priority := 1; enabled := true;
       description := Some "Allow SSH connections from any source";
       createdAt := Some 1705314600000; updatedAt := Some 1705314600000 |};
    {| id := "lq3x9k2d9"; name := "Block Suspicious Network"; action := DENY;
       protocol := ALL; sourceIp := "192.168.100.0/24"; sourcePort := "*";
       destinationIp := "*"; destinationPort := "*";
       priority := 3; enabled := false; description := None;
       createdAt := Some 1705396500000; updatedAt := Some 1705482000123 |} ].

(** * The application around the engine

    The handlers of [App.tsx] that keep the rule list, the form logic of
    [RuleBuilder.tsx], and the figures of [Dashboard.tsx].  A React state
    variable is the argument of the handler and its new value the result. *)

(** ** The rule list ([App.tsx]) *)

(** [l.findIndex(p)]; [None] is -1. *)
Fixpoint findIndex {A : Type} (p : A -> bool) (l : list A) : option nat :=
  match l with
  | [] => None
  | x :: l' => if p x then Some O else option_map S (findIndex p l')
  end.

(** [l[i] = x] on a copy of [l], for an index of [l] (the only indices the
    program writes at are those [findIndex] returns). *)
Fixpoint setAt {A : Type} (i : nat) (x : A) (l : list A) : list A :=
  match l, i with
  | [], _ => []
  | _ :: l', O => x :: l'
  | y :: l', S i' => y :: setAt i' x l'
  end.

(** [handleSaveRule]: the updater given to [setRules]. *)
Definition handleSaveRule (rule : FirewallRule) (prev : list FirewallRule)
  : list FirewallRule :=
  match findIndex (fun r => (id r =? id rule)%string) prev with
  | Some existingIndex => setAt existingIndex rule prev
  | None => (prev ++ [rule])%list
  end.

(** The question [handleDeleteRule] asks. *)
Definition deleteQuestion (rule : FirewallRule) : string :=
  "Are you sure you want to delete the rule " ++ String (ascii_of_nat 34) ""
  ++ name rule ++ String (ascii_of_nat 34) "" ++ "?".

(** [handleDeleteRule]; [confirm] is [window.confirm], the answer of the
    user to a question, asked only when a rule has the identifier.  The
    list the handler searches and the list the updater filters are the
    state at the time of the click. *)
Definition handleDeleteRule (confirm : string -> bool) (i : string)
                            (rules : list FirewallRule) : list FirewallRule :=
  match find (fun r => (id r =? i)%string) rules with
  | Some rule =>
      if confirm (deleteQuestion rule) then
        filter (fun rule => negb (id rule =? i)%string) rules
      else rules
  | None => rules
  end.

(** [{ ...rule, enabled: !rule.enabled, updatedAt: new Date() }], [now]
    being the time value of [new Date()]. *)
Definition toggled (now : Z) (rule : FirewallRule) : FirewallRule :=
  {| id := id rule;
     name := name rule;
     action := action rule;
     protocol := protocol rule;
     sourceIp := sourceIp rule;
     sourcePort := sourcePort rule;
     destinationIp := destinationIp rule;
     destinationPort := destinationPort rule;
     priority := priority rule;
     enabled := negb (enabled rule);
     description := description rule;
     createdAt := createdAt rule;
     updatedAt := Some now |}.

(** [handleToggleRule]: the updater given to [setRules].  The clock is read
    for each rule that has the identifier; the readings are taken to be the
    same. *)
Definition handleToggleRule (now : Z) (i : string) (prev : list FirewallRule)
  : list FirewallRule :=
  map (fun rule => if (id rule =? i)%string then toggled now rule else rule) prev.

(** The distance between neighbouring doubles at an integer [z] from 2^52
    on: a double has 53 bits of significand. *)
Definition ulp (z : Z) : Z := 2 ^ (Z.log2 z - 52).

(** The double nearest to a non-negative integer [z], the one with the even
    significand when two are as near (the rounding of the arithmetic of
    IEEE 754, below the overflow threshold). *)
Definition roundDouble (z : Z) : Z :=
  if z <? 2 ^ 53 then z
  else
    let u := ulp z in
    let q := z / u in
    let r := z mod u in
    if 2 * r <? u then q * u
    else if u <? 2 * r then (q + 1) * u
    else if Z.even q then q * u else (q + 1) * u.

(** An integer a [number] can hold. *)
Definition isDouble (z : Z) : bool := roundDouble z =? z.

(** [x + 1] on numbers, for a non-negative integer [x]: the sum itself below
    2^53; from there to 2^54, where the doubles are the even integers, the
    sum is half way between [x] and [x + 2] and the result is the one of
    the two with the even significand; from 2^54 on the nearest double is
    [x] itself. *)
Definition plusOne (x : Z) : Z :=
  if x <? 2 ^ 53 then x + 1
  else if x <? 2 ^ 54 then (if Z.even (x / 2) then x else x + 2)
  else x.

(** [Math.max(...rules.map(r => r.priority), 0) + 1] *)
Definition nextPriority (rules : list FirewallRule) : Z :=
  plusOne (fold_right Z.max 0 (map priority rules)).

(** ** Search and filters ([App.tsx]) *)

(** [s.startsWith(t)] *)
Fixpoint startsWith (s t : string) : bool :=
  match t, s with
  | EmptyString, _ => true
  | String _ _, EmptyString => false
  | String d t', String c s' => Ascii.eqb c d && startsWith s' t'
  end.

(** [s.includes(t)] for a string needle: [t] occurs somewhere in [s]. *)
Fixpoint includesString (s t : string) : bool :=
  startsWith s t ||
  match s with
  | EmptyString => false
  | String _ s' => includesString s' t
  end.

(** The values of [filterAction] and [filterStatus]. *)
Inductive ActionFilter : Type := AllActions | AllowOnly | DenyOnly.

Inductive StatusFilter : Type := AllRules | EnabledOnly | DisabledOnly.

(** The callback of the search filter; [term] is the search term in lower
    case. *)
Definition matchesSearch (term : string) (rule : FirewallRule) : bool :=
  includesString (toLowerCase (name rule)) term ||
  match description rule with
  | Some d => includesString (toLowerCase d) term
  | None => false
  end ||
  includesString (toLowerCase (sourceIp rule)) term ||
  includesString (toLowerCase (destinationIp rule)) term ||
  includesString (toLowerCase (sourcePort rule)) term ||
  includesString (toLowerCase (destinationPort rule)) term ||
  includesString (toLowerCase (protocolName (protocol rule))) term.

(** [rule.action === filterAction] *)
Definition matchesAction (f : ActionFilter) (rule : FirewallRule) : bool :=
  match f, action rule with
  | AllowOnly, ALLOW => true
  | DenyOnly, DENY => true
  | _, _ => false
  end.

(** [filterStatus === 'ENABLED' ? rule.enabled : !rule.enabled] *)
Definition matchesStatus (f : StatusFilter) (rule : FirewallRule) : bool :=
  match f with
  | EnabledOnly => enabled rule
  | _ => negb (enabled rule)
  end.

Definition isAllActions (f : ActionFilter) : bool :=
  match f with AllActions => true | _ => false end.

Definition isAllRules (f : StatusFilter) : bool :=
  match f with AllRules => true | _ => false end.

(** The effect that computes [filteredRules].  [filtered] starts as the
    array [rules] itself and becomes a new array at the first filter that
    applies; the sort at the end works in place, on [rules] itself when no
    filter applied.  The result is the content of [rules] after the effect
    and the value given to [setFilteredRules]. *)
Definition filterEffect (searchTerm : string) (filterAction : ActionFilter)
                        (filterStatus : StatusFilter) (rules : list FirewallRule)
  : list FirewallRule * list FirewallRule :=
  let filtered := rules in
  let isRules := true in
  let '(filtered, isRules) :=
    if nonEmpty searchTerm then
      let term := toLowerCase searchTerm in
      (filter (matchesSearch term) filtered, false)
    else (filtered, isRules) in
  let '(filtered, isRules) :=
    if negb (isAllActions filterAction) then
      (filter (matchesAction filterAction) filtered, false)
    else (filtered, isRules) in
  let '(filtered, isRules) :=
    if negb (isAllRules filterStatus) then
      (filter (matchesStatus filterStatus) filtered, false)
    else (filtered, isRules) in
  let filtered := sort (fun a b => priority a - priority b) filtered in
  (if isRules then filtered else rules, filtered).

(** ** The form ([RuleBuilder.tsx]) *)

(** The form of a new rule. *)
Definition defaultForm : Form.RuleFormData :=
  {| Form.name := ""; Form.action := ALLOW; Form.protocol := TCP;
     Form.sourceIp := "*"; Form.sourcePort := "*";
     Form.destinationIp := "*"; Form.destinationPort := "*";
     Form.description := "" |}.

(** The form the effect on [editingRule] sets:
    the fields of the rule being edited, or the form of a new rule. *)
Definition formOf (editingRule : option FirewallRule) : Form.RuleFormData :=
  match editingRule with
  | Some e =>
      {| Form.name := name e; Form.action := action e;
         Form.protocol := protocol e;
         Form.sourceIp := sourceIp e; Form.sourcePort := sourcePort e;
         Form.destinationIp := destinationIp e;
         Form.destinationPort := destinationPort e;
         Form.description :=
           match description e with
           | Some d => if nonEmpty d then d else ""
           | None => ""
           end |}
  | None => defaultForm
  end.

(** [handleSubmit]: the errors it shows, or the rule it gives to [onSave].
    [now] is the time value of [new Date()] and [newId] what [generateId()]
    returns when it is called. *)
Definition handleSubmit (formData : Form.RuleFormData)
                        (editingRule : option FirewallRule)
                        (nextPriority : Z) (now : Z) (newId : string)
  : list ValidationError + FirewallRule :=
  let validationErrors := validateRule formData in
  if (0 <? List.length validationErrors)%nat then inl validationErrors
  else
    inr {| id := match editingRule with
                 | Some e => if nonEmpty (id e) then id e else newId
                 | None => newId
                 end;
           name := Form.name formData;
           action := Form.action formData;
           protocol := Form.protocol formData;
           sourceIp := Form.sourceIp formData;
           sourcePort := Form.sourcePort formData;
           destinationIp := Form.destinationIp formData;
           destinationPort := Form.destinationPort formData;
           priority := match editingRule with
                       | Some e => if priority e =? 0 then nextPriority
                                   else priority e
                       | None => nextPriority
                       end;
           enabled := match editingRule with
                      | Some e => enabled e
                      | None => true
                      end;
           description := Some (Form.description formData);
           createdAt := match editingRule with
                        | Some e => createdAt e
                        | None => Some now
                        end;
           updatedAt := Some now |}.

(** [getFieldError]: [errors.find(error => error.field === field)?.message] *)
Definition getFieldError (errors : list ValidationError) (f : string)
  : option string :=
  option_map message (find (fun error => (field error =? f)%string) errors).

(** [handleProtocolChange], for the protocols the select offers: the new
    form and the new errors. *)
Definition handleProtocolChange (p : Protocol) (formData : Form.RuleFormData)
                                (errors : list ValidationError)
  : Form.RuleFormData * list ValidationError :=
  let newFormData :=
    {| Form.name := Form.name formData; Form.action := Form.action formData;
       Form.protocol := p;
       Form.sourceIp := Form.sourceIp formData;
       Form.sourcePort :=
         if isICMP p then "*" else Form.sourcePort formData;
       Form.destinationIp := Form.destinationIp formData;
       Form.destinationPort :=
         if isICMP p then "*" else Form.destinationPort formData;
       Form.description := Form.description formData |} in
  (newFormData,
   filter (fun error =>
             negb (existsb (String.eqb (field error))
                           ["sourcePort"; "destinationPort"]))
          errors).

(** ** The figures of the dashboard ([Dashboard.tsx]) *)

Definition activeRules (rules : list FirewallRule) : list FirewallRule :=
  filter enabled rules.

Definition disabledRules (rules : list FirewallRule) : list FirewallRule :=
  filter (fun rule => negb (enabled rule)) rules.

Definition isALLOW (a : Action) : bool :=
  match a with ALLOW => true | DENY => false end.

Definition allowRules (rules : list FirewallRule) : list FirewallRule :=
  filter (fun rule => isALLOW (action rule)) (activeRules rules).

Definition isDENY (a : Action) : bool :=
  match a with DENY => true | ALLOW => false end.

Definition denyRules (rules : list FirewallRule) : list FirewallRule :=
  filter (fun rule => isDENY (action rule)) (activeRules rules).

(** ** Notions the properties of the application are stated with *)

(** The characters of an address that is not a wildcard: digits, the dot,
    the slash and the dash. *)
Definition addressChar (c : ascii) : bool :=
  is_digit c || Ascii.eqb c "." || Ascii.eqb c "/" || Ascii.eqb c "-".

Fixpoint addressChars (s : string) : bool :=
  match s with
  | EmptyString => true
  | String c s' => addressChar c && addressChars s'
  end.

(** [rule] with other port fields. *)
Definition withPorts (sp dp : string) (rule : FirewallRule) : FirewallRule :=
  {| id := id rule;
     name := name rule;
     action := action rule;
     protocol := protocol rule;
     sourceIp := sourceIp rule;
     sourcePort := sp;
     destinationIp := destinationIp rule;
     destinationPort := dp;
     priority := priority rule;
     enabled := enabled rule;
     description := description rule;
     createdAt := createdAt rule;
     updatedAt := updatedAt rule |}.

(** A [Date] that is not the Invalid Date. *)
Definition hasTime (d : Date) : bool :=
  match d with Some _ => true | None => false end.

(** The answer yes to every question. *)
Definition alwaysYes (question : string) : bool := true.

(** The answer no to every question. *)
Definition alwaysNo (question : string) : bool := false.

(** ** The layout of a compiled script

    The lines of the script, written out: the head with the time and the
    number of rules, the fixed directives, for each rule its comment lines
    and its directive, and the logging suggestion. *)

Definition scriptHeader (now : Z) (count : nat) : list string :=
  [ "#!/bin/bash";
    "# Generated Firewall Rules";
    "# Generated on: " ++ isoString now;
    "# Total rules: " ++ showNat count ].

Definition fixedDirectives : list string :=
  [ "";
    "# Flush existing rules";
    "iptables -F";
    "iptables -X";
    "iptables -t nat -F";
    "iptables -t nat -X";
    "";
    "# Set default policies";
    "iptables -P INPUT DROP";
    "iptables -P FORWARD DROP";
    "iptables -P OUTPUT ACCEPT";
    "";
    "# Allow loopback traffic";
    "iptables -A INPUT -i lo -j ACCEPT";
    "iptables -A OUTPUT -o lo -j ACCEPT";
    "";
    "# Allow established and related connections";
    "iptables -A INPUT -m state --state ESTABLISHED,RELATED -j ACCEPT";
    "" ].

(** The protocol match: none for ALL. *)
Definition protocolClause (p : Protocol) : string :=
  match p with
  | TCP => " -p tcp"
  | UDP => " -p udp"
  | ICMP => " -p icmp"
  | ALL => ""
  end.

(** A match on an address or a port: none for [*] and for [ANY]. *)
Definition clause (flag value : string) : string :=
  if (value =? "*")%string || (value =? "ANY")%string then ""
  else flag ++ value.

(** A match on a port: none for ICMP and ALL, and none for an empty
    field. *)
Definition portClause (p : Protocol) (flag value : string) : string :=
  match p with
  | ICMP | ALL => ""
  | TCP | UDP => if (value =? "")%string then "" else clause flag value
  end.

Definition terminalClause (a : Action) : string :=
  match a with
  | ALLOW => " -j ACCEPT"
  | DENY => " -j DROP"
  end.

(** The directive of a rule. *)
Definition directive (rule : FirewallRule) : string :=
  "iptables -A INPUT"
  ++ protocolClause (protocol rule)
  ++ clause " -s " (sourceIp rule)
  ++ clause " -d " (destinationIp rule)
  ++ portClause (protocol rule) " --sport " (sourcePort rule)
  ++ portClause (protocol rule) " --dport " (destinationPort rule)
  ++ terminalClause (action rule).

(** The comment lines of the rule compiled as the [number]-th: number and
    name, and the description when there is one. *)
Definition commentLines (number : nat) (rule : FirewallRule) : list string :=
  ("# Rule " ++ showNat number ++ ": " ++ name rule)
  :: match description rule with
     | Some d => if (d =? "")%string then [] else ["# Description: " ++ d]
     | None => []
     end.

(** The lines of the rules of [l], numbered from [number]: for each rule
    its comment lines, its directive and an empty line. *)
Fixpoint ruleLines (l : list FirewallRule) (number : nat) : list string :=
  match l with
  | [] => []
  | rule :: l' =>
      (commentLines number rule ++ [directive rule; ""]
       ++ ruleLines l' (S number))%list
  end.

Definition loggingSuggestion : list string :=
  [ "# Log dropped packets (optional)";
    "# iptables -A INPUT -j LOG --log-prefix "
      ++ String (ascii_of_nat 34) "DROPPED: " ++ String (ascii_of_nat 34) "";
    "" ].

(** The lines of the script that lists the rules of [l], in the order of
    [l]. *)
Definition scriptLines (now : Z) (l : list FirewallRule) : list string :=
  (scriptHeader now (List.length l) ++ fixedDirectives
   ++ ruleLines l 1 ++ loggingSuggestion)%list.

(** ** Example rules *)

Definition pingRule : FirewallRule :=
  {| id := "lq3x9k2e5"; name := "Allow Ping"; action := ALLOW;
     protocol := ICMP; sourceIp := "10.0.0.0/8"; sourcePort := "*";
     destinationIp := "*"; destinationPort := "*";
     priority := 4; enabled := true; description := Some "";
     createdAt := Some 1705482000000; updatedAt := Some 1705482000000 |}.

(** [rule] with another time of last update. *)
Definition touched (now : Z) (rule : FirewallRule) : FirewallRule :=
  {| id := id rule;
     name := name rule;
     action := action rule;
     protocol := protocol rule;
     sourceIp := sourceIp rule;
     sourcePort := sourcePort rule;
     destinationIp := destinationIp rule;
     destinationPort := destinationPort rule;
     priority := priority rule;
     enabled := enabled rule;
     description := description rule;
     createdAt := createdAt rule;
     updatedAt := Some now |}.

(** The test of an identifier, [rule.id === i]. *)
Definition hasId (i : string) (rule : FirewallRule) : bool :=
  (id rule =? i)%string.

(** A form that passes [validateRule]. *)
Definition sshForm : Form.RuleFormData :=
  {| Form.name := "Allow SSH Access"; Form.action := ALLOW;
     Form.protocol := TCP;
     Form.sourceIp := "10.0.0.0/8"; Form.sourcePort := "*";
     Form.destinationIp := "*"; Form.destinationPort := "22";
     Form.description := "Remote administration" |}.

(** * Properties *)

(** ** Strings *)

Lemma append_nil_r (s : string) : s ++ "" = s.
Proof. induction s as [|c s IH]; simpl; [reflexivity | now rewrite IH]. Qed.

Lemma append_assoc (a b c : string) : (a ++ b) ++ c = a ++ (b ++ c).
Proof. induction a as [|x a IH]; simpl; [reflexivity | now rewrite IH]. Qed.

Lemma length_append (a b : string) :
  String.length (a ++ b) = (String.length a + String.length b)%nat.
Proof. induction a as [|x a IH]; simpl; [reflexivity | now rewrite IH]. Qed.

Lemma append_eq_nil (a b : string) : a ++ b = "" -> a = "" /\ b = "".
Proof. destruct a; simpl; [auto | discriminate]. Qed.

Lemma includes_append (a b : string) (c : ascii) :
  includes (a ++ b) c = includes a c || includes b c.
Proof.
  induction a as [|x a IH]; simpl; [reflexivity|].
  now rewrite IH, orb_assoc.
Qed.

(** Case analysis on a character known to satisfy a decidable test [H]:
    the 256 characters are enumerated and the ones failing the test are
    dismissed by computation. *)
Ltac char_cases c H :=
  destruct c as [[|] [|] [|] [|] [|] [|] [|] [|]];
  try (vm_compute in H; discriminate H).

Lemma digit_facts (c : ascii) :
  is_digit c = true ->
  isWhiteSpace c = false /\
  (c =? "-")%char = false /\ (c =? "+")%char = false /\
  (c =? "x")%char = false /\ (c =? "X")%char = false /\
  (c =? ".")%char = false /\ (c =? "/")%char = false /\
  (c =? ",")%char = false /\ (c =? "*")%char = false /\
  (c =? "A")%char = false /\ (lower_char c =? "a")%char = false /\
  digitValue 10 c = Some (code c - 48) /\ 0 <= code c - 48 <= 9.
Proof.
  intros H. char_cases c H; vm_compute; repeat split; congruence.
Qed.

Lemma allDigits_append (a b : string) :
  allDigits (a ++ b) = allDigits a && allDigits b.
Proof.
  induction a as [|x a IH]; simpl; [reflexivity|].
  now rewrite IH, andb_assoc.
Qed.

Lemma allDigits_includes (s : string) (c : ascii) :
  allDigits s = true -> is_digit c = false -> includes s c = false.
Proof.
  induction s as [|x s IH]; simpl; intros H Hc; [reflexivity|].
  apply andb_true_iff in H as [Hx Hs].
  rewrite (IH Hs Hc), orb_false_r.
  apply Ascii.eqb_neq. intros ->. congruence.
Qed.

(** ** [split] *)

Lemma split_not_nil (sep : ascii) (s : string) : split sep s <> [].
Proof.
  induction s as [|c s IH]; simpl; [discriminate|].
  destruct (c =? sep)%char; [discriminate|].
  destruct (split sep s); [contradiction | discriminate].
Qed.

Lemma split_no_sep (sep : ascii) (s : string) :
  includes s sep = false -> split sep s = [s].
Proof.
  induction s as [|c s IH]; simpl; intros H; [reflexivity|].
  apply orb_false_iff in H as [Hc Hs].
  rewrite Hc, (IH Hs). reflexivity.
Qed.

Lemma split_append (sep : ascii) (a b : string) :
  includes a sep = false ->
  split sep (a ++ String sep b) = a :: split sep b.
Proof.
  induction a as [|c a IH]; simpl; intros H.
  - now rewrite Ascii.eqb_refl.
  - apply orb_false_iff in H as [Hc Ha].
    rewrite Hc, (IH Ha). reflexivity.
Qed.

Lemma split_includes (sep : ascii) (s t : string) :
  In t (split sep s) -> includes t sep = false.
Proof.
  revert t. induction s as [|c s IH]; simpl; intros t H.
  - destruct H as [<-|[]]. reflexivity.
  - destruct (c =? sep)%char eqn:Hc.
    + destruct H as [<-|H]; [reflexivity | now apply IH].
    + destruct (split sep s) as [|h l] eqn:Hs; simpl in H.
      * destruct H as [<-|[]]. simpl. now rewrite Hc.
      * destruct H as [<-|H].
        -- simpl. rewrite Hc. apply IH. now left.
        -- apply IH. now right.
Qed.

Lemma split_length (sep : ascii) (s t : string) :
  In t (split sep s) -> (String.length t <= String.length s)%nat.
Proof.
  revert t. induction s as [|c s IH]; simpl; intros t H.
  - destruct H as [<-|[]]. simpl. lia.
  - destruct (c =? sep)%char.
    + destruct H as [<-|H]; [simpl; lia | specialize (IH _ H); lia].
    + destruct (split sep s) as [|h l] eqn:Hs; simpl in H.
      * destruct H as [<-|[]]. pose proof (split_not_nil sep s). contradiction.
      * destruct H as [<-|H].
        -- simpl. specialize (IH h (or_introl eq_refl)). lia.
        -- specialize (IH t (or_intror H)). lia.
Qed.

Lemma split_includes_length (sep : ascii) (s t : string) :
  includes s sep = true -> In t (split sep s) ->
  (String.length t < String.length s)%nat.
Proof.
  revert t. induction s as [|c s IH]; simpl; intros t Hi H; [discriminate|].
  destruct (c =? sep)%char eqn:Hc.
  - destruct H as [<-|H]; [simpl; lia|].
    apply split_length in H. lia.
  - simpl in Hi. destruct (split sep s) as [|h l] eqn:Hs; simpl in H.
    + pose proof (split_not_nil sep s). contradiction.
    + destruct H as [<-|H].
      * simpl. specialize (IH h Hi (or_introl eq_refl)). lia.
      * specialize (IH t Hi (or_intror H)). lia.
Qed.

(** ** The matcher decides the language *)

Lemma nullable_lang (r : regex) : nullable r = true <-> lang r "".
Proof.
  induction r as [| |p|r1 IH1 r2 IH2|r1 IH1 r2 IH2]; simpl.
  - split; [discriminate | contradiction].
  - split; reflexivity.
  - split; [discriminate | intros (c & H & _); discriminate].
  - rewrite andb_true_iff, IH1, IH2. split.
    + intros [H1 H2]. now exists "", "".
    + intros (s1 & s2 & H & H1 & H2).
      symmetry in H. apply append_eq_nil in H as [-> ->]. now split.
  - rewrite orb_true_iff, IH1, IH2. reflexivity.
Qed.

Lemma deriv_lang (c : ascii) (r : regex) (s : string) :
  lang (deriv c r) s <-> lang r (String c s).
Proof.
  revert s. induction r as [| |p|r1 IH1 r2 IH2|r1 IH1 r2 IH2]; simpl; intros s.
  - reflexivity.
  - split; [contradiction | discriminate].
  - destruct (p c) eqn:Hp; simpl.
    + split.
      * intros ->. now exists c.
      * intros (c' & H & _). now injection H.
    + split; [contradiction|].
      intros (c' & H & Hp'). injection H as -> _. congruence.
  - assert (Hseq : lang (Seq (deriv c r1) r2) s <->
              exists s1 s2, String c s = String c s1 ++ s2 /\
                            lang r1 (String c s1) /\ lang r2 s2).
    { simpl. split.
      - intros (s1 & s2 & -> & H1 & H2). exists s1, s2.
        rewrite <- IH1. auto.
      - intros (s1 & s2 & H & H1 & H2). injection H as ->.
        exists s1, s2. rewrite IH1. auto. }
    destruct (nullable r1) eqn:Hn.
    + change (lang (Seq (deriv c r1) r2) s \/ lang (deriv c r2) s <->
              exists s1 s2, String c s = s1 ++ s2 /\ lang r1 s1 /\ lang r2 s2).
      rewrite Hseq, IH2. split.
      * intros [(s1 & s2 & H & H1 & H2) | H].
        -- now exists (String c s1), s2.
        -- exists "", (String c s). apply nullable_lang in Hn. auto.
      * intros (s1 & s2 & H & H1 & H2). destruct s1 as [|c' s1].
        -- right. simpl in H. now rewrite H.
        -- left. injection H as -> ->. now exists s1, s2.
    + rewrite Hseq. split.
      * intros (s1 & s2 & H & H1 & H2). now exists (String c s1), s2.
      * intros (s1 & s2 & H & H1 & H2). destruct s1 as [|c' s1].
        -- apply nullable_lang in H1. congruence.
        -- injection H as -> ->. now exists s1, s2.
  - now rewrite IH1, IH2.
Qed.

Theorem test_lang (r : regex) (s : string) : test r s = true <-> lang r s.
Proof.
  revert r. induction s as [|c s IH]; intros r; simpl.
  - apply nullable_lang.
  - now rewrite IH, deriv_lang.
Qed.

(** ** The languages of the three patterns *)

Lemma lang_lit (c : ascii) (s : string) :
  lang (lit c) s <-> s = String c "".
Proof.
  simpl. split.
  - intros (c' & -> & H). apply Ascii.eqb_eq in H. now subst.
  - intros ->. exists c. split; [reflexivity | apply Ascii.eqb_refl].
Qed.

Lemma lang_power_digits (n : nat) (s : string) :
  lang (power n (Class is_digit)) s <->
  allDigits s = true /\ String.length s = n.
Proof.
  revert s. induction n as [|n IH]; intros s.
  - simpl. split.
    + intros ->. now split.
    + intros [_ H]. now destruct s.
  - change (lang (power (S n) (Class is_digit)) s)
      with (exists s1 s2, s = s1 ++ s2 /\
              (exists c, s1 = String c "" /\ is_digit c = true) /\
              lang (power n (Class is_digit)) s2).
    split.
    + intros (s1 & s2 & -> & (c & -> & Hc) & H). apply IH in H as [Hd Hl].
      simpl. rewrite Hc, Hd, Hl. now split.
    + intros [Hd Hl]. destruct s as [|c s]; [discriminate|]. simpl in Hd.
      apply andb_true_iff in Hd as [Hc Hd]. injection Hl as Hl.
      exists (String c ""), s. repeat split.
      * now exists c.
      * apply IH. now split.
Qed.

Lemma lang_upto_digits (n : nat) (s : string) :
  lang (upto n (Class is_digit)) s <->
  allDigits s = true /\ (String.length s <= n)%nat.
Proof.
  revert s. induction n as [|n IH]; intros s.
  - simpl. split.
    + intros ->. now split.
    + intros [_ H]. destruct s; [reflexivity | simpl in H; lia].
  - change (lang (upto (S n) (Class is_digit)) s)
      with (s = "" \/
            exists s1 s2, s = s1 ++ s2 /\
              (exists c, s1 = String c "" /\ is_digit c = true) /\
              lang (upto n (Class is_digit)) s2).
    split.
    + intros [-> | (s1 & s2 & -> & (c & -> & Hc) & H)].
      * simpl. split; [reflexivity | lia].
      * apply IH in H as [Hd Hl]. simpl. rewrite Hc, Hd. split; [reflexivity | lia].
    + intros [Hd Hl]. destruct s as [|c s]; [now left | right]. simpl in Hd, Hl.
      apply andb_true_iff in Hd as [Hc Hd].
      exists (String c ""), s. repeat split.
      * now exists c.
      * apply IH. split; [assumption | lia].
Qed.

Lemma split_at (n : nat) (s : string) :
  (n <= String.length s)%nat ->
  exists s1 s2, s = s1 ++ s2 /\ String.length s1 = n.
Proof.
  revert s. induction n as [|n IH]; intros s H.
  - now exists "", s.
  - destruct s as [|c s]; simpl in H; [lia|].
    destruct (IH s) as (s1 & s2 & -> & Hl); [lia|].
    exists (String c s1), s2. simpl. now rewrite Hl.
Qed.

Lemma lang_quant_digits (lo hi : nat) (s : string) :
  (lo <= hi)%nat ->
  lang (quant lo hi (Class is_digit)) s <-> numeral lo hi s.
Proof.
  intros Hlh. unfold quant, numeral.
  change (lang (Seq ?a ?b) s)
    with (exists s1 s2, s = s1 ++ s2 /\ lang a s1 /\ lang b s2).
  split.
  - intros (s1 & s2 & -> & H1 & H2).
    apply lang_power_digits in H1 as [D1 L1].
    apply lang_upto_digits in H2 as [D2 L2].
    rewrite allDigits_append, length_append, D1, D2. split; [reflexivity | lia].
  - intros [Hd Hl]. destruct (split_at lo s) as (s1 & s2 & -> & L1); [lia|].
    rewrite allDigits_append in Hd. apply andb_true_iff in Hd as [D1 D2].
    rewrite length_append in Hl.
    exists s1, s2. repeat split.
    + apply lang_power_digits. now split.
    + apply lang_upto_digits. split; [assumption | lia].
Qed.

Lemma lang_octet (s : string) : lang octetRegex s <-> numeral 1 3 s.
Proof. apply lang_quant_digits. lia. Qed.

(** Four fields separated by dots. *)
Lemma lang_dotted (o : regex) (s : string) :
  lang (Seq (quant 3 3 (Seq o (lit "."))) o) s <->
  exists o1 o2 o3 o4,
    s = o1 ++ "." ++ o2 ++ "." ++ o3 ++ "." ++ o4 /\
    lang o o1 /\ lang o o2 /\ lang o o3 /\ lang o o4.
Proof.
  unfold quant. simpl power. simpl upto.
  split.
  - intros (s123 & o4 & -> & (p & e & -> & H & ->) & H4).
    destruct H as (x1 & r1 & -> & (o1 & d1 & -> & H1 & D1) & H).
    destruct H as (x2 & r2 & -> & (o2 & d2 & -> & H2 & D2) & H).
    destruct H as (x3 & r3 & -> & (o3 & d3 & -> & H3 & D3) & ->).
    apply lang_lit in D1, D2, D3. subst.
    exists o1, o2, o3, o4. repeat split; try assumption.
    rewrite !append_nil_r, !append_assoc. reflexivity.
  - intros (o1 & o2 & o3 & o4 & -> & H1 & H2 & H3 & H4).
    exists ((o1 ++ ".") ++ (o2 ++ ".") ++ (o3 ++ ".")), o4. repeat split.
    + rewrite !append_assoc. reflexivity.
    + exists ((o1 ++ ".") ++ (o2 ++ ".") ++ (o3 ++ ".")), "". repeat split.
      * now rewrite append_nil_r.
      * exists (o1 ++ "."), ((o2 ++ ".") ++ (o3 ++ ".")). repeat split.
        -- exists o1, ".". repeat split; [assumption | now apply lang_lit].
        -- exists (o2 ++ "."), (o3 ++ "."). repeat split.
           ++ exists o2, ".". repeat split; [assumption | now apply lang_lit].
           ++ exists (o3 ++ "."), "". repeat split.
              ** now rewrite append_nil_r.
              ** exists o3, ".". repeat split; [assumption | now apply lang_lit].
    + assumption.
Qed.

Lemma test_ipv4Regex (s : string) :
  test ipv4Regex s = true <-> dottedQuad s.
Proof.
  rewrite test_lang. unfold ipv4Regex. rewrite lang_dotted. unfold dottedQuad.
  split; intros (o1 & o2 & o3 & o4 & H & H1 & H2 & H3 & H4);
    exists o1, o2, o3, o4; rewrite <- ?lang_octet, ?lang_octet in *; auto.
Qed.

Lemma test_cidrRegex (s : string) :
  test cidrRegex s = true <->
  exists a p, s = a ++ "/" ++ p /\ test ipv4Regex a = true /\ numeral 1 2 p.
Proof.
  rewrite test_lang. unfold cidrRegex.
  change (lang (Seq ipv4Regex ?b) s)
    with (exists s1 s2, s = s1 ++ s2 /\ lang ipv4Regex s1 /\ lang b s2).
  split.
  - intros (a & r & -> & Ha & (sl & p & -> & Hs & Hp)).
    apply lang_lit in Hs. subst sl. apply lang_quant_digits in Hp; [|lia].
    exists a, p. rewrite test_lang. auto.
  - intros (a & p & -> & Ha & Hp). exists a, ("/" ++ p). repeat split.
    + now apply test_lang.
    + exists "/", p. repeat split; [now apply lang_lit|].
      apply lang_quant_digits; [lia | assumption].
Qed.

Lemma test_rangeRegex (s : string) :
  test rangeRegex s = true <->
  exists a b, s = a ++ "-" ++ b /\
              test ipv4Regex a = true /\ test ipv4Regex b = true.
Proof.
  rewrite test_lang. unfold rangeRegex.
  change (lang (Seq ipv4Regex ?b) s)
    with (exists s1 s2, s = s1 ++ s2 /\ lang ipv4Regex s1 /\ lang b s2).
  split.
  - intros (a & r & -> & Ha & (sl & b & -> & Hs & Hb)).
    apply lang_lit in Hs. subst sl.
    exists a, b. rewrite !test_lang. auto.
  - intros (a & b & -> & Ha & Hb). exists a, ("-" ++ b). repeat split.
    + now apply test_lang.
    + exists "-", b. repeat split; [now apply lang_lit | now apply test_lang].
Qed.

(** A dotted quad holds digits and dots only. *)
Lemma dottedQuad_includes (s : string) (c : ascii) :
  dottedQuad s -> is_digit c = false -> (c =? ".")%char = false ->
  includes s c = false.
Proof.
  intros (o1 & o2 & o3 & o4 & -> & [D1 _] & [D2 _] & [D3 _] & [D4 _]) Hc Hd.
  assert (Hdot : includes "." c = false).
  { unfold includes. now rewrite Ascii.eqb_sym, Hd. }
  rewrite !includes_append, Hdot.
  now rewrite !(allDigits_includes _ c) by assumption.
Qed.

Lemma numeral_head (lo hi : nat) (s : string) :
  numeral (S lo) hi s ->
  exists c s', s = String c s' /\ is_digit c = true /\ allDigits s' = true.
Proof.
  intros [Hd Hl]. destruct s as [|c s']; simpl in Hl; [lia|].
  simpl in Hd. apply andb_true_iff in Hd as [Hc Hs]. now exists c, s'.
Qed.

Lemma dottedQuad_head (s : string) :
  dottedQuad s -> exists c s', s = String c s' /\ is_digit c = true.
Proof.
  intros (o1 & o2 & o3 & o4 & -> & H1 & _).
  apply numeral_head in H1 as (c & s' & -> & Hc & _).
  now exists c, (s' ++ "." ++ o2 ++ "." ++ o3 ++ "." ++ o4).
Qed.

(** A string that starts with a digit is no wildcard. *)
Lemma isWildcard_digit (c : ascii) (s : string) :
  is_digit c = true -> isWildcard (String c s) = false.
Proof.
  intros H. apply digit_facts in H.
  destruct H as (_ & _ & _ & _ & _ & _ & _ & _ & Hs & HA & Ha & _).
  unfold isWildcard. simpl. now rewrite Hs, HA, Ha.
Qed.

(** ** [parseInt] on a decimal numeral *)

Lemma parseDigits_seen (s : string) :
  allDigits s = true ->
  forall acc, parseDigits 10 true acc s = Some (decimalValue acc s).
Proof.
  induction s as [|c s IH]; simpl; intros H acc; [reflexivity|].
  apply andb_true_iff in H as [Hc Hs].
  apply digit_facts in Hc.
  destruct Hc as (_ & _ & _ & _ & _ & _ & _ & _ & _ & _ & _ & -> & _).
  now apply IH.
Qed.

Lemma decimalValue_nonneg (s : string) :
  allDigits s = true -> forall acc, 0 <= acc -> 0 <= decimalValue acc s.
Proof.
  induction s as [|c s IH]; simpl; intros H acc Hacc; [assumption|].
  apply andb_true_iff in H as [Hc Hs].
  apply digit_facts in Hc.
  destruct Hc as (_ & _ & _ & _ & _ & _ & _ & _ & _ & _ & _ & _ & Hr).
  apply IH; [assumption | lia].
Qed.

Lemma trimStart_digit (c : ascii) (s : string) :
  is_digit c = true -> trimStart (String c s) = String c s.
Proof.
  intros H. simpl. apply digit_facts in H as (-> & _). reflexivity.
Qed.

Lemma parseInt_numeral (s : string) :
  allDigits s = true -> s <> "" -> parseInt s = Some (decimalValue 0 s).
Proof.
  intros H Hne. destruct s as [|c s]; [contradiction|].
  pose proof H as H'. simpl in H'. apply andb_true_iff in H' as [Hc Hs].
  unfold parseInt. rewrite (trimStart_digit c s Hc).
  pose proof (digit_facts c Hc) as (_ & -> & -> & _ & _ & _ & _ & _ & _ & _ & _ & Hv & _).
  assert (Hfin : option_map (Z.mul 1) (parseDigits 10 false 0 (String c s))
                 = Some (decimalValue 0 (String c s))).
  { simpl parseDigits. rewrite Hv, (parseDigits_seen s Hs). simpl.
    f_equal. destruct (decimalValue _ s); reflexivity. }
  destruct s as [|x r]; [exact Hfin|].
  simpl in Hs. apply andb_true_iff in Hs as [Hx _].
  pose proof (digit_facts x Hx) as (_ & _ & _ & Hx1 & Hx2 & _).
  rewrite Hx1, Hx2, andb_false_r. exact Hfin.
Qed.

Lemma octetInRange_numeral (lo hi : nat) (s : string) :
  numeral (S lo) hi s ->
  octetInRange s = true <-> 0 <= decimalValue 0 s <= 255.
Proof.
  intros [Hd Hl]. unfold octetInRange.
  rewrite parseInt_numeral; [| assumption | intros ->; simpl in Hl; lia].
  simpl. rewrite andb_true_iff, !Z.leb_le. reflexivity.
Qed.

(** ** The wildcard test *)

Lemma lower_char_any (c : ascii) :
  (lower_char c = "a"%char -> c = "a"%char \/ c = "A"%char) /\
  (lower_char c = "n"%char -> c = "n"%char \/ c = "N"%char) /\
  (lower_char c = "y"%char -> c = "y"%char \/ c = "Y"%char).
Proof.
  destruct c as [[|] [|] [|] [|] [|] [|] [|] [|]]; vm_compute;
    repeat split; intros H; try discriminate H; auto.
Qed.

Lemma isWildcard_spec (s : string) : isWildcard s = true <-> spec_wildcard s.
Proof.
  unfold isWildcard, spec_wildcard, wildcardTokens. split.
  - rewrite !orb_true_iff, !String.eqb_eq.
    intros [[-> | ->] | H]; simpl; auto.
    destruct s as [|c1 [|c2 [|c3 [|c4 s]]]]; try discriminate H.
    simpl in H. injection H as H1 H2 H3.
    apply (proj1 (lower_char_any c1)) in H1.
    apply (proj1 (proj2 (lower_char_any c2))) in H2.
    apply (proj2 (proj2 (lower_char_any c3))) in H3.
    destruct H1 as [-> | ->], H2 as [-> | ->], H3 as [-> | ->]; simpl; tauto.
  - intros H. simpl in H.
    repeat (destruct H as [<- | H]; [reflexivity|]). contradiction.
Qed.

(** ** The equation of [validateIP] *)

Lemma split_sep (sep : ascii) (a b : string) :
  includes a sep = false ->
  split sep (a ++ String sep "" ++ b) = a :: split sep b.
Proof. apply split_append. Qed.

Lemma split_dotted (o1 o2 o3 o4 : string) :
  numeral 1 3 o1 -> numeral 1 3 o2 -> numeral 1 3 o3 -> numeral 1 3 o4 ->
  split "." (o1 ++ "." ++ o2 ++ "." ++ o3 ++ "." ++ o4) = [o1; o2; o3; o4].
Proof.
  intros [D1 _] [D2 _] [D3 _] [D4 _].
  rewrite !split_sep, split_no_sep;
    solve [reflexivity | now apply allDigits_includes].
Qed.

Lemma split_slash (a p : string) :
  dottedQuad a -> numeral 1 2 p -> split "/" (a ++ "/" ++ p) = [a; p].
Proof.
  intros Ha [Dp _].
  rewrite split_sep, split_no_sep; try reflexivity.
  - now apply allDigits_includes.
  - now apply dottedQuad_includes.
Qed.

Lemma split_dash (a b : string) :
  dottedQuad a -> dottedQuad b -> split "-" (a ++ "-" ++ b) = [a; b].
Proof.
  intros Ha Hb.
  rewrite split_sep, split_no_sep; try reflexivity.
  - now apply dottedQuad_includes.
  - now apply dottedQuad_includes.
Qed.

(** The calls [validateIP] makes on itself are on dotted quads. *)
Lemma validateIP_body_ext (f g : string -> bool) (ip : string) :
  (forall a, dottedQuad a -> f a = g a) ->
  validateIP_body f ip = validateIP_body g ip.
Proof.
  intros Hfg. unfold validateIP_body.
  destruct (isWildcard ip); [reflexivity|].
  destruct (test ipv4Regex ip); [reflexivity|].
  destruct (test cidrRegex ip) eqn:Hc.
  - apply test_cidrRegex in Hc as (a & p & -> & Ha & Hp).
    apply test_ipv4Regex in Ha.
    rewrite (split_slash a p Ha Hp), (Hfg a Ha). reflexivity.
  - destruct (test rangeRegex ip) eqn:Hr; [|reflexivity].
    apply test_rangeRegex in Hr as (a & b & -> & Ha & Hb).
    apply test_ipv4Regex in Ha, Hb.
    rewrite (split_dash a b Ha Hb), (Hfg a Ha), (Hfg b Hb). reflexivity.
Qed.

Lemma validateIP_fuel_quad (a : string) (n : nat) :
  dottedQuad a ->
  validateIP_fuel (S n) a = forallb octetInRange (split "." a).
Proof.
  intros Ha. simpl. unfold validateIP_body.
  destruct (dottedQuad_head a Ha) as (c & s' & -> & Hc).
  rewrite (isWildcard_digit c s' Hc).
  apply test_ipv4Regex in Ha. now rewrite Ha.
Qed.

(** [validateIP] satisfies the recursive equation of the source. *)
Theorem validateIP_unfold (ip : string) :
  validateIP ip = validateIP_body validateIP ip.
Proof.
  unfold validateIP at 1. destruct ip as [|c s]; [reflexivity|].
  change (validateIP_fuel (S (String.length (String c s))) (String c s))
    with (validateIP_body (validateIP_fuel (S (String.length s))) (String c s)).
  apply validateIP_body_ext. intros a Ha.
  unfold validateIP. now rewrite !validateIP_fuel_quad.
Qed.

(** ** [validateIP] against the address grammar *)

Lemma validateIP_dotted (o1 o2 o3 o4 : string) :
  numeral 1 3 o1 -> numeral 1 3 o2 -> numeral 1 3 o3 -> numeral 1 3 o4 ->
  validateIP (o1 ++ "." ++ o2 ++ "." ++ o3 ++ "." ++ o4) = true <->
  spec_octet o1 /\ spec_octet o2 /\ spec_octet o3 /\ spec_octet o4.
Proof.
  intros H1 H2 H3 H4.
  assert (Hq : dottedQuad (o1 ++ "." ++ o2 ++ "." ++ o3 ++ "." ++ o4)).
  { now exists o1, o2, o3, o4. }
  unfold validateIP. rewrite validateIP_fuel_quad by assumption.
  rewrite split_dotted by assumption. simpl forallb.
  rewrite !andb_true_iff.
  rewrite (octetInRange_numeral _ _ o1 H1), (octetInRange_numeral _ _ o2 H2),
          (octetInRange_numeral _ _ o3 H3), (octetInRange_numeral _ _ o4 H4).
  unfold spec_octet. tauto.
Qed.

Lemma spec_ipv4_dottedQuad (s : string) : spec_ipv4 s -> dottedQuad s.
Proof.
  intros (o1 & o2 & o3 & o4 & -> & [H1 _] & [H2 _] & [H3 _] & [H4 _]).
  now exists o1, o2, o3, o4.
Qed.

Lemma validateIP_quad (s : string) :
  dottedQuad s -> validateIP s = true <-> spec_ipv4 s.
Proof.
  intros (o1 & o2 & o3 & o4 & -> & H1 & H2 & H3 & H4).
  rewrite validateIP_dotted by assumption. split.
  - intros (S1 & S2 & S3 & S4). now exists o1, o2, o3, o4.
  - intros Hs.
    assert (Hv : validateIP (o1 ++ "." ++ o2 ++ "." ++ o3 ++ "." ++ o4) = true).
    { destruct Hs as (p1 & p2 & p3 & p4 & -> & S1 & S2 & S3 & S4).
      apply validateIP_dotted; try tauto;
        match goal with H : spec_octet ?p |- numeral 1 3 ?p => apply H end. }
    now apply validateIP_dotted in Hv.
Qed.

Lemma spec_ipv4_valid (s : string) : spec_ipv4 s -> validateIP s = true.
Proof.
  intros H. apply validateIP_quad; [now apply spec_ipv4_dottedQuad | assumption].
Qed.

Lemma prefixInRange (p : string) :
  numeral 1 2 p ->
  num_ge (parseInt p) 0 && num_le (parseInt p) 32 = true <->
  0 <= decimalValue 0 p <= 32.
Proof.
  intros [Hd Hl].
  rewrite parseInt_numeral; [| assumption | intros ->; simpl in Hl; lia].
  simpl. rewrite andb_true_iff, !Z.leb_le. reflexivity.
Qed.

Lemma dottedQuad_not_wildcard (a s : string) :
  dottedQuad a -> isWildcard (a ++ s) = false.
Proof.
  intros Ha. destruct (dottedQuad_head a Ha) as (c & a' & -> & Hc).
  now apply isWildcard_digit.
Qed.

Lemma includes_not_ipv4 (s : string) (c : ascii) :
  includes s c = true -> is_digit c = false -> (c =? ".")%char = false ->
  test ipv4Regex s = false.
Proof.
  intros Hi Hc Hd. destruct (test ipv4Regex s) eqn:Ht; [|reflexivity].
  apply test_ipv4Regex in Ht.
  rewrite (dottedQuad_includes s c Ht Hc Hd) in Hi. discriminate.
Qed.

Lemma dash_not_cidr (s : string) :
  includes s "-" = true -> test cidrRegex s = false.
Proof.
  intros Hi. destruct (test cidrRegex s) eqn:Ht; [|reflexivity].
  apply test_cidrRegex in Ht as (a & p & -> & Ha & [Dp _]).
  apply test_ipv4Regex in Ha.
  rewrite !includes_append in Hi.
  rewrite (dottedQuad_includes a "-" Ha), (allDigits_includes p "-" Dp) in Hi;
    try reflexivity.
  discriminate.
Qed.

Lemma includes_mid (a b : string) (c : ascii) :
  includes (a ++ String c "" ++ b) c = true.
Proof.
  rewrite includes_append. simpl. now rewrite Ascii.eqb_refl, orb_true_r.
Qed.

(** [validateIP] accepts exactly the address grammar. *)
Lemma validateIP_spec (s : string) :
  validateIP s = true <-> spec_isValidAddress s.
Proof.
  unfold spec_isValidAddress. split.
  - rewrite validateIP_unfold. unfold validateIP_body.
    destruct (isWildcard s) eqn:Hw.
    { intros _. left. now apply isWildcard_spec. }
    destruct (test ipv4Regex s) eqn:H4.
    { apply test_ipv4Regex in H4. intros H. right; left.
      apply validateIP_quad; [assumption|].
      unfold validateIP. now rewrite validateIP_fuel_quad. }
    destruct (test cidrRegex s) eqn:Hc.
    { apply test_cidrRegex in Hc as (a & p & -> & Ha & Hp).
      apply test_ipv4Regex in Ha. rewrite (split_slash a p Ha Hp).
      rewrite <- andb_assoc, andb_true_iff. intros [Hv Hr].
      apply prefixInRange in Hr; [|assumption].
      right; right; left. exists a, p. unfold spec_prefix.
      apply validateIP_quad in Hv; [|assumption]. tauto. }
    destruct (test rangeRegex s) eqn:Hr; [|discriminate].
    apply test_rangeRegex in Hr as (a & b & -> & Ha & Hb).
    apply test_ipv4Regex in Ha, Hb. rewrite (split_dash a b Ha Hb).
    rewrite andb_true_iff. intros [Va Vb].
    right; right; right. exists a, b. repeat split; now apply validateIP_quad.
  - intros [Hw | [H4 | [(a & p & -> & Ha & Hp) | (a & b & -> & Ha & Hb)]]].
    + rewrite validateIP_unfold. unfold validateIP_body.
      apply isWildcard_spec in Hw. now rewrite Hw.
    + now apply spec_ipv4_valid.
    + pose proof (spec_ipv4_dottedQuad a Ha) as Qa.
      rewrite validateIP_unfold. unfold validateIP_body.
      rewrite (dottedQuad_not_wildcard a _ Qa).
      rewrite (includes_not_ipv4 _ "/" (includes_mid a p "/")) by reflexivity.
      assert (Hc : test cidrRegex (a ++ "/" ++ p) = true).
      { apply test_cidrRegex. exists a, p.
        split; [reflexivity | split; [now apply test_ipv4Regex | apply Hp]]. }
      rewrite Hc, (split_slash a p Qa (proj1 Hp)).
      rewrite (spec_ipv4_valid a Ha). simpl.
      apply prefixInRange; apply Hp.
    + pose proof (spec_ipv4_dottedQuad a Ha) as Qa.
      pose proof (spec_ipv4_dottedQuad b Hb) as Qb.
      rewrite validateIP_unfold. unfold validateIP_body.
      rewrite (dottedQuad_not_wildcard a _ Qa).
      rewrite (includes_not_ipv4 _ "-" (includes_mid a b "-")) by reflexivity.
      rewrite (dash_not_cidr _ (includes_mid a b "-")).
      assert (Hr : test rangeRegex (a ++ "-" ++ b) = true).
      { apply test_rangeRegex. exists a, b. repeat split; now apply test_ipv4Regex. }
      rewrite Hr, (split_dash a b Qa Qb).
      now rewrite (spec_ipv4_valid a Ha), (spec_ipv4_valid b Hb).
Qed.

(** ** The equation of [validatePort] *)

Lemma includes_trimStart (s : string) (c : ascii) :
  includes s c = false -> includes (trimStart s) c = false.
Proof.
  induction s as [|x s IH]; simpl; intros H; [reflexivity|].
  apply orb_false_iff in H as [Hx Hs].
  destruct (isWhiteSpace x); [now apply IH|].
  simpl. now rewrite Hx, Hs.
Qed.

Lemma includes_trimEnd (s : string) (c : ascii) :
  includes s c = false -> includes (trimEnd s) c = false.
Proof.
  induction s as [|x s IH]; simpl; intros H; [reflexivity|].
  apply orb_false_iff in H as [Hx Hs]. specialize (IH Hs).
  destruct (trimEnd s) as [|y t].
  - destruct (isWhiteSpace x); [reflexivity|]. simpl. now rewrite Hx.
  - change (includes (String x (String y t)) c = false).
    simpl. simpl in IH. now rewrite Hx, IH.
Qed.

Lemma includes_trim (s : string) (c : ascii) :
  includes s c = false -> includes (trim s) c = false.
Proof.
  intros H. unfold trim. now apply includes_trimEnd, includes_trimStart.
Qed.

Lemma forallb_ext_In {A : Type} (f g : A -> bool) (l : list A) :
  (forall x, In x l -> f x = g x) -> forallb f l = forallb g l.
Proof.
  induction l as [|x l IH]; simpl; intros H; [reflexivity|].
  rewrite (H x) by now left. rewrite IH; [reflexivity|].
  intros y Hy. apply H. now right.
Qed.

(** On a spec without a comma [validatePort] does not call itself. *)
Lemma validatePort_fuel_token (n : nat) (port protocol : string) :
  includes port "," = false ->
  validatePort_fuel (S n) port protocol =
  validatePort_fuel 1 port protocol.
Proof.
  intros H. simpl. unfold validatePort_body. now rewrite H.
Qed.

(** [validatePort] satisfies the recursive equation of the source. *)
Theorem validatePort_unfold (port protocol : string) :
  validatePort port protocol = validatePort_body validatePort port protocol.
Proof.
  unfold validatePort at 1. destruct port as [|c s]; [reflexivity|].
  change (validatePort_fuel (S (String.length (String c s))) (String c s) protocol)
    with (validatePort_body (validatePort_fuel (S (String.length s)))
                            (String c s) protocol).
  unfold validatePort_body.
  destruct (isWildcard (String c s)); [reflexivity|].
  destruct (protocol =? "ICMP")%string; [reflexivity|].
  destruct (includes (String c s) ","); [|reflexivity].
  apply forallb_ext_In. intros t Ht.
  apply split_includes in Ht. apply includes_trim in Ht.
  unfold validatePort.
  rewrite (validatePort_fuel_token (String.length s) (trim t)) by assumption.
  now rewrite (validatePort_fuel_token (String.length (trim t)) (trim t)).
Qed.

(** ** The two matchers against their grammars *)

(** C5. [validateIP] returns true exactly on the address grammar: a wildcard
    token ([*], or [ANY] in any mix of cases), a single IPv4 address of four
    dot-separated octets (one to three digits each) in [0,255], a CIDR block
    whose address is a single IPv4 address and whose prefix (one or two
    digits) is in [0,32], or a range of two single IPv4 addresses; together
    with the examples the specification lists. *)
Theorem validateIP_accepts_the_address_grammar :
  (forall s, validateIP s = true <-> spec_isValidAddress s) /\
  validateIP "*" = true /\ validateIP "ANY" = true /\ validateIP "any" = true /\
  validateIP "10.0.0.0/24" = true /\
  validateIP "10.0.0.1-10.0.0.255" = true /\
  validateIP "256.1.1.1" = false /\
  validateIP "10.0.0.0/33" = false /\
  validateIP "10.0.0.1-999.0.0.1" = false.
Proof.
  split; [exact validateIP_spec|].
  repeat split; vm_compute; reflexivity.
Qed.

Lemma validateIP_accepts_the_address_grammar_witness :
  validateIP "192.168.100.0/24" = true /\ spec_isValidAddress "192.168.100.0/24".
Proof.
  split; [reflexivity|].
  apply (proj1 (proj1 validateIP_accepts_the_address_grammar "192.168.100.0/24")).
  reflexivity.
Defined.

(** C6. For two valid single IPv4 addresses [a] and [b], [validateIP]
    accepts the range [a-b] whatever the order of [a] and [b]: each operand
    is checked on its own and the two are never compared. *)
Theorem validateIP_range_ignores_order (a b : string) :
  spec_ipv4 a -> spec_ipv4 b -> validateIP (a ++ "-" ++ b) = true.
Proof.
  intros Ha Hb. apply validateIP_spec.
  right; right; right. now exists a, b.
Qed.

Lemma spec_ipv4_example_high : spec_ipv4 "10.0.0.255".
Proof.
  exists "10", "0", "0", "255". unfold spec_octet, numeral.
  repeat split; try reflexivity; cbn; lia.
Qed.

Lemma spec_ipv4_example_low : spec_ipv4 "10.0.0.1".
Proof.
  exists "10", "0", "0", "1". unfold spec_octet, numeral.
  repeat split; try reflexivity; cbn; lia.
Qed.

Lemma validateIP_range_ignores_order_witness :
  validateIP "10.0.0.255-10.0.0.1" = true.
Proof.
  apply (validateIP_range_ignores_order "10.0.0.255" "10.0.0.1").
  - exact spec_ipv4_example_high.
  - exact spec_ipv4_example_low.
Defined.

(** C10. On the empty string: [validateIP] returns false; [validatePort]
    returns false for every protocol other than ICMP, and true for ICMP. *)
Theorem matchers_on_the_empty_string :
  validateIP "" = false /\
  (forall p, (p =? "ICMP")%string = false -> validatePort "" p = false) /\
  validatePort "" "ICMP" = true.
Proof.
  repeat split.
  intros p Hp. rewrite validatePort_unfold. unfold validatePort_body.
  rewrite Hp. reflexivity.
Qed.

Lemma matchers_on_the_empty_string_witness : validatePort "" "TCP" = false.
Proof.
  apply (proj1 (proj2 matchers_on_the_empty_string) "TCP"). reflexivity.
Defined.

(** C4. [validatePort] accepts [22abc] for TCP, a spec that is not a
    wildcard, a list, a range or an integer: [parseInt] reads the leading
    digits and ignores what follows them.  The port grammar rejects it. *)
Theorem validatePort_accepts_trailing_garbage :
  validatePort "22abc" "TCP" = true /\ spec_isValidPort "22abc" "TCP" = false.
Proof. split; reflexivity. Qed.

(** The examples the specification lists for [validatePort] hold. *)
Lemma validatePort_examples :
  validatePort "22" "TCP" = true /\ validatePort "0" "TCP" = false /\
  validatePort "65536" "TCP" = false /\ validatePort "80,443" "TCP" = true /\
  validatePort "90-80" "TCP" = false /\
  (forall s, validatePort s "ICMP" = true).
Proof.
  repeat split. intros s. rewrite validatePort_unfold. unfold validatePort_body.
  now destruct (isWildcard s).
Qed.

(** Further specs [validatePort] accepts and the port grammar does not. *)
Lemma validatePort_lenient_examples :
  validatePort "1-2-3" "TCP" = true /\ validatePort "0x10" "TCP" = true /\
  validatePort " 22" "TCP" = true /\ validatePort "+22" "TCP" = true /\
  validatePort "80-90/tcp" "UDP" = true.
Proof. repeat split. Qed.

(** ** [validateRule] *)

Lemma trimEnd_cons_nonEmpty (c : ascii) (s : string) :
  isWhiteSpace c = false -> trimEnd (String c s) <> "".
Proof.
  intros H. simpl. rewrite H. now destruct (trimEnd s).
Qed.

Lemma blank_head (c : ascii) (s : string) :
  isWhiteSpace c = false -> blank (String c s) = false.
Proof.
  intros H. unfold blank, trim. simpl trimStart. rewrite H.
  pose proof (trimEnd_cons_nonEmpty c s H) as Hne.
  unfold nonEmpty. apply negb_false_iff, negb_true_iff.
  now apply String.eqb_neq.
Qed.

(** An address [validateIP] accepts is not blank. *)
Lemma validateIP_not_blank (s : string) :
  validateIP s = true -> blank s = false.
Proof.
  intros H. apply validateIP_spec in H.
  assert (Hq : forall a t, dottedQuad a -> blank (a ++ t) = false).
  { intros a t Ha. destruct (dottedQuad_head a Ha) as (c & a' & -> & Hc).
    apply blank_head. now apply digit_facts in Hc. }
  destruct H as [Hw | [H4 | [(a & p & -> & Ha & _) | (a & b & -> & Ha & _)]]].
  - unfold spec_wildcard, wildcardTokens in Hw. simpl in Hw.
    repeat (destruct Hw as [<- | Hw]; [reflexivity|]). contradiction.
  - rewrite <- (append_nil_r s). now apply Hq, spec_ipv4_dottedQuad.
  - now apply Hq, spec_ipv4_dottedQuad.
  - now apply Hq, spec_ipv4_dottedQuad.
Qed.

(** The error list, check by check. *)
Lemma validateRule_checks (rule : Form.RuleFormData) :
  validateRule rule =
   ((if blank (Form.name rule)
     then [{| field := "name"; message := "Rule name is required" |}]
     else []) ++
    (if blank (Form.sourceIp rule)
     then [{| field := "sourceIp"; message := "Source IP is required" |}]
     else if negb (validateIP (Form.sourceIp rule))
     then [{| field := "sourceIp"; message := "Invalid IP address format" |}]
     else []) ++
    (if blank (Form.destinationIp rule)
     then [{| field := "destinationIp"; message := "Destination IP is required" |}]
     else if negb (validateIP (Form.destinationIp rule))
     then [{| field := "destinationIp"; message := "Invalid IP address format" |}]
     else []) ++
    (if badPort (Form.sourcePort rule) (Form.protocol rule)
     then [{| field := "sourcePort"; message := "Invalid port format" |}]
     else []) ++
    (if badPort (Form.destinationPort rule) (Form.protocol rule)
     then [{| field := "destinationPort"; message := "Invalid port format" |}]
     else []))%list.
Proof.
  unfold validateRule, badPort, blank, push.
  destruct (negb (nonEmpty (trim (Form.name rule))));
  destruct (negb (nonEmpty (trim (Form.sourceIp rule))));
  destruct (negb (validateIP (Form.sourceIp rule)));
  destruct (negb (nonEmpty (trim (Form.destinationIp rule))));
  destruct (negb (validateIP (Form.destinationIp rule)));
  destruct (nonEmpty (Form.sourcePort rule)
            && negb (validatePort (Form.sourcePort rule)
                                  (protocolName (Form.protocol rule))));
  destruct (nonEmpty (Form.destinationPort rule)
            && negb (validatePort (Form.destinationPort rule)
                                  (protocolName (Form.protocol rule))));
  reflexivity.
Qed.

Lemma validateRule_empty_iff (rule : Form.RuleFormData) :
  validateRule rule = [] <-> validForm rule.
Proof.
  rewrite validateRule_checks. unfold validForm. split.
  - intros H.
    destruct (blank (Form.name rule)); [discriminate H|].
    destruct (blank (Form.sourceIp rule)); [discriminate H|].
    destruct (validateIP (Form.sourceIp rule)); [|discriminate H].
    destruct (blank (Form.destinationIp rule)); [discriminate H|].
    destruct (validateIP (Form.destinationIp rule)); [|discriminate H].
    destruct (badPort (Form.sourcePort rule) (Form.protocol rule));
      [discriminate H|].
    destruct (badPort (Form.destinationPort rule) (Form.protocol rule));
      [discriminate H|].
    repeat split.
  - intros (Hn & Hs & Hd & Hsp & Hdp).
    rewrite Hn, Hs, Hd, Hsp, Hdp.
    now rewrite (validateIP_not_blank _ Hs), (validateIP_not_blank _ Hd).
Qed.

(** C7. [validateRule] runs its five checks one after the other, none
    cutting the others short: the list it returns holds one error for each
    failing field, in the order name, source address, destination address,
    source port, destination port, with the fixed messages; it is empty
    exactly for the forms that pass every check; and for a form without a
    name it holds exactly one error whose field is [name]. *)
Theorem validateRule_collects_every_failure (rule : Form.RuleFormData) :
  validateRule rule =
   ((if blank (Form.name rule)
     then [{| field := "name"; message := "Rule name is required" |}]
     else []) ++
    (if blank (Form.sourceIp rule)
     then [{| field := "sourceIp"; message := "Source IP is required" |}]
     else if negb (validateIP (Form.sourceIp rule))
     then [{| field := "sourceIp"; message := "Invalid IP address format" |}]
     else []) ++
    (if blank (Form.destinationIp rule)
     then [{| field := "destinationIp"; message := "Destination IP is required" |}]
     else if negb (validateIP (Form.destinationIp rule))
     then [{| field := "destinationIp"; message := "Invalid IP address format" |}]
     else []) ++
    (if badPort (Form.sourcePort rule) (Form.protocol rule)
     then [{| field := "sourcePort"; message := "Invalid port format" |}]
     else []) ++
    (if badPort (Form.destinationPort rule) (Form.protocol rule)
     then [{| field := "destinationPort"; message := "Invalid port format" |}]
     else []))%list
  /\ (validateRule rule = [] <-> validForm rule)
  /\ (blank (Form.name rule) = true ->
      filter (fun e => (field e =? "name")%string) (validateRule rule)
      = [{| field := "name"; message := "Rule name is required" |}]).
Proof.
  split; [apply validateRule_checks|].
  split; [apply validateRule_empty_iff|].
  intros Hn. rewrite validateRule_checks, Hn.
  destruct (blank (Form.sourceIp rule));
  destruct (negb (validateIP (Form.sourceIp rule)));
  destruct (blank (Form.destinationIp rule));
  destruct (negb (validateIP (Form.destinationIp rule)));
  destruct (badPort (Form.sourcePort rule) (Form.protocol rule));
  destruct (badPort (Form.destinationPort rule) (Form.protocol rule));
  reflexivity.
Qed.

Lemma validateRule_collects_every_failure_witness :
  validateRule {| Form.name := "  "; Form.action := ALLOW; Form.protocol := TCP;
                  Form.sourceIp := "10.0.0.300"; Form.sourcePort := "22abc";
                  Form.destinationIp := ""; Form.destinationPort := "0";
                  Form.description := "" |}
  = [ {| field := "name"; message := "Rule name is required" |};
      {| field := "sourceIp"; message := "Invalid IP address format" |};
      {| field := "destinationIp"; message := "Destination IP is required" |};
      {| field := "destinationPort"; message := "Invalid port format" |} ]
  /\ filter (fun e => (field e =? "name")%string)
       (validateRule {| Form.name := "  "; Form.action := ALLOW;
                        Form.protocol := TCP;
                        Form.sourceIp := "10.0.0.300"; Form.sourcePort := "22abc";
                        Form.destinationIp := ""; Form.destinationPort := "0";
                        Form.description := "" |})
     = [{| field := "name"; message := "Rule name is required" |}].
Proof.
  split.
  - reflexivity.
  - apply (validateRule_collects_every_failure
             {| Form.name := "  "; Form.action := ALLOW; Form.protocol := TCP;
                Form.sourceIp := "10.0.0.300"; Form.sourcePort := "22abc";
                Form.destinationIp := ""; Form.destinationPort := "0";
                Form.description := "" |}).
    reflexivity.
Defined.

(** ** Sorting by a key *)

Section SortByKey.
Context {A : Type}.
Variable key : A -> Z.

Let cmp (a b : A) : Z := key a - key b.
Let le (a b : A) : Prop := key a <= key b.

Lemma insert_perm (x : A) (l : list A) : Permutation (insert cmp x l) (x :: l).
Proof.
  induction l as [|y l IH]; simpl; [apply Permutation_refl|].
  destruct (cmp x y <=? 0); [apply Permutation_refl|].
  eapply perm_trans; [apply perm_skip, IH | apply perm_swap].
Qed.

Lemma sort_perm (l : list A) : Permutation (sort cmp l) l.
Proof.
  induction l as [|x l IH]; simpl; [apply perm_nil|].
  eapply perm_trans; [apply insert_perm | now apply perm_skip].
Qed.

Lemma insert_sorted (x : A) (l : list A) :
  StronglySorted le l -> StronglySorted le (insert cmp x l).
Proof.
  induction l as [|y l IH]; simpl; intros Hs.
  - constructor; constructor.
  - inversion Hs as [|? ? Hl Hy]; subst.
    destruct (cmp x y <=? 0) eqn:Hxy.
    + apply Z.leb_le in Hxy. unfold cmp in Hxy.
      constructor; [assumption|].
      constructor; [unfold le; lia|].
      eapply Forall_impl; [|exact Hy]. unfold le. intros z Hz. lia.
    + apply Z.leb_gt in Hxy. unfold cmp in Hxy.
      constructor; [now apply IH|].
      eapply Permutation_Forall; [apply Permutation_sym, insert_perm|].
      constructor; [unfold le; lia | assumption].
Qed.

Lemma sort_sorted (l : list A) : StronglySorted le (sort cmp l).
Proof.
  induction l as [|x l IH]; simpl; [constructor | now apply insert_sorted].
Qed.

(** Inserting [x] leaves the elements of each key in the order they had,
    [x] before the ones equal to it. *)
Lemma insert_stable (k : Z) (x : A) (l : list A) :
  filter (fun a => key a =? k) (insert cmp x l)
  = filter (fun a => key a =? k) (x :: l).
Proof.
  induction l as [|y l IH]; [reflexivity|].
  simpl insert. destruct (cmp x y <=? 0) eqn:Hxy; [reflexivity|].
  apply Z.leb_gt in Hxy. unfold cmp in Hxy.
  simpl filter. simpl filter in IH. rewrite IH.
  destruct (key y =? k) eqn:Hy; [|reflexivity].
  apply Z.eqb_eq in Hy.
  destruct (key x =? k) eqn:Hx; [|reflexivity].
  apply Z.eqb_eq in Hx. lia.
Qed.

Lemma sort_stable (k : Z) (l : list A) :
  filter (fun a => key a =? k) (sort cmp l) = filter (fun a => key a =? k) l.
Proof.
  induction l as [|x l IH]; [reflexivity|].
  simpl sort. rewrite insert_stable. simpl. now rewrite IH.
Qed.
End SortByKey.

(** ** [exportToIptables] *)

Lemma forEach_blocks (l : list FirewallRule) (index : nat) (output : string) :
  forEach (fun output rule index => output ++ ruleBlock rule index) l index output
  = output ++ blocks l index.
Proof.
  revert index output. induction l as [|r l IH]; intros index output; simpl.
  - now rewrite append_nil_r.
  - now rewrite IH, append_assoc.
Qed.

Lemma exportToIptables_parts (now : Z) (rules : list FirewallRule) :
  exportToIptables now rules
  = preamble now (List.length (enabledRules rules))
    ++ blocks (enabledRules rules) 0 ++ trailer.
Proof.
  unfold exportToIptables. now rewrite forEach_blocks, append_assoc.
Qed.

Lemma filter_idem {A : Type} (f : A -> bool) (l : list A) :
  filter f (filter f l) = filter f l.
Proof.
  induction l as [|x l IH]; simpl; [reflexivity|].
  destruct (f x) eqn:Hx; simpl; [now rewrite Hx, IH | assumption].
Qed.

Lemma emptyScript_parts (now : Z) : preamble now 0 ++ "" ++ trailer = emptyScript now.
Proof.
  unfold preamble, trailer, emptyScript, unlines.
  generalize (isoString now) as t. intros t.
  rewrite !append_assoc. reflexivity.
Qed.

(** *** The text of the script, line by line *)

Lemma unlines_app (a b : list string) :
  unlines (a ++ b) = unlines a ++ unlines b.
Proof.
  induction a as [|line a IH]; [reflexivity|].
  simpl. now rewrite IH, !append_assoc.
Qed.

Lemma preamble_lines (now : Z) (count : nat) :
  preamble now count = unlines (scriptHeader now count ++ fixedDirectives).
Proof.
  unfold preamble, scriptHeader, fixedDirectives. cbn [app unlines].
  generalize (isoString now) as t. generalize (showNat count) as n.
  intros n t. rewrite !append_assoc. reflexivity.
Qed.

Lemma trailer_lines : trailer = unlines loggingSuggestion.
Proof. reflexivity. Qed.

Lemma address_clause (command flag value : string) :
  (if notStarOrANY value then command ++ flag ++ value else command)
  = command ++ clause flag value.
Proof.
  unfold notStarOrANY, clause.
  destruct (value =? "*")%string, (value =? "ANY")%string; cbn [negb andb orb];
    now rewrite ?append_nil_r.
Qed.

Lemma port_clause (command flag value : string) :
  (if nonEmpty value && notStarOrANY value then command ++ flag ++ value
   else command)
  = command ++ (if (value =? "")%string then "" else clause flag value).
Proof.
  unfold nonEmpty. destruct (value =? "")%string; cbn [negb andb].
  - now rewrite append_nil_r.
  - apply address_clause.
Qed.

Lemma ruleCommand_directive (rule : FirewallRule) :
  ruleCommand rule = directive rule.
Proof.
  unfold ruleCommand, directive. cbv zeta.
  rewrite !address_clause.
  destruct (protocol rule); cbn [isALL isICMP negb andb protocolName portClause
                                 protocolClause];
    rewrite ?port_clause, ?address_clause, !append_assoc; reflexivity.
Qed.

Lemma ruleBlock_lines (rule : FirewallRule) (index : nat) :
  ruleBlock rule index
  = unlines (commentLines (S index) rule ++ [directive rule; ""]).
Proof.
  unfold ruleBlock, commentLines. cbv zeta.
  rewrite Nat.add_1_r, ruleCommand_directive.
  generalize (showNat (S index)) as n. generalize (directive rule) as c.
  intros c n. unfold nonEmpty.
  destruct (description rule) as [d|]; [destruct (d =? "")%string|];
    cbn [negb app unlines]; rewrite !append_assoc; reflexivity.
Qed.

Lemma blocks_lines (l : list FirewallRule) (index : nat) :
  blocks l index = unlines (ruleLines l (S index)).
Proof.
  revert index. induction l as [|rule l IH]; intros index; [reflexivity|].
  cbn [blocks]. rewrite ruleBlock_lines, IH, <- unlines_app.
  f_equal. cbn [ruleLines]. now rewrite <- app_assoc.
Qed.

Lemma exportToIptables_script (now : Z) (rules : list FirewallRule) :
  exportToIptables now rules = unlines (scriptLines now (enabledRules rules)).
Proof.
  rewrite exportToIptables_parts, preamble_lines, blocks_lines, trailer_lines.
  unfold scriptLines. rewrite app_assoc, !unlines_app. reflexivity.
Qed.

(** C1. [exportToIptables] keeps the enabled rules and sorts them by
    ascending priority, rules of equal priority staying in their original
    order.  Its output is, line by line: the head with the time and the
    number of these rules and the fixed directives; then for each of these
    rules, in that (non-decreasing priority) order, the comment
    [# Rule i: name], numbered from 1, the comment with its description if
    it has one, its directive and an empty line; then the commented logging
    suggestion.  No disabled rule has a block and the output does not
    depend on the disabled rules; with no enabled rule the output is the
    whole preamble followed at once by the logging suggestion. *)
Theorem exportToIptables_lists_enabled_rules_by_priority
    (now : Z) (rules : list FirewallRule) :
  exportToIptables now rules
  = unlines (scriptHeader now (List.length (enabledRules rules))
             ++ fixedDirectives
             ++ ruleLines (enabledRules rules) 1
             ++ loggingSuggestion)
  /\ StronglySorted (fun a b => priority a <= priority b) (enabledRules rules)
  /\ Permutation (enabledRules rules) (filter enabled rules)
  /\ (forall p, filter (fun r => priority r =? p) (enabledRules rules)
                = filter (fun r => priority r =? p) (filter enabled rules))
  /\ Forall (fun r => enabled r = true) (enabledRules rules)
  /\ exportToIptables now rules = exportToIptables now (filter enabled rules)
  /\ (filter enabled rules = [] -> exportToIptables now rules = emptyScript now).
Proof.
  split; [apply exportToIptables_script|].
  split; [apply (sort_sorted priority)|].
  split; [apply (sort_perm priority)|].
  split; [intros p; apply (sort_stable priority)|].
  split.
  { eapply Permutation_Forall; [apply Permutation_sym, (sort_perm priority)|].
    apply Forall_forall. intros r Hr. now apply filter_In in Hr. }
  split.
  { unfold exportToIptables, enabledRules. now rewrite filter_idem. }
  intros He. rewrite exportToIptables_parts. unfold enabledRules. rewrite He.
  apply emptyScript_parts.
Qed.

Lemma exportToIptables_lists_enabled_rules_by_priority_witness :
  exportToIptables 1705737600000 (pingRule :: sampleRules)
  = unlines
      [ "#!/bin/bash";
        "# Generated Firewall Rules";
        "# Generated on: 2024-01-20T08:00:00.000Z";
        "# Total rules: 2";
        "";
        "# Flush existing rules";
        "iptables -F";
        "iptables -X";
        "iptables -t nat -F";
        "iptables -t nat -X";
        "";
        "# Set default policies";
        "iptables -P INPUT DROP";
        "iptables -P FORWARD DROP";
        "iptables -P OUTPUT ACCEPT";
        "";
        "# Allow loopback traffic";
        "iptables -A INPUT -i lo -j ACCEPT";
        "iptables -A OUTPUT -o lo -j ACCEPT";
        "";
        "# Allow established and related connections";
        "iptables -A INPUT -m state --state ESTABLISHED,RELATED -j ACCEPT";
        "";
        "# Rule 1: Allow SSH Access";
        "# Description: Allow SSH connections from any source";
        "iptables -A INPUT -p tcp --dport 22 -j ACCEPT";
        "";
        "# Rule 2: Allow Ping";
        "iptables -A INPUT -p icmp -s 10.0.0.0/8 -j ACCEPT";
        "";
        "# Log dropped packets (optional)";
        "# iptables -A INPUT -j LOG --log-prefix "
          ++ String (ascii_of_nat 34) "DROPPED: " ++ String (ascii_of_nat 34) "";
        "" ]
  /\ exportToIptables 0
       [ {| id := "r1"; name := "Off"; action := DENY; protocol := TCP;
            sourceIp := "*"; sourcePort := "*"; destinationIp := "*";
            destinationPort := "6881-6889"; priority := 5; enabled := false;
            description := None; createdAt := Some 0; updatedAt := Some 0 |} ]
     = emptyScript 0.
Proof.
  split.
  - exact (proj1 (exportToIptables_lists_enabled_rules_by_priority
                    1705737600000 (pingRule :: sampleRules))).
  - apply exportToIptables_lists_enabled_rules_by_priority. reflexivity.
Defined.

(** The scenario of the specification: priorities 5 and 2, both enabled. *)
Lemma enabledRules_scenario (r5 r2 : FirewallRule) :
  priority r5 = 5 -> priority r2 = 2 -> enabled r5 = true -> enabled r2 = true ->
  enabledRules [r5; r2] = [r2; r5].
Proof.
  intros H5 H2 E5 E2. unfold enabledRules. simpl. rewrite E5, E2. simpl.
  now rewrite H5, H2.
Qed.

(** C2. A rule whose source address is the lower-case wildcard [any], which
    [validateIP] accepts as a wildcard, is compiled with a source-match
    clause, [-s any]: the compiler leaves out the clause for [*] and [ANY]
    only, and likewise for the destination. *)
Theorem ruleCommand_emits_clause_for_lower_case_any :
  isWildcard "any" = true /\ validateIP "any" = true /\
  ruleCommand {| id := "r1"; name := "Allow SSH"; action := ALLOW;
                 protocol := TCP; sourceIp := "any"; sourcePort := "*";
                 destinationIp := "Any"; destinationPort := "22";
                 priority := 1; enabled := true; description := None;
                 createdAt := Some 0; updatedAt := Some 0 |}
  = "iptables -A INPUT -p tcp -s any -d Any --dport 22 -j ACCEPT".
Proof. repeat split. Qed.

(** The clauses are left out for [*] and [ANY]. *)
Lemma ruleCommand_star_and_ANY :
  ruleCommand {| id := "r1"; name := "Allow SSH"; action := ALLOW;
                 protocol := TCP; sourceIp := "*"; sourcePort := "*";
                 destinationIp := "ANY"; destinationPort := "22";
                 priority := 1; enabled := true; description := None;
                 createdAt := Some 0; updatedAt := Some 0 |}
  = "iptables -A INPUT -p tcp --dport 22 -j ACCEPT".
Proof. reflexivity. Qed.

(** ** Dates: [Date.parse] reads back what [toISOString] writes *)

Lemma allBelow_spec (f : Z -> bool) (n : N) :
  allBelow f n = true -> forall i, 0 <= i < Z.of_N n -> f i = true.
Proof.
  unfold allBelow.
  set (step := fun p : Z * bool => (fst p + 1, snd p && f (fst p))).
  assert (H : fst (N.iter n step (0, true)) = Z.of_N n /\
              (snd (N.iter n step (0, true)) = true ->
               forall i, 0 <= i < Z.of_N n -> f i = true)).
  { induction n as [|n IH] using N.peano_ind.
    - simpl. split; [reflexivity | intros _ i Hi; lia].
    - rewrite N.iter_succ. destruct IH as [IH1 IH2]. simpl. split; [lia|].
      intros H i Hi. apply andb_true_iff in H as [Hs Hf].
      destruct (Z.eq_dec i (Z.of_N n)) as [-> | Hne].
      + now rewrite <- IH1.
      + apply IH2; [assumption | lia]. }
  apply H.
Qed.

(** Every day of an era is checked by computation. *)
Lemma all_doeOk : allBelow doeOk 146097 = true.
Proof. vm_cast_no_check (eq_refl true). Qed.

Lemma doeOk_era (doe : Z) : 0 <= doe < 146097 -> doeOk doe = true.
Proof. apply (allBelow_spec doeOk 146097 all_doeOk). Qed.

Lemma civil_roundtrip (z : Z) :
  let '(y, m, d) := civilFromDays z in
  daysFromCivil y m d = z /\ 1 <= m <= 12 /\ 1 <= d <= 31 /\
  (z + 719468) / 146097 * 400 <= y <= (z + 719468) / 146097 * 400 + 400.
Proof.
  unfold civilFromDays.
  pose proof (Z.mod_pos_bound (z + 719468) 146097 ltac:(lia)) as Hdoe.
  pose proof (doeOk_era _ Hdoe) as Hok. unfold doeOk in Hok.
  destruct (civilOfDoe ((z + 719468) mod 146097)) as [[yoe m] d].
  rewrite !andb_true_iff in Hok.
  destruct Hok as ((((((Hr & Hy0) & Hy1) & Hm0) & Hm1) & Hd0) & Hd1).
  apply Z.eqb_eq in Hr. apply Z.leb_le in Hy0, Hm0, Hm1, Hd0, Hd1.
  apply Z.ltb_lt in Hy1.
  unfold daysFromCivil.
  set (era := (z + 719468) / 146097) in *.
  replace (yoe + era * 400 + (if m <=? 2 then 1 else 0)
           - (if m <=? 2 then 1 else 0)) with (yoe + era * 400) by lia.
  assert (He : (yoe + era * 400) / 400 = era).
  { symmetry. apply (Z.div_unique _ _ _ yoe); lia. }
  assert (Hm : (yoe + era * 400) mod 400 = yoe).
  { symmetry. apply (Z.mod_unique _ _ era); lia. }
  rewrite He, Hm, Hr.
  pose proof (Z.div_mod (z + 719468) 146097 ltac:(lia)) as Hdm.
  fold era in Hdm.
  repeat split; try lia; destruct (m <=? 2); lia.
Qed.

Lemma time_roundtrip (tm : Z) :
  0 <= tm < msPerDay ->
  MakeTime (tm / 3600000) (tm / 60000 mod 60) (tm / 1000 mod 60) (tm mod 1000) = tm
  /\ 0 <= tm / 3600000 <= 23.
Proof.
  unfold msPerDay, MakeTime. intros H.
  Z.div_mod_to_equations. lia.
Qed.

Lemma digitChar_facts (d : Z) :
  0 <= d <= 9 ->
  digitOf (digitChar d) = Some d /\
  (digitChar d =? "+")%char = false /\ (digitChar d =? "-")%char = false.
Proof.
  intros H.
  assert (Hd : d = 0 \/ d = 1 \/ d = 2 \/ d = 3 \/ d = 4 \/ d = 5 \/ d = 6 \/
               d = 7 \/ d = 8 \/ d = 9) by lia.
  repeat (destruct Hd as [-> | Hd]; [repeat split|]). subst. repeat split.
Qed.

Lemma readDigits_snoc (n : nat) (acc : Z) (s : string) :
  readDigits (S n) acc s
  = obind (readDigits n acc s) (fun p => readDigits 1 (fst p) (snd p)).
Proof.
  revert acc s. induction n as [|n IH]; intros acc s.
  - reflexivity.
  - destruct s as [|c s]; [reflexivity|].
    change (readDigits (S (S n)) acc (String c s))
      with (obind (digitOf c) (fun d => readDigits (S n) (acc * 10 + d) s)).
    change (readDigits (S n) acc (String c s))
      with (obind (digitOf c) (fun d => readDigits n (acc * 10 + d) s)).
    destruct (digitOf c) as [d|]; [|reflexivity]. simpl obind at 1 2.
    apply IH.
Qed.

Lemma readDigits_pad (n : nat) (v acc : Z) (rest : string) :
  0 <= v < 10 ^ Z.of_nat n ->
  readDigits n acc (pad n v ++ rest) = Some (acc * 10 ^ Z.of_nat n + v, rest).
Proof.
  revert v acc rest. induction n as [|n IH]; intros v acc rest Hv.
  - simpl in *. f_equal. f_equal. lia.
  - assert (Hp : 10 ^ Z.of_nat (S n) = 10 * 10 ^ Z.of_nat n).
    { rewrite Nat2Z.inj_succ. apply Z.pow_succ_r. lia. }
    rewrite Hp in *.
    assert (Hq : 0 <= v / 10 < 10 ^ Z.of_nat n).
    { clear IH Hp. remember (10 ^ Z.of_nat n) as P eqn:EP. clear EP.
      Z.div_mod_to_equations. lia. }
    assert (Hd : 0 <= v mod 10 <= 9) by (Z.div_mod_to_equations; lia).
    rewrite readDigits_snoc. simpl pad. rewrite append_assoc.
    rewrite (IH _ _ _ Hq).
    destruct (digitChar_facts _ Hd) as (Hdo & _).
    cbn [obind fst snd readDigits append]. rewrite Hdo. cbn [obind]. f_equal. f_equal.
    clear IH Hp Hq Hv Hdo. remember (10 ^ Z.of_nat n) as P eqn:EP. clear EP.
    Z.div_mod_to_equations. lia.
Qed.

Lemma pad_head (n : nat) (v : Z) (rest : string) :
  0 <= v ->
  exists d s, pad (S n) v ++ rest = String (digitChar d) s /\ 0 <= d <= 9.
Proof.
  revert v rest. induction n as [|n IH]; intros v rest Hv.
  - exists (v mod 10), rest. split; [reflexivity|].
    Z.div_mod_to_equations. lia.
  - change (pad (S (S n)) v) with (pad (S n) (v / 10) ++ String (digitChar (v mod 10)) "").
    rewrite append_assoc. apply IH. Z.div_mod_to_equations. lia.
Qed.

Lemma readYear_yearString (y : Z) (rest : string) :
  -1000000 < y < 1000000 ->
  readYear (yearString y ++ rest) = Some (y, rest).
Proof.
  intros Hy. unfold yearString.
  destruct ((0 <=? y) && (y <=? 9999)) eqn:H4.
  - apply andb_true_iff in H4 as [H0 H9]. apply Z.leb_le in H0, H9.
    destruct (pad_head 3 y rest H0) as (d & s & Hs & Hd).
    pose proof (readDigits_pad 4 y 0 rest ltac:(simpl; lia)) as Hr.
    rewrite Hs in *. unfold readYear.
    destruct (digitChar_facts d Hd) as (_ & -> & ->).
    rewrite Hr. f_equal.
  - destruct (0 <=? y) eqn:H0.
    + apply Z.leb_le in H0. simpl in H4. apply Z.leb_gt in H4.
      rewrite append_assoc. unfold readYear. cbn [append].
      rewrite Ascii.eqb_refl, readDigits_pad by (simpl; lia).
      f_equal. f_equal. lia.
    + apply Z.leb_gt in H0.
      rewrite append_assoc. unfold readYear. cbn [append].
      assert (Hpm : ("-" =? "+")%char = false) by reflexivity.
      rewrite Hpm, Ascii.eqb_refl, readDigits_pad by (simpl; lia).
      cbn [obind fst snd].
      destruct (0 * 10 ^ Z.of_nat 6 + Z.abs y =? 0) eqn:Hz;
        [apply Z.eqb_eq in Hz; lia|].
      f_equal. f_equal. lia.
Qed.

(** One step of the parser on a text whose next field is known. *)
Ltac parse_step :=
  cbn [obind expect append]; rewrite ?Ascii.eqb_refl; cbn [obind].

(** [Date.parse(new Date(t).toISOString())] is [t] for every time value a
    [Date] can hold. *)
Theorem Date_parse_isoString (t : Z) :
  Z.abs t <= 8640000000000000 -> Date_parse (isoString t) = Some t.
Proof.
  intros Ht. unfold isoString.
  pose proof (civil_roundtrip (Day t)) as Hc.
  destruct (civilFromDays (Day t)) as [[y m] d].
  destruct Hc as (Hday & Hm & Hd & Hy).
  assert (Htm : 0 <= TimeWithinDay t < msPerDay).
  { unfold TimeWithinDay, msPerDay. apply Z.mod_pos_bound. lia. }
  destruct (time_roundtrip _ Htm) as (Hmk & Hh).
  set (tm := TimeWithinDay t) in *.
  assert (Hyr : -1000000 < y < 1000000).
  { unfold Day, msPerDay in Hy. Z.div_mod_to_equations. lia. }
  assert (Hmi : 0 <= tm / 60000 mod 60 < 60) by (apply Z.mod_pos_bound; lia).
  assert (Hsec : 0 <= tm / 1000 mod 60 < 60) by (apply Z.mod_pos_bound; lia).
  assert (Hms : 0 <= tm mod 1000 < 1000) by (apply Z.mod_pos_bound; lia).
  unfold Date_parse.
  rewrite readYear_yearString by assumption. parse_step.
  do 5 (rewrite readDigits_pad by (simpl; lia); parse_step).
  rewrite readDigits_pad by (simpl; lia). parse_step.
  replace (0 * 10 ^ Z.of_nat 2 + m) with m by lia.
  replace (0 * 10 ^ Z.of_nat 2 + d) with d by lia.
  replace (0 * 10 ^ Z.of_nat 2 + tm / 3600000) with (tm / 3600000) by lia.
  replace (0 * 10 ^ Z.of_nat 2 + tm / 60000 mod 60) with (tm / 60000 mod 60) by lia.
  replace (0 * 10 ^ Z.of_nat 2 + tm / 1000 mod 60) with (tm / 1000 mod 60) by lia.
  replace (0 * 10 ^ Z.of_nat 3 + tm mod 1000) with (tm mod 1000) by lia.
  assert (Hrange : (1 <=? m) && (m <=? 12) && (1 <=? d) && (d <=? 31) &&
                   (tm / 3600000 <=? 23) && (tm / 60000 mod 60 <=? 59) &&
                   (tm / 1000 mod 60 <=? 59) = true).
  { rewrite !andb_true_iff, !Z.leb_le. repeat split; lia. }
  rewrite Hrange, Hday, Hmk.
  unfold Day, tm, TimeWithinDay.
  replace (t / msPerDay * msPerDay + t mod msPerDay) with t
    by (unfold msPerDay; Z.div_mod_to_equations; lia).
  unfold TimeClip. apply Z.leb_le in Ht. now rewrite Ht.
Qed.

(** ** The codec *)

(** Evaluation of the object operations on the keys of a record, the
    values being left alone. *)
Ltac eval_props :=
  cbn [map app fst snd toJSON lookup setProp spread bind getProp truthy
       String.eqb Ascii.eqb Bool.eqb newDate ruleObject
       id name action protocol sourceIp sourcePort destinationIp
       destinationPort priority enabled description createdAt updatedAt withId].

Lemma validDate_inv (d : Date) :
  validDate d = true -> exists t, d = Some t /\ Z.abs t <= 8640000000000000.
Proof.
  destruct d as [t|]; simpl; [|discriminate].
  intros H. apply Z.leb_le in H. now exists t.
Qed.

Lemma wellFormed_inv (r : FirewallRule) :
  wellFormed r = true ->
  nonEmpty (id r) = true /\ nonEmpty (name r) = true /\
  validDate (createdAt r) = true /\ validDate (updatedAt r) = true.
Proof.
  unfold wellFormed. rewrite !andb_true_iff. tauto.
Qed.

Lemma exportRecord_valid (r : FirewallRule) :
  validDate (createdAt r) = true -> validDate (updatedAt r) = true ->
  exportRecord r = Return (recordOf r).
Proof.
  intros Hc Hu.
  apply validDate_inv in Hc as (c & Hc & _), Hu as (u & Hu & _).
  unfold exportRecord, recordOf, toISOString. rewrite Hc, Hu.
  destruct r as [i n a p si sp di dp pr en de cr up].
  cbn [createdAt updatedAt] in Hc, Hu. subst cr up.
  destruct de; eval_props; reflexivity.
Qed.

Lemma hasRequired_record (r : FirewallRule) :
  nonEmpty (id r) = true -> nonEmpty (name r) = true ->
  hasRequired (recordOf r) = Return true.
Proof.
  intros Hi Hn. unfold hasRequired, recordOf.
  destruct r as [i n a p si sp di dp pr en de cr up].
  cbn [id name] in Hi, Hn.
  eval_props. rewrite Hi. eval_props. rewrite Hn. eval_props.
  now destruct a.
Qed.

Lemma importRecord_record (newId : string) (r : FirewallRule) :
  validDate (createdAt r) = true -> validDate (updatedAt r) = true ->
  importRecord newId (recordOf r) = Return (ruleObject (withId newId r)).
Proof.
  intros Hc Hu.
  apply validDate_inv in Hc as (c & Hc & Bc), Hu as (u & Hu & Bu).
  unfold importRecord, recordOf.
  destruct r as [i n a p si sp di dp pr en de cr up].
  cbn [createdAt updatedAt] in Hc, Hu. subst cr up.
  destruct de; eval_props;
    now rewrite (Date_parse_isoString c Bc), (Date_parse_isoString u Bu).
Qed.

Lemma mapM_exportRecord (rs : list FirewallRule) :
  forallb wellFormed rs = true ->
  mapM exportRecord rs = Return (map recordOf rs).
Proof.
  induction rs as [|r rs IH]; simpl; intros H; [reflexivity|].
  apply andb_true_iff in H as [Hr Hrs].
  apply wellFormed_inv in Hr as (_ & _ & Hc & Hu).
  now rewrite (exportRecord_valid r Hc Hu), (IH Hrs).
Qed.

Lemma filterM_records (rs : list FirewallRule) :
  forallb wellFormed rs = true ->
  filterM hasRequired (map recordOf rs) = Return (map recordOf rs).
Proof.
  induction rs as [|r rs IH]; simpl; intros H; [reflexivity|].
  apply andb_true_iff in H as [Hr Hrs].
  apply wellFormed_inv in Hr as (Hi & Hn & _ & _).
  now rewrite (hasRequired_record r Hi Hn), (IH Hrs).
Qed.

Lemma importRecords_records (ids : nat -> string) (k : nat)
                            (rs : list FirewallRule) :
  forallb wellFormed rs = true ->
  importRecords ids k (map recordOf rs)
  = Return (map ruleObject (withIds ids k rs)).
Proof.
  revert k. induction rs as [|r rs IH]; intros k H; [reflexivity|].
  simpl in H. apply andb_true_iff in H as [Hr Hrs].
  apply wellFormed_inv in Hr as (_ & _ & Hc & Hu).
  cbn [map importRecords withIds].
  now rewrite (importRecord_record _ r Hc Hu), (IH _ Hrs).
Qed.

Lemma withIds_length (ids : nat -> string) (k : nat) (rs : list FirewallRule) :
  List.length (withIds ids k rs) = List.length rs.
Proof.
  revert k. induction rs as [|r rs IH]; intros k; simpl; [reflexivity|].
  now rewrite IH.
Qed.

Lemma withIds_sameButId (ids : nat -> string) (k : nat) (rs : list FirewallRule) :
  Forall2 sameButId rs (withIds ids k rs).
Proof.
  revert k. induction rs as [|r rs IH]; intros k; simpl; constructor.
  - unfold sameButId. simpl. repeat split.
  - apply IH.
Qed.

(** C3. For a collection [rs] of well-formed rules, decoding the document
    [exportToJSON] writes for [rs] yields as many rule objects, in the same
    order, each the object of the rule of [rs] at its place under a fresh
    identifier: name, action, protocol, addresses, ports, priority, enabled
    flag, description and the two timestamps are those of [rs]. *)
Theorem decode_encode_roundtrip
    (now : Z) (ids : nat -> string) (rs : list FirewallRule) :
  forallb wellFormed rs = true ->
  exists doc,
    exportToJSON now rs = Return doc /\
    decodeRules ids doc = Return (map ruleObject (withIds ids 0 rs)) /\
    List.length (withIds ids 0 rs) = List.length rs /\
    Forall2 sameButId rs (withIds ids 0 rs).
Proof.
  intros H. unfold exportToJSON. rewrite (mapM_exportRecord rs H).
  eexists. split; [reflexivity|]. split.
  - unfold decodeRules, JSON_stringify, JSON_parse, importedRules.
    eval_props. rewrite (filterM_records rs H). eval_props.
    apply importRecords_records, H.
  - split; [apply withIds_length | apply withIds_sameButId].
Qed.

Lemma decode_encode_roundtrip_witness :
  exists doc,
    exportToJSON 1705737600000 sampleRules = Return doc /\
    decodeRules exampleIds doc
    = Return (map ruleObject (withIds exampleIds 0 sampleRules)) /\
    List.length (withIds exampleIds 0 sampleRules) = List.length sampleRules /\
    Forall2 sameButId sampleRules (withIds exampleIds 0 sampleRules).
Proof.
  apply (decode_encode_roundtrip 1705737600000 exampleIds sampleRules).
  reflexivity.
Defined.

Lemma hasRequired_object (props : list (string * json)) :
  hasRequired (JObj props) = Return (hasIdNameAction (JObj props)).
Proof.
  unfold hasRequired, hasIdNameAction, getProp, bind.
  destruct (truthy (lookup "id" props)); [|reflexivity].
  destruct (truthy (lookup "name" props)); reflexivity.
Qed.

(** Only an object passes the filter of [handleImport]. *)
Lemma hasRequired_only_objects (rule : json) :
  hasRequired rule = Return true -> isObject rule = true.
Proof. destruct rule; simpl; intros H; solve [reflexivity | discriminate H]. Qed.

(** The filter raises an exception on [null] only. *)
Lemma filterM_hasRequired (records : list json) :
  existsb isNull records = false ->
  filterM hasRequired records = Return (filter hasIdNameAction records).
Proof.
  induction records as [|r rs IH]; simpl; intros H; [reflexivity|].
  apply orb_false_iff in H as [Hr Hrs]. rewrite (IH Hrs).
  destruct r; try discriminate Hr; try reflexivity.
  rewrite hasRequired_object. reflexivity.
Qed.

Lemma filter_hasIdNameAction_objects (records : list json) :
  forallb isObject (filter hasIdNameAction records) = true.
Proof.
  induction records as [|r rs IH]; simpl; [reflexivity|].
  destruct (hasIdNameAction r) eqn:Hr; [|assumption].
  simpl. rewrite IH. now destruct r.
Qed.

Lemma importRecords_objects (ids : nat -> string) (k : nat) (l : list json) :
  forallb isObject l = true ->
  exists imported,
    importRecords ids k l = Return imported /\
    List.length imported = List.length l.
Proof.
  revert k. induction l as [|r l IH]; intros k H.
  - now exists [].
  - simpl in H. apply andb_true_iff in H as [Hr Hl].
    destruct (IH (S k) Hl) as (imported & Hi & Hlen).
    destruct r; try discriminate Hr.
    cbn [importRecords importRecord getProp bind]. rewrite Hi.
    eexists. split; [reflexivity|]. simpl. now rewrite Hlen.
Qed.

(** C8, as the code has it. A payload that is not a list is answered with
    the invalid-format alert and nothing is imported; of a list of records
    (none of them [null]), those missing [id], [name] or [action] are left
    out and the others are imported, and the alert reports how many were
    imported, or that there was no valid rule. The number of records in the
    document is not reported. For one complete record and one without
    [action], one rule is imported. *)
Theorem handleImport_reports_accepted_count
    (ids : nat -> string) (prev : list object) :
  (forall text, handleImport ids (NotJSON text) prev = (prev, alertInvalid)) /\
  (forall parsed payload,
      importedRules parsed = Return payload -> isArray payload = false ->
      handleImport ids (Doc parsed) prev = (prev, alertInvalid)) /\
  (forall parsed records,
      importedRules parsed = Return (Some (JArr records)) ->
      existsb isNull records = false ->
      exists imported,
        importRecords ids 0 (filter hasIdNameAction records) = Return imported /\
        List.length imported = List.length (filter hasIdNameAction records) /\
        handleImport ids (Doc parsed) prev
        = if (List.length imported =? 0)%nat then (prev, alertNoValidRules)
          else ((prev ++ imported)%list, alertImported (List.length imported))) /\
  handleImport ids (wrapped [completeRecord; recordWithoutAction]) prev
  = ((prev ++
      [[ ("id", J (JStr (ids 0%nat))); ("name", J (JStr "Allow SSH Access"));
         ("action", J (JStr "ALLOW")); ("protocol", J (JStr "TCP"));
         ("sourceIp", J (JStr "*")); ("sourcePort", J (JStr "*"));
         ("destinationIp", J (JStr "*")); ("destinationPort", J (JStr "22"));
         ("priority", J (JNum 1)); ("enabled", J (JBool true));
         ("createdAt", D (Some 1705314600000));
         ("updatedAt", D (Some 1705314600000)) ]])%list,
     alertImported 1).
Proof.
  repeat split.
  - intros parsed payload Hp Ha.
    unfold handleImport, decodeRules, JSON_parse, bind. rewrite Hp.
    destruct payload as [[| | | | |]|]; try reflexivity. discriminate Ha.
  - intros parsed records Hp Ho.
    destruct (importRecords_objects ids 0 (filter hasIdNameAction records))
      as (imported & Hi & Hlen); [apply filter_hasIdNameAction_objects|].
    exists imported. split; [assumption|]. split; [assumption|].
    unfold handleImport, decodeRules, JSON_parse, bind. rewrite Hp.
    rewrite (filterM_hasRequired records Ho), Hi. reflexivity.
Qed.

Lemma handleImport_reports_accepted_count_witness :
  exists imported,
    importRecords exampleIds 0
      (filter hasIdNameAction [completeRecord; recordWithoutAction])
    = Return imported /\
    List.length imported
    = List.length (filter hasIdNameAction [completeRecord; recordWithoutAction]) /\
    handleImport exampleIds (Doc (JArr [completeRecord; recordWithoutAction])) []
    = if (List.length imported =? 0)%nat then ([], alertNoValidRules)
      else (([] ++ imported)%list, alertImported (List.length imported)).
Proof.
  apply (proj1 (proj2 (proj2 (handleImport_reports_accepted_count exampleIds []))));
    reflexivity.
Defined.

(** A [null] among the records makes the whole import fail. *)
Lemma handleImport_null_record (ids : nat -> string) (prev : list object) :
  handleImport ids (wrapped [completeRecord; JNull]) prev = (prev, alertInvalid).
Proof. reflexivity. Qed.

(** C8, as it is stated, fails: what [handleImport] does with a document of
    two records, one of them without [action], is what it does with a
    document of the complete record alone, so that no count of the records
    present, 2 for the one and 1 for the other, can be read off it. *)
Lemma handleImport_total_not_reported :
  ~ exists report : list object * string -> nat,
      report (handleImport exampleIds
                (wrapped [completeRecord; recordWithoutAction]) []) = 2%nat /\
      report (handleImport exampleIds (wrapped [completeRecord]) []) = 1%nat.
Proof.
  intros (report & H2 & H1).
  assert (Heq : handleImport exampleIds
                  (wrapped [completeRecord; recordWithoutAction]) []
                = handleImport exampleIds (wrapped [completeRecord]) [])
    by reflexivity.
  rewrite Heq, H1 in H2. discriminate H2.
Qed.

(** C9. A record whose timestamps are the text [not a date] is imported:
    the alert reports one imported rule and the rule object holds the
    Invalid Date twice. Exporting that rule afterwards raises the RangeError
    of [toISOString]. *)
Theorem handleImport_accepts_unparsable_timestamp :
  Date_parse "not a date" = None /\
  handleImport exampleIds (wrapped [recordWithBadDates]) []
  = ([[ ("id", J (JStr "id0")); ("name", J (JStr "Block P2P Traffic"));
        ("action", J (JStr "DENY")); ("protocol", J (JStr "TCP"));
        ("sourceIp", J (JStr "*")); ("sourcePort", J (JStr "*"));
        ("destinationIp", J (JStr "*"));
        ("destinationPort", J (JStr "6881-6889"));
        ("priority", J (JNum 5)); ("enabled", J (JBool false));
        ("createdAt", D None); ("updatedAt", D None) ]],
     "Successfully imported 1 rule(s)") /\
  [ruleObject ruleWithBadDates]
  = fst (handleImport exampleIds (wrapped [recordWithBadDates]) []) /\
  exportToJSON 1705737600000 [ruleWithBadDates] = Throws.
Proof. repeat split. Qed.

(** ** [validatePort] accepts the port grammar

    The divergence of [validatePort] from the port grammar is one-sided:
    whatever the grammar accepts, [validatePort] accepts. *)

Lemma trimEnd_digits (s : string) : allDigits s = true -> trimEnd s = s.
Proof.
  induction s as [|c s IH]; simpl; intros H; [reflexivity|].
  apply andb_true_iff in H as [Hc Hs]. rewrite (IH Hs).
  destruct s; [|reflexivity].
  apply digit_facts in Hc as (-> & _). reflexivity.
Qed.

Lemma trim_digits (s : string) : allDigits s = true -> trim s = s.
Proof.
  intros H. unfold trim. destruct s as [|c s]; [reflexivity|].
  pose proof H as H'. simpl in H'. apply andb_true_iff in H' as [Hc _].
  rewrite (trimStart_digit c s Hc). now apply trimEnd_digits.
Qed.

Lemma split_single (sep : ascii) (s a : string) :
  split sep s = [a] -> includes s sep = false /\ a = s.
Proof.
  revert a. induction s as [|c s IH]; simpl; intros a H.
  - injection H as <-. now split.
  - destruct (c =? sep)%char.
    + injection H as _ H. now apply split_not_nil in H.
    + destruct (split sep s) as [|h [|h' l]] eqn:Hs.
      * now apply split_not_nil in Hs.
      * injection H as <-. destruct (IH h eq_refl) as [Hi ->]. now split.
      * discriminate H.
Qed.

Lemma split_pair (sep : ascii) (s a b : string) :
  split sep s = [a; b] -> includes s sep = true.
Proof.
  intros H. destruct (includes s sep) eqn:Hi; [reflexivity|].
  rewrite (split_no_sep sep s Hi) in H. discriminate H.
Qed.

Lemma spec_portNumber_parseInt (a : string) (x : Z) :
  spec_portNumber a = Some x ->
  parseInt (trim a) = Some x /\ 1 <= x <= 65535 /\ trim a = a.
Proof.
  unfold spec_portNumber.
  destruct (allDigits a && nonEmpty a) eqn:Hd; [|discriminate].
  apply andb_true_iff in Hd as [Hd Hn].
  destruct ((1 <=? decimalValue 0 a) && (decimalValue 0 a <=? 65535)) eqn:Hr;
    [|discriminate].
  intros H. injection H as <-.
  apply andb_true_iff in Hr as [H1 H2]. apply Z.leb_le in H1, H2.
  rewrite (trim_digits a Hd). split; [|split; [lia | reflexivity]].
  apply parseInt_numeral; [assumption|].
  intros ->. discriminate Hn.
Qed.

Lemma spec_wildcardb_isWildcard (s : string) : spec_wildcardb s = isWildcard s.
Proof.
  destruct (isWildcard s) eqn:Hw.
  - apply isWildcard_spec in Hw. unfold spec_wildcardb.
    apply existsb_exists. exists s. split; [assumption | apply String.eqb_refl].
  - destruct (spec_wildcardb s) eqn:Hs; [|reflexivity].
    unfold spec_wildcardb in Hs. apply existsb_exists in Hs as (t & Ht & He).
    apply String.eqb_eq in He. subst t.
    apply isWildcard_spec in Ht. congruence.
Qed.

Lemma spec_portToken_sound (u protocol : string) :
  includes u "," = false -> spec_portToken u = true ->
  validatePort u protocol = true.
Proof.
  intros Hc Ht. rewrite validatePort_unfold. unfold validatePort_body.
  unfold spec_portToken in Ht. rewrite spec_wildcardb_isWildcard in Ht.
  destruct (isWildcard u); [reflexivity|].
  destruct (protocol =? "ICMP")%string; [reflexivity|].
  rewrite Hc.
  destruct (split "-" u) as [|a [|b [|c l]]] eqn:Hs; try discriminate Ht.
  - destruct (split_single _ _ _ Hs) as [Hi ->]. rewrite Hi.
    destruct (spec_portNumber u) as [x|] eqn:Hx; [|discriminate Ht].
    apply spec_portNumber_parseInt in Hx as (Hp & Hr & Htr).
    rewrite Htr in Hp. unfold portNumberOk. rewrite Hp. simpl.
    rewrite andb_true_iff, !Z.leb_le. lia.
  - rewrite (split_pair _ _ _ _ Hs). unfold portRangeOk. rewrite Hs.
    destruct (spec_portNumber a) as [x|] eqn:Hx; [|discriminate Ht].
    destruct (spec_portNumber b) as [y|] eqn:Hy; [|discriminate Ht].
    apply spec_portNumber_parseInt in Hx as (Hpa & Hra & _), Hy as (Hpb & Hrb & _).
    apply Z.leb_le in Ht.
    cbn [map]. rewrite Hpa, Hpb. simpl.
    rewrite !andb_true_iff, !Z.leb_le. lia.
Qed.

Theorem validatePort_accepts_the_port_grammar (s protocol : string) :
  spec_isValidPort s protocol = true -> validatePort s protocol = true.
Proof.
  unfold spec_isValidPort. rewrite spec_wildcardb_isWildcard. intros H.
  destruct (isWildcard s) eqn:Hw.
  { rewrite validatePort_unfold. unfold validatePort_body. now rewrite Hw. }
  destruct (protocol =? "ICMP")%string eqn:Hp.
  { rewrite validatePort_unfold. unfold validatePort_body. now rewrite Hw, Hp. }
  destruct (includes s ",") eqn:Hc.
  - rewrite validatePort_unfold. unfold validatePort_body. rewrite Hw, Hp, Hc.
    rewrite forallb_forall in *. intros t Ht.
    apply spec_portToken_sound; [|now apply H].
    now apply includes_trim, (split_includes "," s).
  - now apply spec_portToken_sound.
Qed.

(** * Further properties of the engine and of the application *)

(** ** The matchers *)

Lemma addressChars_append (a b : string) :
  addressChars (a ++ b) = addressChars a && addressChars b.
Proof.
  induction a as [|c a IH]; simpl; [reflexivity|].
  now rewrite IH, andb_assoc.
Qed.

Lemma allDigits_addressChars (s : string) :
  allDigits s = true -> addressChars s = true.
Proof.
  induction s as [|c s IH]; simpl; intros H; [reflexivity|].
  apply andb_true_iff in H as [Hc Hs]. unfold addressChar.
  now rewrite Hc, (IH Hs).
Qed.

Lemma dottedQuad_addressChars (s : string) :
  dottedQuad s -> addressChars s = true.
Proof.
  intros (o1 & o2 & o3 & o4 & -> & [D1 _] & [D2 _] & [D3 _] & [D4 _]).
  rewrite !addressChars_append.
  rewrite (allDigits_addressChars o1 D1), (allDigits_addressChars o2 D2),
          (allDigits_addressChars o3 D3), (allDigits_addressChars o4 D4).
  reflexivity.
Qed.

(** X1. An address [validateIP] accepts is a wildcard token or is made of
    digits, dots, slashes and dashes only: no white space, no letter and no
    shell character gets through. *)
Theorem validateIP_accepts_plain_text_only (s : string) :
  validateIP s = true -> isWildcard s = true \/ addressChars s = true.
Proof.
  intros H. apply validateIP_spec in H.
  destruct H as [Hw | [H4 | [(a & p & -> & Ha & Hp) | (a & b & -> & Ha & Hb)]]].
  - left. now apply isWildcard_spec.
  - right. now apply dottedQuad_addressChars, spec_ipv4_dottedQuad.
  - right. rewrite !addressChars_append.
    rewrite (dottedQuad_addressChars a (spec_ipv4_dottedQuad a Ha)).
    destruct Hp as [[Dp _] _]. rewrite (allDigits_addressChars p Dp). reflexivity.
  - right. rewrite !addressChars_append.
    rewrite (dottedQuad_addressChars a (spec_ipv4_dottedQuad a Ha)).
    rewrite (dottedQuad_addressChars b (spec_ipv4_dottedQuad b Hb)). reflexivity.
Qed.

Lemma validateIP_accepts_plain_text_only_witness :
  isWildcard "192.168.100.0/24" = true \/ addressChars "192.168.100.0/24" = true.
Proof.
  apply (validateIP_accepts_plain_text_only "192.168.100.0/24"). reflexivity.
Defined.

Lemma numeral_not_wildcard (a s : string) :
  allDigits a = true -> a <> "" -> isWildcard (a ++ s) = false.
Proof.
  intros Hd Hne. destruct a as [|c a]; [contradiction|].
  simpl in Hd. apply andb_true_iff in Hd as [Hc _].
  now apply isWildcard_digit.
Qed.

(** X2. For a protocol other than ICMP, a port spec that is a decimal
    numeral is valid exactly when its value is from 1 to 65535; leading
    zeros do not matter. *)
Theorem validatePort_number (a protocol : string) :
  allDigits a = true -> a <> "" -> (protocol =? "ICMP")%string = false ->
  validatePort a protocol
  = (1 <=? decimalValue 0 a) && (decimalValue 0 a <=? 65535).
Proof.
  intros Hd Hne Hp. rewrite validatePort_unfold. unfold validatePort_body.
  rewrite <- (append_nil_r a) at 1.
  rewrite (numeral_not_wildcard a "" Hd Hne), Hp.
  rewrite !(allDigits_includes a) by (assumption || reflexivity).
  unfold portNumberOk. now rewrite (parseInt_numeral a Hd Hne).
Qed.

Lemma validatePort_number_witness :
  validatePort "00443" "TCP"
  = (1 <=? decimalValue 0 "00443") && (decimalValue 0 "00443" <=? 65535).
Proof.
  apply (validatePort_number "00443" "TCP"); [reflexivity | discriminate | reflexivity].
Defined.

(** X3. For a protocol other than ICMP, a range of two decimal numerals is
    valid exactly when both ends are from 1 to 65535 and the first is not
    above the second. *)
Theorem validatePort_range (a b protocol : string) :
  allDigits a = true -> a <> "" -> allDigits b = true -> b <> "" ->
  (protocol =? "ICMP")%string = false ->
  validatePort (a ++ "-" ++ b) protocol = true <->
  1 <= decimalValue 0 a /\ decimalValue 0 a <= decimalValue 0 b /\
  decimalValue 0 b <= 65535.
Proof.
  intros Da Na Db Nb Hp. rewrite validatePort_unfold. unfold validatePort_body.
  rewrite (numeral_not_wildcard a _ Da Na), Hp.
  assert (Hc : includes (a ++ "-" ++ b) "," = false).
  { rewrite !includes_append.
    rewrite (allDigits_includes a "," Da eq_refl),
            (allDigits_includes b "," Db eq_refl). reflexivity. }
  rewrite Hc, (includes_mid a b "-").
  unfold portRangeOk.
  rewrite split_sep, split_no_sep
    by (apply allDigits_includes; assumption || reflexivity).
  cbn [map]. rewrite (trim_digits a Da), (trim_digits b Db).
  rewrite (parseInt_numeral a Da Na), (parseInt_numeral b Db Nb).
  simpl. rewrite !andb_true_iff, !Z.leb_le. lia.
Qed.

Lemma validatePort_range_witness :
  validatePort "6881-6889" "TCP" = true <->
  1 <= decimalValue 0 "6881" /\ decimalValue 0 "6881" <= decimalValue 0 "6889" /\
  decimalValue 0 "6889" <= 65535.
Proof.
  apply (validatePort_range "6881" "6889" "TCP");
    solve [reflexivity | discriminate].
Defined.

Lemma isWildcard_no_comma (s : string) :
  isWildcard s = true -> includes s "," = false.
Proof.
  intros H. apply isWildcard_spec in H.
  unfold spec_wildcard, wildcardTokens in H. simpl in H.
  repeat (destruct H as [<- | H]; [reflexivity|]). contradiction.
Qed.

(** X4. For a protocol other than ICMP, a comma-separated list one of whose
    tokens is empty or blank is invalid: a trailing, a leading or a doubled
    comma is never accepted. *)
Theorem validatePort_blank_token (port protocol t : string) :
  (protocol =? "ICMP")%string = false ->
  includes port "," = true ->
  In t (split "," port) -> trim t = "" ->
  validatePort port protocol = false.
Proof.
  intros Hp Hc Ht Hb. rewrite validatePort_unfold. unfold validatePort_body.
  destruct (isWildcard port) eqn:Hw.
  { apply isWildcard_no_comma in Hw. congruence. }
  rewrite Hp, Hc.
  destruct (forallb _ (split "," port)) eqn:Hf; [|reflexivity].
  rewrite forallb_forall in Hf. specialize (Hf t Ht). rewrite Hb in Hf.
  rewrite validatePort_unfold in Hf. unfold validatePort_body in Hf.
  rewrite Hp in Hf. discriminate Hf.
Qed.

Lemma validatePort_blank_token_witness : validatePort "80,443, " "TCP" = false.
Proof.
  apply (validatePort_blank_token "80,443, " "TCP" " ");
    [reflexivity | reflexivity | simpl; tauto | reflexivity].
Defined.

(** ** [validateRule] and [getFieldError] *)

(** X5. For an ICMP form [validateRule] reports no port error, whatever the
    port fields hold. *)
Theorem validateRule_ICMP_no_port_error (rule : Form.RuleFormData) :
  Form.protocol rule = ICMP ->
  forall e, In e (validateRule rule) ->
            field e <> "sourcePort" /\ field e <> "destinationPort".
Proof.
  intros Hp e He. rewrite validateRule_checks in He.
  assert (Hb : forall port, badPort port (Form.protocol rule) = false).
  { intros port. unfold badPort. rewrite Hp.
    destruct validatePort_examples as (_ & _ & _ & _ & _ & Hicmp).
    simpl protocolName. now rewrite Hicmp, andb_false_r. }
  rewrite !Hb, !app_nil_r in He.
  apply in_app_or in He as [He | He];
    [|apply in_app_or in He as [He | He]].
  - destruct (blank (Form.name rule)); simpl in He; [|contradiction].
    destruct He as [<- | []]. split; discriminate.
  - destruct (blank (Form.sourceIp rule)); simpl in He.
    + destruct He as [<- | []]. split; discriminate.
    + destruct (validateIP (Form.sourceIp rule)); simpl in He; [contradiction|].
      destruct He as [<- | []]. split; discriminate.
  - destruct (blank (Form.destinationIp rule)); simpl in He.
    + destruct He as [<- | []]. split; discriminate.
    + destruct (validateIP (Form.destinationIp rule)); simpl in He;
        [contradiction|].
      destruct He as [<- | []]. split; discriminate.
Qed.

Lemma validateRule_ICMP_no_port_error_witness :
  Forall (fun e => field e <> "sourcePort" /\ field e <> "destinationPort")
    (validateRule {| Form.name := "Ping"; Form.action := ALLOW;
                     Form.protocol := ICMP;
                     Form.sourceIp := "10.0.0.300"; Form.sourcePort := "x";
                     Form.destinationIp := "*"; Form.destinationPort := "0";
                     Form.description := "" |}).
Proof.
  apply Forall_forall.
  apply (validateRule_ICMP_no_port_error
           {| Form.name := "Ping"; Form.action := ALLOW; Form.protocol := ICMP;
              Form.sourceIp := "10.0.0.300"; Form.sourcePort := "x";
              Form.destinationIp := "*"; Form.destinationPort := "0";
              Form.description := "" |}).
  reflexivity.
Defined.

(** X6. The message [getFieldError] finds for a field among the errors of
    [validateRule] is the message of the check of that field, and there is
    one exactly when the check fails; for any other field there is none. *)
Theorem getFieldError_validateRule (rule : Form.RuleFormData) :
  getFieldError (validateRule rule) "name"
  = (if blank (Form.name rule) then Some "Rule name is required" else None) /\
  getFieldError (validateRule rule) "sourceIp"
  = (if blank (Form.sourceIp rule) then Some "Source IP is required"
     else if validateIP (Form.sourceIp rule) then None
     else Some "Invalid IP address format") /\
  getFieldError (validateRule rule) "destinationIp"
  = (if blank (Form.destinationIp rule) then Some "Destination IP is required"
     else if validateIP (Form.destinationIp rule) then None
     else Some "Invalid IP address format") /\
  getFieldError (validateRule rule) "sourcePort"
  = (if badPort (Form.sourcePort rule) (Form.protocol rule)
     then Some "Invalid port format" else None) /\
  getFieldError (validateRule rule) "destinationPort"
  = (if badPort (Form.destinationPort rule) (Form.protocol rule)
     then Some "Invalid port format" else None) /\
  getFieldError (validateRule rule) "description" = None /\
  getFieldError (validateRule rule) "action" = None /\
  getFieldError (validateRule rule) "protocol" = None.
Proof.
  rewrite validateRule_checks.
  destruct (blank (Form.name rule));
  destruct (blank (Form.sourceIp rule));
  destruct (validateIP (Form.sourceIp rule));
  destruct (blank (Form.destinationIp rule));
  destruct (validateIP (Form.destinationIp rule));
  destruct (badPort (Form.sourcePort rule) (Form.protocol rule));
  destruct (badPort (Form.destinationPort rule) (Form.protocol rule));
  repeat split.
Qed.

(** ** The compile order *)

Section SortFacts.
Context {A : Type}.
Variable key : A -> Z.

Let cmp (a b : A) : Z := key a - key b.
Let le (a b : A) : Prop := key a <= key b.

Lemma insert_head (x : A) (l : list A) :
  Forall (le x) l -> insert cmp x l = x :: l.
Proof.
  intros H. destruct l as [|y l]; [reflexivity|].
  inversion H as [|? ? Hy _]; subst. simpl.
  unfold le in Hy. unfold cmp.
  destruct (key x - key y <=? 0) eqn:E; [reflexivity|].
  apply Z.leb_gt in E. lia.
Qed.

(** Inserting into a sorted list and filtering commute. *)
Lemma insert_filter (p : A -> bool) (x : A) (l : list A) :
  StronglySorted le l ->
  filter p (insert cmp x l)
  = if p x then insert cmp x (filter p l) else filter p l.
Proof.
  induction l as [|y l IH]; intros Hs.
  - simpl. now destruct (p x).
  - inversion Hs as [|? ? Hl Hy]; subst. specialize (IH Hl).
    simpl insert. destruct (cmp x y <=? 0) eqn:E.
    + apply Z.leb_le in E. unfold cmp in E.
      simpl filter. destruct (p x) eqn:Px; [|reflexivity].
      destruct (p y) eqn:Py.
      * simpl. fold cmp. unfold cmp at 1.
        destruct (key x - key y <=? 0) eqn:E'; [reflexivity|].
        apply Z.leb_gt in E'. lia.
      * symmetry. apply insert_head.
        apply Forall_forall. intros z Hz. apply filter_In in Hz as [Hz _].
        rewrite Forall_forall in Hy. specialize (Hy z Hz).
        unfold le in *. lia.
    + apply Z.leb_gt in E. unfold cmp in E.
      simpl filter. rewrite IH.
      destruct (p x) eqn:Px, (p y) eqn:Py; try reflexivity.
      simpl. unfold cmp at 2.
      destruct (key x - key y <=? 0) eqn:E'; [|reflexivity].
      apply Z.leb_le in E'. lia.
Qed.

(** Sorting and filtering commute: the sort is stable. *)
Lemma sort_filter (p : A -> bool) (l : list A) :
  sort cmp (filter p l) = filter p (sort cmp l).
Proof.
  induction l as [|x l IH]; [reflexivity|].
  simpl sort. rewrite insert_filter by apply (sort_sorted key).
  simpl filter. destruct (p x); [|assumption].
  simpl sort. now rewrite IH.
Qed.

Lemma insert_app_last (x y : A) (s : list A) :
  key y <= key x -> insert cmp y (s ++ [x]) = (insert cmp y s ++ [x])%list.
Proof.
  intros H. induction s as [|z s IH]; simpl.
  - unfold cmp. destruct (key y - key x <=? 0) eqn:E; [reflexivity|].
    apply Z.leb_gt in E. lia.
  - destruct (cmp y z <=? 0); [reflexivity|]. now rewrite IH.
Qed.

(** An element whose key is not below any other, added last, is sorted
    last. *)
Lemma sort_app_last (x : A) (l : list A) :
  Forall (fun y => key y <= key x) l ->
  sort cmp (l ++ [x]) = (sort cmp l ++ [x])%list.
Proof.
  induction l as [|y l IH]; intros H; [reflexivity|].
  inversion H as [|? ? Hy Hl]; subst.
  simpl. rewrite (IH Hl). now apply insert_app_last.
Qed.

Lemma key_injective_in (x y : A) (l : list A) :
  NoDup (map key l) -> In x l -> In y l -> key x = key y -> x = y.
Proof.
  induction l as [|z l IH]; simpl; intros Hn Hx Hy Hk; [contradiction|].
  inversion Hn as [|? ? Hz Hl]; subst.
  destruct Hx as [-> | Hx], Hy as [-> | Hy].
  - reflexivity.
  - exfalso. apply Hz. rewrite Hk. now apply in_map.
  - exfalso. apply Hz. rewrite <- Hk. now apply in_map.
  - now apply IH.
Qed.

(** Two sorted lists with the same elements, no two of which share a key,
    are the same list. *)
Lemma sorted_unique (l1 l2 : list A) :
  StronglySorted le l1 -> StronglySorted le l2 -> Permutation l1 l2 ->
  NoDup (map key l1) -> l1 = l2.
Proof.
  revert l2. induction l1 as [|x l1 IH]; intros l2 S1 S2 HP Hn.
  - now apply Permutation_nil in HP.
  - destruct l2 as [|y l2].
    { apply Permutation_sym, Permutation_nil in HP. discriminate. }
    inversion S1 as [|? ? S1' F1]; subst.
    inversion S2 as [|? ? S2' F2]; subst.
    assert (Hy : In y (x :: l1)).
    { apply (Permutation_in y (Permutation_sym HP)). now left. }
    assert (Hx : In x (y :: l2)).
    { apply (Permutation_in x HP). now left. }
    assert (Hxy : key x <= key y).
    { destruct Hy as [-> | Hy]; [lia|].
      rewrite Forall_forall in F1. apply (F1 y Hy). }
    assert (Hyx : key y <= key x).
    { destruct Hx as [-> | Hx]; [lia|].
      rewrite Forall_forall in F2. apply (F2 x Hx). }
    assert (E : x = y).
    { apply (key_injective_in x y (x :: l1)); [assumption | now left | assumption | lia]. }
    subst y. f_equal. apply IH; try assumption.
    + now apply Permutation_cons_inv in HP.
    + now inversion Hn.
Qed.
End SortFacts.

Lemma Permutation_filter {A : Type} (f : A -> bool) (l l' : list A) :
  Permutation l l' -> Permutation (filter f l) (filter f l').
Proof.
  induction 1 as [|x l l' _ IH|x y l|l l' l'' _ IH1 _ IH2]; simpl.
  - apply perm_nil.
  - destruct (f x); [now apply perm_skip | assumption].
  - destruct (f x), (f y); try apply Permutation_refl. apply perm_swap.
  - now apply perm_trans with (filter f l').
Qed.

Lemma filter_filter_comm {A : Type} (f g : A -> bool) (l : list A) :
  filter f (filter g l) = filter g (filter f l).
Proof.
  induction l as [|x l IH]; simpl; [reflexivity|].
  destruct (f x) eqn:Fx, (g x) eqn:Gx; simpl; rewrite ?Fx, ?Gx, IH; reflexivity.
Qed.

(** X7. The compiled script does not depend on the order of the rule list
    when no two enabled rules share a priority. *)
Theorem exportToIptables_order_independent
    (now : Z) (rules rules' : list FirewallRule) :
  Permutation rules rules' ->
  NoDup (map priority (filter enabled rules)) ->
  exportToIptables now rules = exportToIptables now rules'.
Proof.
  intros HP Hn.
  assert (E : enabledRules rules = enabledRules rules').
  { unfold enabledRules. apply (sorted_unique priority).
    - apply (sort_sorted priority).
    - apply (sort_sorted priority).
    - eapply perm_trans; [apply (sort_perm priority)|].
      eapply perm_trans; [apply Permutation_filter, HP|].
      apply Permutation_sym, (sort_perm priority).
    - eapply Permutation_NoDup; [|exact Hn].
      apply Permutation_map, Permutation_sym, (sort_perm priority). }
  rewrite !exportToIptables_parts. now rewrite E.
Qed.

Lemma exportToIptables_order_independent_witness :
  exportToIptables 1705737600000 sampleRules
  = exportToIptables 1705737600000 (rev sampleRules).
Proof.
  apply exportToIptables_order_independent.
  - apply Permutation_rev.
  - simpl. repeat constructor. simpl. tauto.
Defined.

(** X8. The directive of a rule whose protocol is ICMP or ALL has no port
    clause: it is the same whatever the two port fields hold. *)
Theorem ruleCommand_ignores_ports (sp dp : string) (rule : FirewallRule) :
  isICMP (protocol rule) || isALL (protocol rule) = true ->
  ruleCommand (withPorts sp dp rule) = ruleCommand rule.
Proof.
  intros H. destruct rule as [i n a p si spo di dpo pr en de cr up].
  simpl in H. unfold ruleCommand. simpl.
  destruct p; try discriminate H; reflexivity.
Qed.

Lemma ruleCommand_ignores_ports_witness :
  ruleCommand (withPorts "22" "1-65535" pingRule) = ruleCommand pingRule.
Proof.
  apply (ruleCommand_ignores_ports "22" "1-65535" pingRule). reflexivity.
Defined.

(** ** The rule list: save, delete, toggle *)

Lemma handleSaveRule_nil (rule : FirewallRule) : handleSaveRule rule [] = [rule].
Proof. reflexivity. Qed.

Lemma handleSaveRule_cons (rule x : FirewallRule) (prev : list FirewallRule) :
  handleSaveRule rule (x :: prev)
  = if hasId (id rule) x then rule :: prev else x :: handleSaveRule rule prev.
Proof.
  unfold handleSaveRule, hasId. simpl findIndex.
  destruct (id x =? id rule)%string; [reflexivity|].
  destruct (findIndex _ prev); reflexivity.
Qed.

Lemma handleSaveRule_facts (rule : FirewallRule) (prev : list FirewallRule) :
  find (hasId (id rule)) (handleSaveRule rule prev) = Some rule /\
  filter (fun r => negb (hasId (id rule) r)) (handleSaveRule rule prev)
  = filter (fun r => negb (hasId (id rule) r)) prev /\
  List.length (handleSaveRule rule prev)
  = if existsb (hasId (id rule)) prev then List.length prev
    else S (List.length prev).
Proof.
  assert (Hself : hasId (id rule) rule = true) by apply String.eqb_refl.
  induction prev as [|x prev (IH1 & IH2 & IH3)].
  - rewrite handleSaveRule_nil. simpl. rewrite Hself. repeat split.
  - rewrite handleSaveRule_cons. simpl existsb.
    destruct (hasId (id rule) x) eqn:Hx.
    + simpl. rewrite Hself, Hx. repeat split.
    + simpl. rewrite Hx. simpl. rewrite IH1, IH2, IH3.
      repeat split. now destruct (existsb _ prev).
Qed.

(** X9. After [handleSaveRule] the saved rule is the one found under its
    identifier; the rules with another identifier are the same, in the same
    order; and the list is one longer exactly when no rule had the
    identifier. *)
Theorem handleSaveRule_upsert (rule : FirewallRule) (prev : list FirewallRule) :
  find (hasId (id rule)) (handleSaveRule rule prev) = Some rule /\
  filter (fun r => negb (hasId (id rule) r)) (handleSaveRule rule prev)
  = filter (fun r => negb (hasId (id rule) r)) prev /\
  List.length (handleSaveRule rule prev)
  = if existsb (hasId (id rule)) prev then List.length prev
    else S (List.length prev).
Proof. apply handleSaveRule_facts. Qed.

Lemma handleSaveRule_ids (rule : FirewallRule) (prev : list FirewallRule) (y : string) :
  In y (map id (handleSaveRule rule prev)) -> y = id rule \/ In y (map id prev).
Proof.
  induction prev as [|x prev IH]; simpl.
  - intros [<- | []]. now left.
  - rewrite handleSaveRule_cons. destruct (hasId (id rule) x); simpl.
    + intros [<- | H]; auto.
    + intros [<- | H]; auto. destruct (IH H); auto.
Qed.

(** X10. [handleSaveRule] keeps identifiers unique: if no two rules of the
    list share an identifier, none do after the save. *)
Theorem handleSaveRule_keeps_ids_unique
    (rule : FirewallRule) (prev : list FirewallRule) :
  NoDup (map id prev) -> NoDup (map id (handleSaveRule rule prev)).
Proof.
  induction prev as [|x prev IH]; intros Hn.
  - simpl. constructor; [intros [] | constructor].
  - rewrite handleSaveRule_cons. inversion Hn as [|? ? Hx Hp]; subst.
    destruct (hasId (id rule) x) eqn:E.
    + apply String.eqb_eq in E. simpl. rewrite <- E. now constructor.
    + apply String.eqb_neq in E. simpl. constructor; [|now apply IH].
      intros H. apply handleSaveRule_ids in H as [H | H]; [congruence | contradiction].
Qed.

Lemma handleSaveRule_keeps_ids_unique_witness :
  NoDup (map id (handleSaveRule pingRule sampleRules)).
Proof.
  apply (handleSaveRule_keeps_ids_unique pingRule sampleRules).
  simpl. repeat constructor; simpl; intuition discriminate.
Defined.

Lemma handleDeleteRule_yes (i : string) (rules : list FirewallRule) :
  handleDeleteRule alwaysYes i rules = filter (fun r => negb (hasId i r)) rules.
Proof.
  unfold handleDeleteRule. fold (hasId i).
  destruct (find (hasId i) rules) eqn:Hf; [reflexivity|].
  pose proof (find_none _ _ Hf) as Hn.
  clear Hf. induction rules as [|x rules IH]; [reflexivity|].
  simpl. rewrite (Hn x) by now left. simpl. f_equal.
  apply IH. intros y Hy. apply Hn. now right.
Qed.

(** X11. A rule saved under an identifier no rule has, and then deleted
    with the deletion confirmed, leaves the list as it was; and a deletion
    the user declines changes nothing. *)
Theorem handleDeleteRule_undoes_handleSaveRule
    (rule : FirewallRule) (prev : list FirewallRule) :
  existsb (hasId (id rule)) prev = false ->
  handleDeleteRule alwaysYes (id rule) (handleSaveRule rule prev) = prev /\
  handleDeleteRule alwaysNo (id rule) (handleSaveRule rule prev)
  = handleSaveRule rule prev.
Proof.
  intros H. split.
  - rewrite handleDeleteRule_yes.
    destruct (handleSaveRule_facts rule prev) as (_ & -> & _).
    induction prev as [|x prev IH]; [reflexivity|].
    simpl in H. apply orb_false_iff in H as [Hx Hp].
    simpl. rewrite Hx. simpl. f_equal. now apply IH.
  - unfold handleDeleteRule, alwaysNo. now destruct (find _ _).
Qed.

Lemma handleDeleteRule_undoes_handleSaveRule_witness :
  handleDeleteRule alwaysYes (id pingRule) (handleSaveRule pingRule sampleRules)
  = sampleRules /\
  handleDeleteRule alwaysNo (id pingRule) (handleSaveRule pingRule sampleRules)
  = handleSaveRule pingRule sampleRules.
Proof.
  apply (handleDeleteRule_undoes_handleSaveRule pingRule sampleRules).
  reflexivity.
Defined.

(** X12. Deleting a rule, the deletion confirmed, takes the rules with its
    identifier out of the compile order and leaves the other enabled rules
    in the order they had. *)
Theorem handleDeleteRule_compile_order (i : string) (rules : list FirewallRule) :
  enabledRules (handleDeleteRule alwaysYes i rules)
  = filter (fun r => negb (hasId i r)) (enabledRules rules).
Proof.
  rewrite handleDeleteRule_yes. unfold enabledRules.
  rewrite filter_filter_comm. apply (sort_filter priority).
Qed.

(** X13. Toggling a rule twice restores every rule, but for the time of
    last update of the toggled rules, which is the time of the second
    toggle. *)
Theorem handleToggleRule_twice (n1 n2 : Z) (i : string) (rules : list FirewallRule) :
  handleToggleRule n2 i (handleToggleRule n1 i rules)
  = map (fun r => if hasId i r then touched n2 r else r) rules.
Proof.
  unfold handleToggleRule. rewrite map_map. apply map_ext. intros r.
  unfold hasId. destruct (id r =? i)%string eqn:E.
  - simpl. rewrite E. unfold toggled, touched. simpl.
    now rewrite negb_involutive.
  - now rewrite E.
Qed.

(** X14. Disabling a rule by [handleToggleRule] (every rule with the
    identifier being enabled) takes it out of the compile order and leaves
    the other enabled rules in the order they had. *)
Theorem handleToggleRule_off_compile_order
    (now : Z) (i : string) (rules : list FirewallRule) :
  forallb (fun r => negb (hasId i r) || enabled r) rules = true ->
  enabledRules (handleToggleRule now i rules)
  = filter (fun r => negb (hasId i r)) (enabledRules rules).
Proof.
  intros H. unfold enabledRules.
  rewrite <- (sort_filter priority). f_equal.
  induction rules as [|x rules IH]; [reflexivity|].
  simpl in H. apply andb_true_iff in H as [Hx Hr].
  simpl. unfold hasId in *. destruct (id x =? i)%string eqn:E.
  - simpl in Hx. simpl. rewrite Hx. simpl. rewrite E. simpl. now apply IH.
  - destruct (enabled x); simpl; rewrite ?E; simpl; now rewrite IH.
Qed.

Lemma handleToggleRule_off_compile_order_witness :
  enabledRules (handleToggleRule 1705737600000 "lq3x9k2a1" sampleRules)
  = filter (fun r => negb (hasId "lq3x9k2a1" r)) (enabledRules sampleRules).
Proof.
  apply (handleToggleRule_off_compile_order 1705737600000 "lq3x9k2a1" sampleRules).
  reflexivity.
Defined.

Lemma fold_max_ge (l : list Z) : 0 <= fold_right Z.max 0 l.
Proof. induction l as [|x l IH]; simpl; lia. Qed.

Lemma fold_max_in (l : list Z) (x : Z) : In x l -> x <= fold_right Z.max 0 l.
Proof.
  induction l as [|y l IH]; simpl; [contradiction|].
  intros [-> | H]; [lia | specialize (IH H); lia].
Qed.

Lemma plusOne_ge (x : Z) : 0 <= x -> 1 <= plusOne x /\ x <= plusOne x.
Proof.
  intros Hx. unfold plusOne.
  destruct (x <? 2 ^ 53) eqn:E53; [lia|].
  apply Z.ltb_ge in E53.
  destruct (x <? 2 ^ 54), (Z.even (x / 2)); lia.
Qed.

Lemma plusOne_safe (x : Z) : x < 2 ^ 53 -> plusOne x = x + 1.
Proof.
  intros Hx. unfold plusOne. apply Z.ltb_lt in Hx. now rewrite Hx.
Qed.

(** A double from 2^53 on is a multiple of the distance to its
    neighbours. *)
Lemma isDouble_multiple (x : Z) :
  2 ^ 53 <= x -> isDouble x = true -> x mod ulp x = 0.
Proof.
  intros Hx Hd. unfold isDouble, roundDouble in Hd.
  apply Z.ltb_ge in Hx. rewrite Hx in Hd. apply Z.ltb_ge in Hx.
  cbv zeta in Hd. apply Z.eqb_eq in Hd.
  assert (Hu : 0 < ulp x) by (unfold ulp; apply Z.pow_pos_nonneg; [lia|];
    pose proof (Z.log2_le_mono _ _ Hx) as Hl; rewrite Z.log2_pow2 in Hl; lia).
  pose proof (Z.div_mod x (ulp x) ltac:(lia)) as Hdm.
  pose proof (Z.mod_pos_bound x (ulp x) Hu) as Hr.
  destruct (2 * (x mod ulp x) <? ulp x);
    [|destruct (ulp x <? 2 * (x mod ulp x));
      [|destruct (Z.even (x / ulp x))]]; nia.
Qed.

(** [plusOne] is the addition of 1 of the arithmetic of doubles: on a
    non-negative integer that is a double, it gives the double nearest to
    the sum. *)
Lemma plusOne_roundDouble (x : Z) :
  0 <= x -> isDouble x = true -> plusOne x = roundDouble (x + 1).
Proof.
  intros H0 Hd.
  destruct (Z.lt_ge_cases x (2 ^ 53)) as [Hlt | Hge].
  - rewrite (plusOne_safe x Hlt). unfold roundDouble.
    destruct (x + 1 <? 2 ^ 53) eqn:E; [reflexivity|].
    apply Z.ltb_ge in E. assert (x = 2 ^ 53 - 1) by lia. subst x. reflexivity.
  - pose proof (isDouble_multiple x Hge Hd) as Hm.
    set (k := Z.log2 x) in *.
    assert (Hk : 53 <= k).
    { pose proof (Z.log2_le_mono _ _ Hge) as Hl.
      rewrite Z.log2_pow2 in Hl; [exact Hl | lia]. }
    destruct (Z.log2_spec x ltac:(lia)) as [Hlo Hhi]. fold k in Hlo, Hhi.
    unfold ulp in Hm. fold k in Hm.
    set (u := 2 ^ (k - 52)) in *.
    assert (Hu : 2 <= u).
    { unfold u. replace (k - 52) with (1 + (k - 53)) by lia.
      rewrite Z.pow_add_r by lia.
      pose proof (Z.pow_pos_nonneg 2 (k - 53) ltac:(lia) ltac:(lia)). lia. }
    assert (Hpow : 2 ^ Z.succ k = 2 ^ 53 * u).
    { unfold u. rewrite <- Z.pow_add_r by lia. f_equal. lia. }
    assert (Hxq : x = u * (x / u)).
    { pose proof (Z.div_mod x u ltac:(lia)). lia. }
    assert (Hq : x / u < 2 ^ 53) by nia.
    assert (Hnext : x + 1 < 2 ^ Z.succ k) by nia.
    assert (Hlog : Z.log2 (x + 1) = k).
    { apply Z.log2_unique; [lia|]. split; lia. }
    assert (Hdiv : (x + 1) / u = x / u).
    { symmetry. apply (Z.div_unique (x + 1) u (x / u) 1); lia. }
    assert (Hmod : (x + 1) mod u = 1).
    { symmetry. apply (Z.mod_unique (x + 1) u (x / u) 1); lia. }
    unfold roundDouble, plusOne.
    assert (E1 : (x + 1 <? 2 ^ 53) = false) by (apply Z.ltb_ge; lia).
    assert (E2 : (x <? 2 ^ 53) = false) by (apply Z.ltb_ge; lia).
    rewrite E1, E2. cbv zeta. unfold ulp. rewrite Hlog. fold u.
    rewrite Hdiv, Hmod.
    destruct (x <? 2 ^ 54) eqn:E54.
    + apply Z.ltb_lt in E54.
      assert (k = 53).
      { assert (k < 54); [|lia].
        apply (Z.pow_lt_mono_r_iff 2); [lia | lia | lia]. }
      assert (Hu2 : u = 2) by (unfold u; replace (k - 52) with 1 by lia; reflexivity).
      rewrite Hu2 in *. cbn [Z.ltb Z.mul Z.compare Pos.mul Pos.compare Pos.compare_cont].
      destruct (Z.even (x / 2)); lia.
    + apply Z.ltb_ge in E54.
      assert (54 <= k).
      { pose proof (Z.log2_le_mono _ _ E54) as Hl.
        rewrite Z.log2_pow2 in Hl; [exact Hl | lia]. }
      assert (Hu4 : 4 <= u).
      { unfold u. replace (k - 52) with (2 + (k - 54)) by lia.
        rewrite Z.pow_add_r by lia.
        pose proof (Z.pow_pos_nonneg 2 (k - 54) ltac:(lia) ltac:(lia)). lia. }
      assert (E : (2 * 1 <? u) = true) by (apply Z.ltb_lt; lia).
      rewrite E. lia.
Qed.

Lemma nextPriority_facts (rules : list FirewallRule) :
  1 <= nextPriority rules /\
  Forall (fun r => priority r <= nextPriority rules) rules.
Proof.
  unfold nextPriority.
  pose proof (plusOne_ge _ (fold_max_ge (map priority rules))) as [H1 Hge].
  split; [exact H1|].
  apply Forall_forall. intros r Hr.
  pose proof (fold_max_in (map priority rules) (priority r)
                (in_map priority rules r Hr)). lia.
Qed.

Lemma fold_max_lt (l : list Z) (b : Z) :
  0 < b -> Forall (fun x => x < b) l -> fold_right Z.max 0 l < b.
Proof.
  intros Hb H. induction H as [|x l Hx _ IH]; simpl; lia.
Qed.

Lemma fold_max_attained (l : list Z) :
  0 < fold_right Z.max 0 l -> In (fold_right Z.max 0 l) l.
Proof.
  induction l as [|x l IH]; simpl; [lia|]. intros H.
  destruct (Z.max_spec x (fold_right Z.max 0 l)) as [[Hlt E] | [Hle E]];
    rewrite E in *; [right; now apply IH | now left].
Qed.

(** X15. [nextPriority] is at least 1, is 1 for the empty list, and is not
    below the priority of any rule of the list.  It is above every
    priority when the priorities are below 2^53, where the addition of 1 is
    exact; when a priority is 2^54 or more the sum is rounded back, and
    [nextPriority] is the highest priority of the list itself. *)
Theorem nextPriority_above_all (rules : list FirewallRule) :
  1 <= nextPriority rules /\ nextPriority [] = 1 /\
  Forall (fun r => priority r <= nextPriority rules) rules /\
  (Forall (fun r => priority r < 2 ^ 53) rules ->
   Forall (fun r => priority r < nextPriority rules) rules) /\
  (Exists (fun r => 2 ^ 54 <= priority r) rules ->
   Exists (fun r => priority r = nextPriority rules) rules).
Proof.
  destruct (nextPriority_facts rules) as [H1 H2].
  split; [exact H1|]. split; [reflexivity|]. split; [exact H2|]. split.
  - intros Hsafe. unfold nextPriority. rewrite plusOne_safe.
    + apply Forall_forall. intros r Hr.
      pose proof (fold_max_in (map priority rules) (priority r)
                    (in_map priority rules r Hr)). lia.
    + apply fold_max_lt; [lia|]. apply Forall_map. exact Hsafe.
  - intros Hbig. apply Exists_exists in Hbig as (b & Hb & Hbig).
    pose proof (fold_max_in (map priority rules) (priority b)
                  (in_map priority rules b Hb)) as Hmax.
    pose proof (fold_max_attained (map priority rules) ltac:(lia)) as Hin.
    apply in_map_iff in Hin as (r & Hr & Hin).
    apply Exists_exists. exists r. split; [exact Hin|].
    unfold nextPriority. rewrite <- Hr in *. unfold plusOne.
    assert (E1 : (priority r <? 2 ^ 53) = false) by (apply Z.ltb_ge; lia).
    assert (E2 : (priority r <? 2 ^ 54) = false) by (apply Z.ltb_ge; lia).
    now rewrite E1, E2.
Qed.

Lemma nextPriority_above_all_witness :
  Forall (fun r => priority r < nextPriority sampleRules) sampleRules.
Proof.
  apply (nextPriority_above_all sampleRules).
  repeat constructor.
Defined.

(** X16. A rule created with the form (no rule being edited) under an
    identifier no rule has is appended to the list, enabled, with the time
    of creation as both timestamps, and is compiled last, after every rule
    that was enabled before. *)
Theorem new_rule_is_compiled_last
    (formData : Form.RuleFormData) (rules : list FirewallRule)
    (now : Z) (newId : string) (rule : FirewallRule) :
  handleSubmit formData None (nextPriority rules) now newId = inr rule ->
  existsb (hasId newId) rules = false ->
  handleSaveRule rule rules = (rules ++ [rule])%list /\
  enabledRules (handleSaveRule rule rules) = (enabledRules rules ++ [rule])%list /\
  id rule = newId /\ enabled rule = true /\
  createdAt rule = Some now /\ updatedAt rule = Some now.
Proof.
  intros Hs Hid. unfold handleSubmit in Hs.
  destruct (0 <? List.length (validateRule formData))%nat; [discriminate Hs|].
  injection Hs as <-. cbn [id enabled createdAt updatedAt].
  assert (Hsave : forall r, id r = newId ->
            handleSaveRule r rules = (rules ++ [r])%list).
  { intros r Hr. clear - Hid Hr. induction rules as [|x rules IH]; [reflexivity|].
    simpl in Hid. apply orb_false_iff in Hid as [Hx Hrest].
    rewrite handleSaveRule_cons, Hr, Hx. simpl. f_equal. now apply IH. }
  rewrite Hsave by reflexivity. repeat split.
  unfold enabledRules. rewrite filter_app. simpl.
  apply (sort_app_last priority). cbn [priority].
  apply Forall_forall. intros y Hy. apply filter_In in Hy as [Hy _].
  destruct (nextPriority_facts rules) as [_ Hall].
  rewrite Forall_forall in Hall. specialize (Hall y Hy). lia.
Qed.

Lemma new_rule_is_compiled_last_witness :
  exists rule,
    handleSubmit sshForm None (nextPriority sampleRules) 1705737600000 "lq3x9k2f3"
    = inr rule /\
    enabledRules (handleSaveRule rule sampleRules)
    = (enabledRules sampleRules ++ [rule])%list.
Proof.
  eexists. split; [reflexivity|].
  eapply (new_rule_is_compiled_last sshForm sampleRules 1705737600000 "lq3x9k2f3");
    reflexivity.
Defined.

(** ** [exportToJSON] *)

Lemma exportRecord_hasTime (r : FirewallRule) :
  exportRecord r
  = if hasTime (createdAt r) && hasTime (updatedAt r) then Return (recordOf r)
    else Throws.
Proof.
  unfold exportRecord, recordOf, toISOString.
  destruct r as [i n a p si sp di dp pr en de cr up].
  cbn [createdAt updatedAt].
  destruct cr as [c|]; [|reflexivity].
  destruct up as [u|]; [|reflexivity].
  destruct de; eval_props; reflexivity.
Qed.

Lemma mapM_exportRecord_hasTime (rules : list FirewallRule) :
  mapM exportRecord rules
  = if forallb (fun r => hasTime (createdAt r) && hasTime (updatedAt r)) rules
    then Return (map recordOf rules) else Throws.
Proof.
  induction rules as [|r rules IH]; [reflexivity|].
  cbn [mapM forallb map]. rewrite exportRecord_hasTime, IH.
  destruct (hasTime (createdAt r) && hasTime (updatedAt r)); [|reflexivity].
  now destruct (forallb _ rules).
Qed.

(** X17. [exportToJSON] raises an exception exactly when a rule of the
    list, enabled or not, has the Invalid Date as one of its timestamps. *)
Theorem exportToJSON_throws_iff (now : Z) (rules : list FirewallRule) :
  exportToJSON now rules = Throws <->
  existsb (fun r => negb (hasTime (createdAt r)) || negb (hasTime (updatedAt r)))
          rules = true.
Proof.
  unfold exportToJSON. rewrite mapM_exportRecord_hasTime.
  assert (E : forallb (fun r => hasTime (createdAt r) && hasTime (updatedAt r)) rules
              = negb (existsb (fun r => negb (hasTime (createdAt r))
                                        || negb (hasTime (updatedAt r))) rules)).
  { induction rules as [|r rules IH]; [reflexivity|].
    simpl. rewrite IH, negb_orb, negb_orb, !negb_involutive. reflexivity. }
  rewrite E. destruct (existsb _ rules); simpl; split; intros H;
    solve [reflexivity | discriminate H].
Qed.

(** X18. When every timestamp is a date, the document [exportToJSON] writes
    holds the format version, the export time, the number of rules and one
    record for each rule of the list, enabled or not, in the order of the
    list. *)
Theorem exportToJSON_document (now : Z) (rules : list FirewallRule) :
  forallb (fun r => hasTime (createdAt r) && hasTime (updatedAt r)) rules = true ->
  exportToJSON now rules
  = Return (Doc (JObj [ ("version", JStr "1.0");
                        ("exportDate", JStr (isoString now));
                        ("totalRules", JNum (Z.of_nat (List.length rules)));
                        ("rules", JArr (map recordOf rules)) ])).
Proof.
  intros H. unfold exportToJSON. rewrite mapM_exportRecord_hasTime, H.
  reflexivity.
Qed.

Lemma exportToJSON_document_witness :
  exportToJSON 1705737600000 sampleRules
  = Return (Doc (JObj [ ("version", JStr "1.0");
                        ("exportDate", JStr (isoString 1705737600000));
                        ("totalRules", JNum (Z.of_nat (List.length sampleRules)));
                        ("rules", JArr (map recordOf sampleRules)) ])).
Proof.
  apply (exportToJSON_document 1705737600000 sampleRules). reflexivity.
Defined.

(** ** [handleImport] *)

Lemma lookup_setProp_same {V : Type} (k : string) (v : V) (l : list (string * V)) :
  lookup k (setProp k v l) = Some v.
Proof.
  induction l as [|[k' v'] l IH]; simpl.
  - now rewrite String.eqb_refl.
  - destruct (k' =? k)%string eqn:E; simpl.
    + now rewrite String.eqb_refl.
    + now rewrite E.
Qed.

Lemma lookup_setProp_other {V : Type} (k k' : string) (v : V)
                           (l : list (string * V)) :
  (k' =? k)%string = false -> lookup k (setProp k' v l) = lookup k l.
Proof.
  intros Hk. induction l as [|[k0 v0] l IH]; simpl.
  - now rewrite Hk.
  - destruct (k0 =? k')%string eqn:E; simpl.
    + apply String.eqb_eq in E. subst k0. now rewrite Hk.
    + now rewrite IH.
Qed.

Lemma lookup_map {V W : Type} (f : V -> W) (k : string) (l : list (string * V)) :
  lookup k (map (fun kv => (fst kv, f (snd kv))) l) = option_map f (lookup k l).
Proof.
  induction l as [|[k' v'] l IH]; simpl; [reflexivity|].
  now destruct (k' =? k)%string.
Qed.

Lemma importRecord_object (newId : string) (props : list (string * json)) :
  importRecord newId (JObj props)
  = Return (setProp "updatedAt" (D (newDate (lookup "updatedAt" props)))
              (setProp "createdAt" (D (newDate (lookup "createdAt" props)))
                 (setProp "id" (J (JStr newId))
                    (map (fun kv => (fst kv, J (snd kv))) props)))).
Proof. reflexivity. Qed.

(** X19. [handleImport] keeps the rules the list already holds, in their
    places: whatever the file, the new list is the old one followed by the
    imported rules, and these and the alert do not depend on the old
    list. *)
Theorem handleImport_keeps_existing
    (ids : nat -> string) (content : document) (prev : list object) :
  handleImport ids content prev
  = ((prev ++ fst (handleImport ids content []))%list,
     snd (handleImport ids content [])).
Proof.
  unfold handleImport. destruct (decodeRules ids content) as [valid|].
  - destruct (List.length valid =? 0)%nat; simpl; now rewrite ?app_nil_r.
  - simpl. now rewrite app_nil_r.
Qed.

Lemma importRecords_ids (ids : nat -> string) (k : nat) (l : list json)
                        (os : list object) :
  forallb isObject l = true ->
  importRecords ids k l = Return os ->
  map (lookup "id") os
  = map (fun n => Some (J (JStr (ids n)))) (seq k (List.length os)).
Proof.
  revert k os. induction l as [|r l IH]; intros k os Ho H.
  - injection H as <-. reflexivity.
  - simpl in Ho. apply andb_true_iff in Ho as [Hr Hl].
    destruct r as [| | | | |props]; try discriminate Hr.
    cbn [importRecords] in H. rewrite importRecord_object in H.
    cbn [bind] in H.
    destruct (importRecords ids (S k) l) as [os'|] eqn:E; [|discriminate H].
    cbn [bind] in H. injection H as <-. cbn [map List.length seq].
    rewrite (IH (S k) os' Hl E). f_equal.
    rewrite !lookup_setProp_other by reflexivity.
    apply lookup_setProp_same.
Qed.

(** X20. Every rule [handleImport] accepts gets a new identifier: the
    identifiers of the imported rules are, in order, what the calls of
    [generateId] return, never what the file holds. *)
Theorem decodeRules_regenerates_ids
    (ids : nat -> string) (content : document) (imported : list object) :
  decodeRules ids content = Return imported ->
  map (lookup "id") imported
  = map (fun n => Some (J (JStr (ids n)))) (seq 0 (List.length imported)).
Proof.
  unfold decodeRules. intros H.
  destruct (JSON_parse content) as [parsed|]; [|discriminate H].
  cbn [bind] in H.
  destruct (importedRules parsed) as [payload|]; [|discriminate H].
  cbn [bind] in H.
  destruct payload as [[| | | |records|]|]; try discriminate H.
  destruct (filterM hasRequired records) as [valid|] eqn:Hf; [|discriminate H].
  cbn [bind] in H.
  apply (importRecords_ids ids 0 valid); [|assumption].
  clear H. revert valid Hf.
  induction records as [|r records IH]; intros valid Hf.
  - injection Hf as <-. reflexivity.
  - cbn [filterM] in Hf.
    destruct (hasRequired r) as [keep|] eqn:Hr; [|discriminate Hf].
    cbn [bind] in Hf.
    destruct (filterM hasRequired records) as [rest|]; [|discriminate Hf].
    cbn [bind] in Hf. injection Hf as <-.
    destruct keep; [|now apply IH].
    simpl. rewrite (hasRequired_only_objects r Hr). now apply IH.
Qed.

Lemma decodeRules_regenerates_ids_witness :
  map (lookup "id")
      [[ ("id", J (JStr "id0")); ("name", J (JStr "Allow SSH Access"));
         ("action", J (JStr "ALLOW")); ("protocol", J (JStr "TCP"));
         ("sourceIp", J (JStr "*")); ("sourcePort", J (JStr "*"));
         ("destinationIp", J (JStr "*")); ("destinationPort", J (JStr "22"));
         ("priority", J (JNum 1)); ("enabled", J (JBool true));
         ("createdAt", D (Some 1705314600000));
         ("updatedAt", D (Some 1705314600000)) ]]
  = map (fun n => Some (J (JStr (exampleIds n)))) (seq 0 1).
Proof.
  apply (decodeRules_regenerates_ids exampleIds
           (wrapped [completeRecord; recordWithoutAction])).
  reflexivity.
Defined.

(** X21. A document that wraps the records in an object under [rules] and
    the bare list of the same records are decoded alike. *)
Theorem decodeRules_wrapped_or_bare
    (ids : nat -> string) (props : list (string * json)) (records : list json) :
  lookup "rules" props = Some (JArr records) ->
  decodeRules ids (Doc (JObj props)) = decodeRules ids (Doc (JArr records)).
Proof.
  intros H. unfold decodeRules, JSON_parse, importedRules, getProp.
  cbn [bind]. rewrite H. reflexivity.
Qed.

Lemma decodeRules_wrapped_or_bare_witness :
  decodeRules exampleIds (wrapped [completeRecord; recordWithoutAction])
  = decodeRules exampleIds (Doc (JArr [completeRecord; recordWithoutAction])).
Proof.
  apply (decodeRules_wrapped_or_bare exampleIds). reflexivity.
Defined.

(** X22. An imported record keeps every property of the record in the
    file but [id], [createdAt] and [updatedAt], with the value the file
    gives: protocol, addresses, ports and priority are taken over as they
    are, not validated. *)
Theorem importRecord_keeps_fields
    (newId : string) (props : list (string * json)) (k : string) :
  (k =? "id")%string = false -> (k =? "createdAt")%string = false ->
  (k =? "updatedAt")%string = false ->
  exists o,
    importRecord newId (JObj props) = Return o /\
    lookup k o = option_map J (lookup k props).
Proof.
  intros Hi Hc Hu. eexists. split; [apply importRecord_object|].
  rewrite !lookup_setProp_other by (now rewrite String.eqb_sym).
  apply lookup_map.
Qed.

Lemma importRecord_keeps_fields_witness :
  exists o,
    importRecord "id0" (JObj [("id", JStr "x"); ("name", JStr "r");
                              ("action", JStr "ALLOW");
                              ("sourceIp", JStr "not an address")])
    = Return o /\
    lookup "sourceIp" o
    = option_map J (lookup "sourceIp"
                      [("id", JStr "x"); ("name", JStr "r");
                       ("action", JStr "ALLOW");
                       ("sourceIp", JStr "not an address")]).
Proof.
  apply (importRecord_keeps_fields "id0" _ "sourceIp"); reflexivity.
Defined.

(** ** Search and filters *)

Section SortedAlready.
Context {A : Type}.
Variable key : A -> Z.

Let cmp (a b : A) : Z := key a - key b.
Let le (a b : A) : Prop := key a <= key b.

Lemma sort_of_sorted (l : list A) : StronglySorted le l -> sort cmp l = l.
Proof.
  induction l as [|x l IH]; intros H; [reflexivity|].
  inversion H as [|? ? Hl Hx]; subst. simpl. rewrite (IH Hl).
  now apply (insert_head key).
Qed.

Lemma sort_sort (l : list A) : sort cmp (sort cmp l) = sort cmp l.
Proof. apply sort_of_sorted, (sort_sorted key). Qed.

Lemma sort_In (x : A) (l : list A) : In x (sort cmp l) <-> In x l.
Proof.
  split; apply Permutation_in;
    [apply (sort_perm key) | apply Permutation_sym, (sort_perm key)].
Qed.
End SortedAlready.

Lemma enabledRules_sort (rules : list FirewallRule) :
  enabledRules (sort (fun a b => priority a - priority b) rules)
  = enabledRules rules.
Proof.
  unfold enabledRules. rewrite <- (sort_filter priority).
  apply (sort_sort priority).
Qed.

(** X23. The list the filter effect shows is in the order of the
    priorities and holds exactly the rules that pass every filter that is
    set: the search term when it is not empty, the action and the status
    when they are not ALL.  With only the status filter set to ENABLED it
    is the list of rules in the order [exportToIptables] compiles them. *)
Theorem filterEffect_shows_matching_rules
    (searchTerm : string) (filterAction : ActionFilter)
    (filterStatus : StatusFilter) (rules : list FirewallRule) :
  StronglySorted (fun a b => priority a <= priority b)
                 (snd (filterEffect searchTerm filterAction filterStatus rules)) /\
  (forall rule,
     In rule (snd (filterEffect searchTerm filterAction filterStatus rules)) <->
     In rule rules /\
     (nonEmpty searchTerm = true ->
      matchesSearch (toLowerCase searchTerm) rule = true) /\
     (isAllActions filterAction = false ->
      matchesAction filterAction rule = true) /\
     (isAllRules filterStatus = false ->
      matchesStatus filterStatus rule = true)) /\
  snd (filterEffect "" AllActions EnabledOnly rules) = enabledRules rules.
Proof.
  split; [|split; [|reflexivity]].
  - unfold filterEffect.
    destruct (nonEmpty searchTerm), (negb (isAllActions filterAction)),
             (negb (isAllRules filterStatus)); cbn [snd];
      apply (sort_sorted priority).
  - intros rule. unfold filterEffect.
    destruct (nonEmpty searchTerm), filterAction, filterStatus;
      cbn [negb isAllActions isAllRules snd];
      rewrite (sort_In priority), ?filter_In;
      intuition (try discriminate).
Qed.

(** X24. The sort of the filter effect works on the array of the state
    itself when no filter is set, so the rules of the state are then in the
    order of the priorities after the effect; with a filter set the state
    is as it was.  In both cases the script [exportToIptables] compiles
    from the state is the same as before the effect. *)
Theorem filterEffect_state
    (now : Z) (searchTerm : string) (filterAction : ActionFilter)
    (filterStatus : StatusFilter) (rules : list FirewallRule) :
  fst (filterEffect searchTerm filterAction filterStatus rules)
  = (if nonEmpty searchTerm || negb (isAllActions filterAction)
        || negb (isAllRules filterStatus)
     then rules
     else sort (fun a b => priority a - priority b) rules) /\
  exportToIptables now
    (fst (filterEffect searchTerm filterAction filterStatus rules))
  = exportToIptables now rules.
Proof.
  assert (E : fst (filterEffect searchTerm filterAction filterStatus rules)
              = if nonEmpty searchTerm || negb (isAllActions filterAction)
                   || negb (isAllRules filterStatus)
                then rules
                else sort (fun a b => priority a - priority b) rules).
  { unfold filterEffect.
    destruct (nonEmpty searchTerm), (negb (isAllActions filterAction)),
             (negb (isAllRules filterStatus)); reflexivity. }
  split; [exact E|]. rewrite E.
  destruct (nonEmpty searchTerm || negb (isAllActions filterAction)
            || negb (isAllRules filterStatus)); [reflexivity|].
  rewrite !exportToIptables_parts, enabledRules_sort. reflexivity.
Qed.

(** ** The form *)

Lemma nonEmpty_false (s : string) : nonEmpty s = false -> s = "".
Proof.
  unfold nonEmpty. intros H. apply negb_false_iff in H.
  now apply String.eqb_eq in H.
Qed.

Lemma description_or_empty (d : string) : (if nonEmpty d then d else "") = d.
Proof.
  destruct (nonEmpty d) eqn:E; [reflexivity|].
  symmetry. now apply nonEmpty_false.
Qed.

Lemma validateRule_length (formData : Form.RuleFormData) :
  (0 <? List.length (validateRule formData))%nat = true <-> ~ validForm formData.
Proof.
  rewrite <- validateRule_empty_iff.
  destruct (validateRule formData) as [|e l]; simpl; split; intros H;
    try discriminate; try reflexivity.
  now elim H.
Qed.

(** X25. [handleSubmit] gives a rule to [onSave] exactly when the form
    passes every check of [validateRule], and shows the errors of
    [validateRule] otherwise.  The rule carries the fields of the form:
    opened in the editor it gives the same form. *)
Theorem handleSubmit_saves_valid_forms_only
    (formData : Form.RuleFormData) (editingRule : option FirewallRule)
    (nextPriority now : Z) (newId : string) :
  (validForm formData /\
   exists rule,
     handleSubmit formData editingRule nextPriority now newId = inr rule /\
     formOf (Some rule) = formData /\ updatedAt rule = Some now) \/
  (~ validForm formData /\
   handleSubmit formData editingRule nextPriority now newId
   = inl (validateRule formData)).
Proof.
  unfold handleSubmit.
  destruct (0 <? List.length (validateRule formData))%nat eqn:E.
  - right. split; [now apply validateRule_length | reflexivity].
  - left. split.
    + apply validateRule_empty_iff.
      destruct (validateRule formData); [reflexivity | discriminate E].
    + eexists. split; [reflexivity|]. split; [|reflexivity].
      destruct formData. cbn. now rewrite description_or_empty.
Qed.

(** X26. Saving the form of a rule being edited without a change gives the
    rule back with the time of the save as [updatedAt], when the rule
    passes the checks, has an identifier, a priority other than 0 and a
    description. *)
Theorem handleSubmit_unchanged_edit
    (rule : FirewallRule) (nextPriority now : Z) (newId : string) :
  validForm (formOf (Some rule)) ->
  nonEmpty (id rule) = true -> priority rule <> 0 ->
  description rule <> None ->
  handleSubmit (formOf (Some rule)) (Some rule) nextPriority now newId
  = inr (touched now rule).
Proof.
  intros Hv Hi Hp Hd. unfold handleSubmit.
  apply validateRule_empty_iff in Hv. rewrite Hv. cbn [List.length Nat.ltb Nat.leb].
  rewrite Hi. apply Z.eqb_neq in Hp. rewrite Hp.
  destruct rule as [i n a p si sp di dp pr en [d|] cr up]; [|now elim Hd].
  cbn. now rewrite description_or_empty.
Qed.

Lemma handleSubmit_unchanged_edit_witness :
  handleSubmit (formOf (Some pingRule)) (Some pingRule) 9 1705737600000 "lq3x9k2f3"
  = inr (touched 1705737600000 pingRule).
Proof.
  apply (handleSubmit_unchanged_edit pingRule 9 1705737600000 "lq3x9k2f3").
  - repeat split; reflexivity.
  - reflexivity.
  - discriminate.
  - discriminate.
Defined.

Lemma handleSaveRule_same_ids (rule : FirewallRule) (prev : list FirewallRule) :
  existsb (hasId (id rule)) prev = true ->
  map id (handleSaveRule rule prev) = map id prev.
Proof.
  induction prev as [|x prev IH]; [discriminate|].
  simpl. rewrite handleSaveRule_cons. destruct (hasId (id rule) x) eqn:E.
  - intros _. simpl. unfold hasId in E. apply String.eqb_eq in E. now rewrite E.
  - simpl. intros H. now rewrite IH.
Qed.

(** X27. Saving an edit of a rule of the list that has an identifier puts
    the edited rule in the place of a rule with that identifier: the
    identifiers of the list and their order stay as they are, and the
    edited rule keeps the identifier, the time of creation and the enabled
    flag of the rule that was edited. *)
Theorem edit_replaces_rule
    (formData : Form.RuleFormData) (editingRule rule : FirewallRule)
    (rules : list FirewallRule) (nextPriority now : Z) (newId : string) :
  handleSubmit formData (Some editingRule) nextPriority now newId = inr rule ->
  In editingRule rules -> nonEmpty (id editingRule) = true ->
  map id (handleSaveRule rule rules) = map id rules /\
  In rule (handleSaveRule rule rules) /\
  id rule = id editingRule /\ createdAt rule = createdAt editingRule /\
  enabled rule = enabled editingRule.
Proof.
  intros Hs Hin Hid. unfold handleSubmit in Hs.
  destruct (0 <? List.length (validateRule formData))%nat; [discriminate Hs|].
  rewrite Hid in Hs. injection Hs as <-. cbn [id createdAt enabled].
  match goal with |- map id (handleSaveRule ?r _) = _ /\ _ => set (saved := r) end.
  assert (Hex : existsb (hasId (id saved)) rules = true).
  { apply existsb_exists. exists editingRule. split; [assumption|].
    unfold hasId. apply String.eqb_refl. }
  split; [now apply handleSaveRule_same_ids|].
  split; [|repeat split].
  destruct (handleSaveRule_facts saved rules) as (Hf & _ & _).
  apply find_some in Hf. apply Hf.
Qed.

Lemma edit_replaces_rule_witness :
  exists rule,
    handleSubmit sshForm (Some pingRule) 9 1705737600000 "lq3x9k2f3" = inr rule /\
    map id (handleSaveRule rule (sampleRules ++ [pingRule]))
    = map id (sampleRules ++ [pingRule])%list.
Proof.
  eexists. split; [reflexivity|].
  eapply (edit_replaces_rule sshForm pingRule _ (sampleRules ++ [pingRule])
            9 1705737600000 "lq3x9k2f3").
  - reflexivity.
  - apply in_or_app. right. now left.
  - reflexivity.
Defined.

(** X28. [handleProtocolChange] removes the errors of the two port fields
    from the errors shown and keeps the error shown for every other
    field. *)
Theorem handleProtocolChange_clears_port_errors
    (p : Protocol) (formData : Form.RuleFormData)
    (errors : list ValidationError) (f : string) :
  getFieldError (snd (handleProtocolChange p formData errors)) f
  = if (f =? "sourcePort")%string || (f =? "destinationPort")%string then None
    else getFieldError errors f.
Proof.
  unfold handleProtocolChange, getFieldError. cbn [snd].
  induction errors as [|e errors IH].
  - simpl. now destruct ((f =? "sourcePort")%string || (f =? "destinationPort")%string).
  - cbn [filter find existsb].
    destruct (field e =? f)%string eqn:Ef.
    + apply String.eqb_eq in Ef. subst f. rewrite orb_false_r in *.
      destruct ((field e =? "sourcePort")%string
                || (field e =? "destinationPort")%string).
      * cbn [negb]. exact IH.
      * cbn [negb find]. now rewrite String.eqb_refl.
    + destruct (negb _); [|exact IH].
      cbn [find]. rewrite Ef. exact IH.
Qed.

(** ** The figures of the dashboard *)

Lemma filter_split_length {A : Type} (p : A -> bool) (l : list A) :
  (List.length (filter p l) + List.length (filter (fun x => negb (p x)) l)
   = List.length l)%nat.
Proof.
  induction l as [|x l IH]; [reflexivity|].
  simpl. destruct (p x); simpl; lia.
Qed.

(** X29. The figures of the dashboard add up: every rule is counted as
    active or as disabled and every active rule as an allow or a deny rule;
    and the number of active rules is the number [exportToIptables] writes
    in the line [# Total rules:] of the head of the script, and the number
    of rules it compiles. *)
Theorem dashboard_figures (now : Z) (rules : list FirewallRule) :
  (List.length (activeRules rules) + List.length (disabledRules rules)
   = List.length rules)%nat /\
  (List.length (allowRules rules) + List.length (denyRules rules)
   = List.length (activeRules rules))%nat /\
  exportToIptables now rules
  = unlines [ "#!/bin/bash";
              "# Generated Firewall Rules";
              "# Generated on: " ++ isoString now;
              "# Total rules: " ++ showNat (List.length (activeRules rules)) ]
    ++ unlines (fixedDirectives ++ ruleLines (enabledRules rules) 1
                ++ loggingSuggestion) /\
  List.length (enabledRules rules) = List.length (activeRules rules).
Proof.
  assert (Hlen : List.length (enabledRules rules)
                 = List.length (activeRules rules)).
  { unfold enabledRules, activeRules.
    apply Permutation_length, (sort_perm priority). }
  split; [apply filter_split_length|]. split; [|split; [|exact Hlen]].
  - unfold allowRules, denyRules.
    rewrite <- (filter_split_length (fun rule => isALLOW (action rule))
                                    (activeRules rules)).
    f_equal. f_equal. apply filter_ext. intros r. now destruct (action r).
  - rewrite exportToIptables_script. unfold scriptLines.
    rewrite unlines_app, Hlen. reflexivity.
Qed.
